(** * EXOSIMS survey simulation: mission clock, target selection,
      detection and characterization

    A shallow embedding of [EXOSIMS/Prototypes/SurveySimulation.py] and of
    the mission clock it drives.  Physical quantities (times in days,
    working angles, masses, photon counts) are rationals; numpy arrays are
    lists; the collaborating modules (keepout geometry, integration times,
    completeness, photon counts, detection statistics, the random source)
    are parameters of the sections that use them. *)

From Stdlib Require Import String QArith Qabs ZArith Arith List Bool Lia.
Import ListNotations.
Open Scope Q_scope.

(** ** Rational comparisons as booleans *)

Definition Qltb (x y : Q) : bool := negb (Qle_bool y x).

(** ** The mission clock (TimeKeeping) *)

Module TimeKeeping.

(** The clock object.  [currentTimeAbs] is the absolute time (MJD, days),
    [currentTimeNorm] the time since mission start; the observing blocks
    are the parallel arrays [OBstartTimes]/[OBendTimes], [OBnumber] the
    index of the current one ([tk.OBendTimes[tk.OBnumber]] in the tests).
    [dtAlloc] is the retry interval read by [next_target]. *)
Record t := mk {
  currentTimeAbs : Q;
  currentTimeNorm : Q;
  exoplanetObsTime : Q;
  missionLife : Q;
  missionPortion : Q;
  OBstartTimes : list Q;
  OBendTimes : list Q;
  OBnumber : nat;
  dtAlloc : Q
}.

(** End of the current observing block, [OBendTimes[OBnumber]]. *)
Definition currentOBend (tk : t) : option Q :=
  nth_error (OBendTimes tk) (OBnumber tk).

(** The clock after a successful allocation of [dt]. *)
Definition advance (dt : Q) (addExoplanetObsTime : bool) (tk : t) : t :=
  {| currentTimeAbs := currentTimeAbs tk + dt;
     currentTimeNorm := currentTimeNorm tk + dt;
     exoplanetObsTime :=
       if addExoplanetObsTime then exoplanetObsTime tk + dt
       else exoplanetObsTime tk;
     missionLife := missionLife tk;
     missionPortion := missionPortion tk;
     OBstartTimes := OBstartTimes tk;
     OBendTimes := OBendTimes tk;
     OBnumber := OBnumber tk;
     dtAlloc := dtAlloc tk |}.

(** Would the normalized time [t'] lie past the end of the current block? *)
Definition past_current_OB (t' : Q) (tk : t) : bool :=
  match currentOBend tk with
  | Some e => Qltb e t'
  | None => false
  end.

(** Modelled from the spec: [TimeKeeping.allocate_time] is missing from the
    sources (only its unit test is present).  It fails, returning false
    without mutation, if [dt <= 0], or if applying it would exceed
    [missionLife], exceed the end of the current observing block, or, when
    the charge flag is set, exceed [missionLife * missionPortion]; on
    success it advances [currentTimeAbs] and [currentTimeNorm] by [dt], and
    [exoplanetObsTime] only when the flag is set.  The result pairs the
    returned boolean with the clock after the call. *)
Definition allocate_time (dt : Q) (addExoplanetObsTime : bool) (tk : t)
  : bool * t :=
  if Qle_bool dt 0 then (false, tk)
  else if Qltb (missionLife tk) (currentTimeNorm tk + dt) then (false, tk)
  else if past_current_OB (currentTimeNorm tk + dt) tk then (false, tk)
  else if addExoplanetObsTime
          && Qltb (missionLife tk * missionPortion tk)
                  (exoplanetObsTime tk + dt)
       then (false, tk)
  else (true, advance dt addExoplanetObsTime tk).

(** No block follows the current one. *)
Definition no_further_block (tk : t) : bool :=
  (length (OBendTimes tk) <=? S (OBnumber tk))%nat.

(** Modelled from the spec: [TimeKeeping.mission_is_over] is missing from
    the sources.  It is true if [exoplanetObsTime >= missionLife *
    missionPortion], or [currentTimeNorm >= missionLife], or
    [currentTimeNorm] exceeds the end of the current observing block and no
    further block exists. *)
Definition mission_is_over (tk : t) : bool :=
  Qle_bool (missionLife tk * missionPortion tk) (exoplanetObsTime tk)
  || Qle_bool (missionLife tk) (currentTimeNorm tk)
  || (past_current_OB (currentTimeNorm tk) tk && no_further_block tk).

(** The conditions under which the spec calls an allocation invalid. *)
Definition invalid_allocation (dt : Q) (addExoplanetObsTime : bool) (tk : t)
  : Prop :=
  dt <= 0
  \/ missionLife tk < currentTimeNorm tk + dt
  \/ (exists e, currentOBend tk = Some e /\ e < currentTimeNorm tk + dt)
  \/ (addExoplanetObsTime = true
      /\ missionLife tk * missionPortion tk < exoplanetObsTime tk + dt).

End TimeKeeping.

(** ** numpy arrays as lists *)

Module np.

(** [np.any(a)]: some element is truthy (non-zero, or [True]). *)
Definition any_nat (a : list nat) : bool :=
  existsb (fun x => negb (x =? 0)%nat) a.
Definition any_Z (a : list Z) : bool :=
  existsb (fun x => negb (x =? 0)%Z) a.
Definition any_Q (a : list Q) : bool :=
  existsb (fun x => negb (Qeq_bool x 0)) a.
Definition any_bool (a : list bool) : bool := existsb (fun b => b) a.

(** [np.where(mask)[0]]: the positions of the true entries, ascending. *)
Fixpoint where_from (i : nat) (mask : list bool) : list nat :=
  match mask with
  | [] => []
  | b :: mask' =>
      if b then i :: where_from (S i) mask' else where_from (S i) mask'
  end.
Definition where_ (mask : list bool) : list nat := where_from 0 mask.

(** [a[idx]] for an integer index array: the entries at those positions.
    numpy raises on a position out of range; every index array below comes
    from [where_] over an array as long as [a], so none is. *)
Definition take {A} (a : list A) (idx : list nat) : list A :=
  flat_map (fun i => match nth_error a i with
                     | Some x => [x]
                     | None => []
                     end) idx.

(** [a[mask]] for a boolean mask as long as [a]. *)
Fixpoint select {A} (a : list A) (mask : list bool) : list A :=
  match a, mask with
  | x :: a', b :: mask' => if b then x :: select a' mask' else select a' mask'
  | _, _ => []
  end.

(** [a[i] = v] on a list; positions out of range leave [a] as it is. *)
Fixpoint upd {A} (a : list A) (i : nat) (v : A) : list A :=
  match a, i with
  | [], _ => []
  | _ :: a', O => v :: a'
  | x :: a', S i' => x :: upd a' i' v
  end.

(** [a[idx] = vals]: the k-th position of [idx] receives the k-th value. *)
Fixpoint scatter {A} (a : list A) (idx : list nat) (vals : list A) : list A :=
  match idx, vals with
  | i :: idx', v :: vals' => scatter (upd a i v) idx' vals'
  | _, _ => a
  end.

(** [a[idx] = v] with one scalar for all the positions. *)
Definition fill_idx {A} (a : list A) (idx : list nat) (v : A) : list A :=
  fold_left (fun acc i => upd acc i v) idx a.

(** [a[mask] = v] with one scalar. *)
Fixpoint fill_mask {A} (a : list A) (mask : list bool) (v : A) : list A :=
  match a, mask with
  | x :: a', b :: mask' => (if b then v else x) :: fill_mask a' mask' v
  | _, _ => a
  end.

(** [a[mask] = vals] when [vals] has one value per true entry. *)
Fixpoint assign_mask {A} (a : list A) (mask : list bool) (vals : list A)
  : list A :=
  match a, mask with
  | x :: a', b :: mask' =>
      if b then
        match vals with
        | v :: vals' => v :: assign_mask a' mask' vals'
        | [] => x :: assign_mask a' mask' []
        end
      else x :: assign_mask a' mask' vals
  | _, _ => a
  end.

Definition count_true (mask : list bool) : nat :=
  List.length (filter (fun b => b) mask).

Definition zeros (n : nat) : list Q := repeat 0 n.

Definition sum (a : list Q) : Q := fold_left Qplus a 0.

(** [a.mean()] *)
Definition mean (a : list Q) : Q := sum a / inject_Z (Z.of_nat (List.length a)).

(** Python's [max] over a non-empty array (first argument: the value for
    an empty one, never used below). *)
Definition max (d : Q) (a : list Q) : Q :=
  match a with
  | [] => d
  | x :: a' => fold_left (fun m c => if Qltb m c then c else m) a' x
  end.

(** [a.min()] of an integer array. *)
Definition min_nat (a : list nat) : nat :=
  match a with
  | [] => O
  | x :: a' => fold_left Nat.min a' x
  end.

(** [np.min] of a float array. *)
Definition min (d : Q) (a : list Q) : Q :=
  match a with
  | [] => d
  | x :: a' => fold_left (fun m c => if Qltb c m then c else m) a' x
  end.

(** [np.argmin] of a non-empty float array: first position of the least. *)
Fixpoint argmin_from (i best : nat) (m : Q) (a : list Q) : nat :=
  match a with
  | [] => best
  | c :: a' =>
      if Qltb c m then argmin_from (S i) i c a'
      else argmin_from (S i) best m a'
  end.
Definition argmin (a : list Q) : option nat :=
  match a with
  | [] => None
  | x :: a' => Some (argmin_from 1 0 x a')
  end.

(** Column sums [M.sum(0)] of a matrix given by rows of width [n]. *)
Definition sum0 (n : nat) (rows : list (list Q)) : list Q :=
  fold_left (fun acc row => map (fun p => fst p + snd p) (combine acc row))
            rows (zeros n).

(** Membership test [x in a] on an integer array. *)
Definition mem (x : nat) (a : list nat) : bool := existsb (Nat.eqb x) a.

End np.

(** Position of a Python index in an array of [len] entries: negative
    indices count from the end. *)
Definition py_index (len : nat) (i : Z) : option nat :=
  if (0 <=? i)%Z then
    (if (Z.to_nat i <? len)%nat then Some (Z.to_nat i) else None)
  else
    (if (Z.to_nat (- i) <=? len)%nat then Some (len - Z.to_nat (- i))%nat
     else None).

(** [a[idx]] for an array of Python indices. *)
Definition take_py {A} (a : list A) (idx : list Z) : list A :=
  flat_map (fun i => match py_index (List.length a) i with
                     | Some k => match nth_error a k with
                                 | Some x => [x]
                                 | None => []
                                 end
                     | None => []
                     end) idx.

(** [a[idx] += 1] for an array of distinct Python indices. *)
Definition incr_py (a : list Z) (idx : list Z) : list Z :=
  fold_left (fun acc i => match py_index (List.length acc) i with
                          | Some k => np.upd acc k (nth k acc 0%Z + 1)%Z
                          | None => acc
                          end) idx a.

(** ** numpy array objects

    Indexing an array with a boolean mask or an index array (advanced
    indexing) builds a new array object holding a copy of the selected
    entries; a store [a[..] = v] writes into the object [a] itself.  The
    store below keeps the array objects apart, so that a write into a
    copy and a write into the original are different things. *)

Module ndarray.

Definition store := list (list Z).
Definition ref := nat.
Definition M (A : Type) := store -> A * store.

Definition ret {A} (a : A) : M A := fun h => (a, h).
Definition bind {A B} (m : M A) (k : A -> M B) : M B :=
  fun h => let '(a, h') := m h in k a h'.

(** A new array object with the given content. *)
Definition new (a : list Z) : M ref :=
  fun h => (List.length h, h ++ [a]).

(** The content of an array object. *)
Definition load (r : ref) : M (list Z) := fun h => (nth r h [], h).

(** [a[mask]]: a new object. *)
Definition getitem_mask (r : ref) (mask : list bool) : M ref :=
  fun h => new (np.select (nth r h []) mask) h.

(** [a[idx]]: a new object. *)
Definition getitem_idx (r : ref) (idx : list nat) : M ref :=
  fun h => new (np.take (nth r h []) idx) h.

(** [a[mask] = v]: in place. *)
Definition setitem_mask (r : ref) (mask : list bool) (v : Z) : M unit :=
  fun h => (tt, np.upd h r (np.fill_mask (nth r h []) mask v)).

(** [a[idx] = v]: in place. *)
Definition setitem_idx (r : ref) (idx : list nat) (v : Z) : M unit :=
  fun h => (tt, np.upd h r (np.fill_idx (nth r h []) idx v)).

End ndarray.

Declare Scope nd_scope.
Delimit Scope nd_scope with nd.
Notation "x <- m ;; k" := (ndarray.bind m (fun x => k))
  (at level 61, m at next level, right associativity) : nd_scope.

(** ** Data of the survey simulation *)

(** An observing mode, with the entries the simulation reads:
    [mode['timeMultiplier']], [mode['SNR']], [mode['BW']] and
    [mode['syst']['ohTime']]. *)
Record Mode := mkMode {
  timeMultiplier : Q;
  mode_SNR : Q;
  BW : Q;
  ohTime : Q
}.

(** The optical system: [OS.haveOcculter], [OS.IWA], [OS.OWA],
    [OS.intCutoff]. *)
Record OpticalSystem := mkOS {
  haveOcculter : bool;
  IWA : Q;
  OWA : Q;
  intCutoff : Q
}.

(** The modules that a run never changes: the optical system, the target
    list (the array [TL.comp0], one entry per star), [Obs.settlingTime]
    and the sampling [nt_flux]. *)
Record Config := mkConfig {
  OS : OpticalSystem;
  comp0 : list Q;
  settlingTime : Q;
  nt_flux : nat
}.

(** [TL.nStars] *)
Definition nStars (cfg : Config) : nat := List.length (comp0 cfg).

(** The part of a planet that [SU.propag_system] recomputes: working
    angle, delta magnitude, exozodi brightness and apparent separation. *)
Record PlanetDyn := mkDyn {
  pl_WA : Q;
  pl_dMag : Q;
  pl_fEZ : Q;
  pl_s : Q
}.

(** One entry of the parallel arrays [SU.plan2star], [SU.Mp], [SU.WA],
    [SU.dMag], [SU.fEZ], [SU.s]: the planet with that index. *)
Record Planet := mkPlanet {
  plan2star : nat;
  pl_Mp : Q;
  pl_dyn : PlanetDyn
}.

(** A row of [lastDetected]: detected flags, exozodi brightness, delta
    magnitude and working angle of the planets of one star, with one more
    entry at the end of each after a false alarm. *)
Record Snapshot := mkSnap {
  ld_det : list bool;
  ld_fEZ : list Q;
  ld_dMag : list Q;
  ld_WA : list Q
}.

(** The state a run mutates: the clock, the simulated universe, the
    occulter wet mass and the bookkeeping arrays of the simulation object;
    [draws] counts the numbers taken from the random source. *)
Record Sim := mkSim {
  TK : TimeKeeping.t;
  SU : list Planet;
  scMass : Q;
  starVisits : list nat;
  starRevisit : list (nat * Q);
  lastDetected : list (option Snapshot);
  fullSpectra : list Z;
  partialSpectra : list Z;
  draws : nat
}.

Definition set_TK (tk : TimeKeeping.t) (st : Sim) : Sim :=
  mkSim tk (SU st) (scMass st) (starVisits st) (starRevisit st)
        (lastDetected st) (fullSpectra st) (partialSpectra st) (draws st).
Definition set_SU (su : list Planet) (st : Sim) : Sim :=
  mkSim (TK st) su (scMass st) (starVisits st) (starRevisit st)
        (lastDetected st) (fullSpectra st) (partialSpectra st) (draws st).
Definition set_scMass (m : Q) (st : Sim) : Sim :=
  mkSim (TK st) (SU st) m (starVisits st) (starRevisit st)
        (lastDetected st) (fullSpectra st) (partialSpectra st) (draws st).
Definition set_starVisits (v : list nat) (st : Sim) : Sim :=
  mkSim (TK st) (SU st) (scMass st) v (starRevisit st)
        (lastDetected st) (fullSpectra st) (partialSpectra st) (draws st).
Definition set_starRevisit (r : list (nat * Q)) (st : Sim) : Sim :=
  mkSim (TK st) (SU st) (scMass st) (starVisits st) r
        (lastDetected st) (fullSpectra st) (partialSpectra st) (draws st).
Definition set_lastDetected (l : list (option Snapshot)) (st : Sim) : Sim :=
  mkSim (TK st) (SU st) (scMass st) (starVisits st) (starRevisit st)
        l (fullSpectra st) (partialSpectra st) (draws st).
Definition set_fullSpectra (f : list Z) (st : Sim) : Sim :=
  mkSim (TK st) (SU st) (scMass st) (starVisits st) (starRevisit st)
        (lastDetected st) f (partialSpectra st) (draws st).
Definition set_partialSpectra (p : list Z) (st : Sim) : Sim :=
  mkSim (TK st) (SU st) (scMass st) (starVisits st) (starRevisit st)
        (lastDetected st) (fullSpectra st) p (draws st).
Definition set_draws (d : nat) (st : Sim) : Sim :=
  mkSim (TK st) (SU st) (scMass st) (starVisits st) (starRevisit st)
        (lastDetected st) (fullSpectra st) (partialSpectra st) d.

(** The clock as the simulation calls it: [TK.allocate_time(dt)] with the
    flag left to its default, returning the boolean and the clock after
    the call, and [TK.mission_is_over()]. *)
Record Clock := mkClock {
  TK_allocate_time : Q -> TimeKeeping.t -> bool * TimeKeeping.t;
  TK_mission_is_over : TimeKeeping.t -> bool
}.

(** The clock of the spec, for a given default of the charge flag. *)
Definition spec_clock (addExoplanetObsTime : bool) : Clock :=
  {| TK_allocate_time := fun dt => TimeKeeping.allocate_time dt addExoplanetObsTime;
     TK_mission_is_over := TimeKeeping.mission_is_over |}.

(** The collaborating modules, as functions of what the simulation hands
    them.  Where the source passes the spacecraft position [Obs.orbit(t)]
    or the local zodiacal light [ZL.fZ(.., r_sc)], the function takes the
    time [t] they are computed from. *)
Record Collaborators := mkCollab {
  (** [Obs.keepout(TL, s, t, Obs.orbit(t), OS.telescopeKeepout)], per star *)
  keepout : nat -> Q -> bool;
  (** [sqrt(slewTime_fac * sin(sd/2))] from the old to the new star, given
      the absolute time and the wet mass that [slewTime_fac] divides by *)
  slew_time : nat -> nat -> Q -> Q -> Q;
  (** [OS.calc_maxintTime] of a star whose observation starts at [t] *)
  calc_maxintTime : Mode -> nat -> Q -> Q;
  (** [Completeness.completeness_update(TL, s, t)], per star *)
  completeness_update : nat -> Q -> Q;
  (** the k-th number of the random source *)
  random : nat -> nat;
  (** [SU.propag_system(sInd, t)] on the planet with the given index *)
  propag_planet : nat -> Q -> PlanetDyn -> PlanetDyn;
  (** [OS.Cp_Cb_Csp(TL, sInd, fZ(t), fEZ, dMag, WA, mode)], per planet *)
  Cp_Cb_Csp : Mode -> nat -> Q -> Q -> Q -> Q -> Q * Q * Q;
  (** [np.sqrt] *)
  sqrt : Q -> Q;
  (** [PPro.det_occur(SNR)]: false-alarm flag, missed-detection mask *)
  det_occur : list Q -> bool * list bool;
  (** the false alarm's working angle (mas), drawn for a star *)
  FA_WA : nat -> nat -> Q;
  (** the false alarm's delta magnitude, drawn for a working angle *)
  FA_dMag : Q -> nat -> Q;
  (** [ZL.fEZ0] *)
  fEZ0 : Q;
  (** [np.tan(WA) * TL.dist[sInd]] *)
  FA_smin : nat -> Q -> Q;
  (** [2 pi sqrt(sp^3 / (G (Mp + Ms)))] for the star's mass [Ms] *)
  orbital_period : nat -> Q -> Q -> Q;
  (** [OS.calc_intTime(TL, sInd, fZ(t), ZL.fEZ0, dMag, WA, mode)] *)
  calc_intTime : Mode -> nat -> Q -> Q -> Q -> Q
}.

(** Python exceptions that the modelled code can raise. *)
Inductive PyError :=
| NameError (name : string)
| ValueError
| AttributeError
| IndexError.

Inductive result (A : Type) :=
| Ok (a : A)
| Raise (e : PyError).
Arguments Ok {A} a.
Arguments Raise {A} e.

Definition bind {A B} (r : result A) (k : A -> result B) : result B :=
  match r with
  | Ok a => k a
  | Raise e => Raise e
  end.

Declare Scope py_scope.
Delimit Scope py_scope with py.
Notation "x <- r ;; k" := (bind r (fun x => k))
  (at level 61, r at next level, right associativity) : py_scope.
Notation "' p <- r ;; k" := (bind r (fun p => k))
  (at level 61, p pattern, r at next level, right associativity) : py_scope.

(** The occulter side of the observatory, as [update_occulter_mass]
    reads it. *)
Record Occulter := mkOcculter {
  thrust : Q;
  defburnPortion : Q;
  flowRate : Q;
  (** [2 arcsin(slewTime^2 / slewTime_fac)] in degrees, given the slew
      time and the acceleration [ao] *)
  slew_angle : Q -> Q -> Q;
  (** [Obs.distForces(TL, sInd, t)]: lateral and axial force *)
  distForces : nat -> Q -> Q * Q;
  (** [Obs.mass_dec(dF_lateral, t)]: [intMdot], mass used, delta-V *)
  mass_dec : Q -> Q -> Q * Q * Q
}.

(** A DRM dictionary, by insertion; [DRM[key] = v] replaces the entry of a
    key that is present. *)
Fixpoint dict_set (d : list (string * Q)) (key : string) (v : Q)
  : list (string * Q) :=
  match d with
  | [] => [(key, v)]
  | (k, x) :: d' =>
      if String.eqb k key then (k, v) :: d' else (k, x) :: dict_set d' key v
  end.

Fixpoint dict_get (d : list (string * Q)) (key : string) : option Q :=
  match d with
  | [] => None
  | (k, x) :: d' => if String.eqb k key then Some x else dict_get d' key
  end.

(** ** The survey simulation (SurveySimulation.py) *)

Section SurveySimulation.

Variable cfg : Config.
Variable env : Collaborators.
Variable clk : Clock.

(** [TK.allocate_time(dt)] written as a statement: the clock is left as
    the call leaves it and the returned boolean is dropped. *)
Definition allocate (dt : Q) (st : Sim) : Sim :=
  set_TK (snd (TK_allocate_time clk dt (TK st))) st.

(** *** next_target *)

(** [sInds = np.array(range(TL.nStars))] *)
Definition all_stars : list nat := seq 0 (nStars cfg).

(** Slew time to every star: zero without an occulter and, with one, when
    there is no previous target ([sd] is then zero for every star). *)
Definition slewTimes (old_sInd : option nat) (st : Sim) : list Q :=
  if haveOcculter (OS cfg) then
    match old_sInd with
    | None => np.zeros (nStars cfg)
    | Some o =>
        map (fun s => slew_time env o s
                        (TimeKeeping.currentTimeAbs (TK st)) (scMass st))
            all_stars
    end
  else np.zeros (nStars cfg).

(** [startTime = TK.currentTimeAbs + slewTime] *)
Definition startTimes (slewTime : list Q) (st : Sim) : list Q :=
  map (fun sl => TimeKeeping.currentTimeAbs (TK st) + sl) slewTime.

(** 1/ keepout at the start of the observation. *)
Definition filter_start (startTime : list Q) : list nat :=
  let kogoodStart :=
    map (fun s => keepout env s (nth s startTime 0)) all_stars in
  np.take all_stars (np.where_ kogoodStart).

(** The body of 2/: integration times of the candidates and the cutoff on
    the total time; returns [t_dets] and the new [sInds]. *)
Definition cutoff_body (mode : Mode) (startTime : list Q) (sInds : list nat)
  : list Q * list nat :=
  let t_dets :=
    np.scatter (np.zeros (nStars cfg)) sInds
      (map (fun s => calc_maxintTime env mode s (nth s startTime 0)) sInds) in
  let t_tot := map (fun t => t * timeMultiplier mode) t_dets in
  (t_dets,
   np.where_ (map (fun t => Qltb 0 t && Qltb t (intCutoff (OS cfg))) t_tot)).

(** 2/ under its guard [if np.any(sInds)]. *)
Definition filter_cutoff (mode : Mode) (startTime : list Q) (sInds : list nat)
  : list Q * list nat :=
  if np.any_nat sInds then cutoff_body mode startTime sInds
  else (np.zeros (nStars cfg), sInds).

(** The body of 3/: keepout at the end of the observation. *)
Definition end_body (startTime t_dets : list Q) (sInds : list nat)
  : list nat :=
  let endTime := map (fun s => nth s startTime 0 + nth s t_dets 0) sInds in
  let kogoodEnd :=
    map (fun se => keepout env (fst se) (snd se)) (combine sInds endTime) in
  np.take sInds (np.where_ kogoodEnd).

Definition filter_end (startTime t_dets : list Q) (sInds : list nat)
  : list nat :=
  if np.any_nat sInds then end_body startTime t_dets sInds else sInds.

(** [dt_max = 1.*u.week], in days. *)
Definition dt_max : Q := 7.

(** [ind_rev]: the stars of the revisit rows whose time lies less than
    [dt_max] from the current time and that are among [sInds]. *)
Definition ind_rev (st : Sim) (sInds : list nat) : list nat :=
  let dt_rev :=
    map (fun r => Qabs (snd r - TimeKeeping.currentTimeNorm (TK st)))
        (starRevisit st) in
  filter (fun x => np.mem x sInds)
    (map fst (np.select (starRevisit st)
                        (map (fun d => Qltb d dt_max) dt_rev))).

(** The array [tovisit] at the end of 4/. *)
Definition tovisit (st : Sim) (sInds : list nat) : list bool :=
  let visits := map (fun s => nth s (starVisits st) O) sInds in
  let tovisit0 :=
    np.scatter (repeat false (nStars cfg)) sInds
      (map (fun v => (v =? np.min_nat visits)%nat) visits) in
  match starRevisit st with
  | [] => tovisit0
  | _ :: _ => np.fill_idx tovisit0 (ind_rev st sInds) true
  end.

Definition filter_visits (st : Sim) (sInds : list nat) : list nat :=
  if np.any_nat sInds then np.where_ (tovisit st sInds) else sInds.

(** The candidates that reach 5/, with the integration times and the slew
    times of this pass. *)
Definition candidates (old_sInd : option nat) (mode : Mode) (st : Sim)
  : list Q * list Q * list nat :=
  let slewTime := slewTimes old_sInd st in
  let startTime := startTimes slewTime st in
  let sInds1 := filter_start startTime in
  let '(t_dets, sInds2) := filter_cutoff mode startTime sInds1 in
  let sInds3 := filter_end startTime t_dets sInds2 in
  let sInds4 := filter_visits st sInds3 in
  (slewTime, t_dets, sInds4).


(** [np.random.choice(a)]: the entry at a position drawn from the random
    source. *)
Definition random_choice (st : Sim) (a : list nat) : nat :=
  nth (random env (draws st) mod List.length a) a O.

(** 5/ the star of highest completeness among [sInds]. *)
Definition choose_best (st : Sim) (sInds : list nat) : nat :=
  let comp := np.take (comp0 cfg) sInds in
  let inds :=
    np.where_ (map (fun s => (0 <? nth s (starVisits st) O)%nat) sInds) in
  let comp' :=
    np.scatter comp inds
      (map (fun s => completeness_update env s
                       (TimeKeeping.currentTimeNorm (TK st)))
           (np.take sInds inds)) in
  let mask := np.where_ (map (fun c => Qeq_bool c (np.max 0 comp')) comp') in
  random_choice st (np.take sInds mask).

(** One pass of the [while] body: a target is found (the loop breaks), or
    [TK.dtAlloc] is allocated and the loop goes on. *)
Inductive attempt :=
| Found (st' : Sim) (sInd : nat) (t_det : Q) (slewTime : list Q)
| Retry (st' : Sim).

Definition next_target_pass (old_sInd : option nat) (mode : Mode) (st : Sim)
  : attempt :=
  let '(slewTime, t_dets, sInds) := candidates old_sInd mode st in
  if np.any_nat sInds then
    let sInd := choose_best st sInds in
    let visits := np.upd (starVisits st) sInd (nth sInd (starVisits st) O + 1)%nat in
    Found (set_draws (S (draws st)) (set_starVisits visits st))
          sInd (nth sInd t_dets 0) slewTime
  else Retry (allocate (TimeKeeping.dtAlloc (TK st)) st).

(** The [while not TK.mission_is_over()] loop, with its [else] branch.
    [None] when [fuel] passes were not enough; otherwise the state and
    either the found target with its integration time and the slew times,
    or [None] for "mission complete". *)
Fixpoint next_target_loop (fuel : nat) (old_sInd : option nat) (mode : Mode)
  (st : Sim) : option (Sim * option (nat * Q * list Q)) :=
  match fuel with
  | O => None
  | S fuel' =>
      if TK_mission_is_over clk (TK st) then Some (st, None)
      else
        match next_target_pass old_sInd mode st with
        | Found st' sInd t_det slewTime =>
            Some (st', Some (sInd, t_det, slewTime))
        | Retry st' => next_target_loop fuel' old_sInd mode st'
        end
  end.

(** [next_target(old_sInd, mode)]: [Some (st', Some (sInd, t_det,
    slewTime))] for a returned target, [Some (st', None)] for the return
    [None, None, None]. *)
Definition next_target (fuel : nat) (old_sInd : option nat) (mode : Mode)
  (st : Sim) : option (Sim * option (nat * Q * Q)) :=
  let st0 := allocate (settlingTime cfg + ohTime mode) st in
  match next_target_loop fuel old_sInd mode st0 with
  | None => None
  | Some (st1, None) => Some (st1, None)
  | Some (st1, Some (sInd, t_det, slewTime)) =>
      if haveOcculter (OS cfg) then
        let st2 := allocate (nth sInd slewTime 0) st1 in
        if TK_mission_is_over clk (TK st2) then Some (st2, None)
        else Some (st2, Some (sInd, t_det, nth sInd slewTime 0))
      else Some (st1, Some (sInd, t_det, nth sInd slewTime 0))
  end.

(** *** calc_signal_noise *)

(** [SU.propag_system(sInd, t)]: the planets of the star are recomputed
    for the time [t]; the others, and every planet's star and mass, stay. *)
Definition propag_system (sInd : nat) (t : Q) (su : list Planet)
  : list Planet :=
  map (fun ip =>
         if (plan2star (snd ip) =? sInd)%nat then
           mkPlanet (plan2star (snd ip)) (pl_Mp (snd ip))
                    (propag_planet env (fst ip) t (pl_dyn (snd ip)))
         else snd ip)
      (combine (seq 0 (List.length su)) su).

(** [calc_signal_noise(sInd, pInds, t_int, mode)]: signal and noise counts
    of the planets [pInds] over the interval [t_int], and the state after
    the two half allocations and the propagation. *)
Definition calc_signal_noise (sInd : nat) (pInds : list nat) (t_int : Q)
  (mode : Mode) (st : Sim) : list Q * list Q * Sim :=
  let st1 := allocate (t_int / 2) st in
  let st2 :=
    set_SU (propag_system sInd (TimeKeeping.currentTimeNorm (TK st1)) (SU st1))
           st1 in
  let counts :=
    map (fun p => Cp_Cb_Csp env mode sInd
                    (TimeKeeping.currentTimeAbs (TK st2))
                    (pl_fEZ (pl_dyn p)) (pl_dMag (pl_dyn p))
                    (pl_WA (pl_dyn p)))
        (np.take (SU st2) pInds) in
  let Signal := map (fun c => fst (fst c) * t_int) counts in
  let Noise :=
    map (fun c => sqrt env (snd (fst c) * t_int + (snd c * t_int) ^ 2))
        counts in
  let st3 := allocate (t_int / 2) st2 in
  (Signal, Noise, st3).

(** [for i in range(nt_flux): s, n = calc_signal_noise(..)]: the rows of
    [Signal] and [Noise], and the state after the last call. *)
Fixpoint integrate (n : nat) (sInd : nat) (pInds : list nat) (dt : Q)
  (mode : Mode) (st : Sim) : list (list Q) * list (list Q) * Sim :=
  match n with
  | O => ([], [], st)
  | S n' =>
      let '(s, nz, st1) := calc_signal_noise sInd pInds dt mode st in
      let '(Signal, Noise, st2) := integrate n' sInd pInds dt mode st1 in
      (s :: Signal, nz :: Noise, st2)
  end.

(** [SNR = Signal.sum(0) / Noise.sum(0)] after the loop over [nt_flux]
    sub-intervals of [t]. *)
Definition integrate_SNR (sInd : nat) (pInds : list nat) (t : Q)
  (mode : Mode) (st : Sim) : list Q * Sim :=
  let dt := t / inject_Z (Z.of_nat (nt_flux cfg)) in
  let '(Signal, Noise, st') := integrate (nt_flux cfg) sInd pInds dt mode st in
  (map (fun sn => fst sn / snd sn)
       (combine (np.sum0 (List.length pInds) Signal)
                (np.sum0 (List.length pInds) Noise)),
   st').

(** *** observation_detection *)

(** [pInds = np.where(SU.plan2star == sInd)[0]] *)
Definition planets_of (sInd : nat) (su : list Planet) : list nat :=
  np.where_ (map (fun p => (plan2star p =? sInd)%nat) su).

(** What the two stores into [observable] leave for a planet of working
    angle [w]. *)
Definition classify_one (w : Q) : Z :=
  if Qltb (OWA (OS cfg)) w then (-2)%Z
  else if Qltb w (IWA (OS cfg)) then (-1)%Z else 1%Z.

(** The array [observable]: 1, or -1 below [OS.IWA], or -2 beyond
    [OS.OWA] (the second store wins where both apply). *)
Definition classify (st : Sim) (pInds : list nat) : list Z :=
  let observable := repeat 1%Z (List.length pInds) in
  if np.any_Z observable then
    let WA := map (fun p => pl_WA (pl_dyn p)) (np.take (SU st) pInds) in
    let observable1 :=
      np.fill_mask observable (map (fun w => Qltb w (IWA (OS cfg))) WA) (-1)%Z in
    np.fill_mask observable1 (map (fun w => Qltb (OWA (OS cfg)) w) WA) (-2)%Z
  else observable.

(** [a[mask] = vals] as numpy does it: one value per selected entry, or a
    single value for all of them, or ValueError. *)
Definition setitem_mask (a : list Z) (mask : list bool) (vals : list Z)
  : result (list Z) :=
  if (List.length vals =? np.count_true mask)%nat then
    Ok (np.assign_mask a mask vals)
  else
    match vals with
    | [v] => Ok (np.fill_mask a mask v)
    | _ => Raise ValueError
    end.

(** The status array [detected] of line 507, from [observable] and the
    missed-detection mask: [detected[obs] = (~MD).astype(int)]. *)
Definition detection_status (observable : list Z) (MD : list bool)
  : result (list Z) :=
  let obs := map (fun o => (o =? 1)%Z) observable in
  if np.any_bool obs then
    setitem_mask observable obs (map (fun m => if negb m then 1%Z else 0%Z) MD)
  else Ok observable.

Definition Qminimum (x y : Q) : Q := if Qltb y x then y else x.

(** Lines 470-504 of [observation_detection]: the planets of the star,
    [observable], the signal-to-noise ratios, the answer [FA, MD] of the
    detection statistics, and the state after the allocations. *)
Definition detection_phase (sInd : nat) (t_det : Q) (mode : Mode) (st : Sim)
  : list nat * list Z * list Q * bool * list bool * Sim :=
  let pInds := planets_of sInd (SU st) in
  let observable := classify st pInds in
  let obs := map (fun o => (o =? 1)%Z) observable in
  let '(SNR, st1) :=
    if np.any_bool obs then
      let '(SNR, st') := integrate_SNR sInd (np.select pInds obs) t_det mode st in
      (SNR, allocate (t_det * (timeMultiplier mode - 1)) st')
    else ([], allocate (t_det * timeMultiplier mode) st) in
  let '(FA, MD) := det_occur env SNR in
  (pInds, observable, SNR, FA, MD, st1).

(** [observation_detection(sInd, t_det, mode)]: the returned
    [detected, SNR, FA] and the state after the call. *)
Definition observation_detection (sInd : nat) (t_det : Q) (mode : Mode)
  (st : Sim) : result (list Z * list Q * bool * Sim) :=
  let '(pInds, observable, SNR, FA, MD, st1) :=
    detection_phase sInd t_det mode st in
  (detected <- detection_status observable MD ;;
   let det := map (fun d => (d =? 1)%Z) detected in
   let sep_det := map (fun p => pl_s (pl_dyn p))
                      (np.take (SU st1) (np.select pInds det)) in
   let smin := if np.any_bool det then Some (np.min 0 sep_det) else None in
   let planets := np.take (SU st1) pInds in
   let snap :=
     mkSnap det (map (fun p => pl_fEZ (pl_dyn p)) planets)
            (map (fun p => pl_dMag (pl_dyn p)) planets)
            (map (fun p => pl_WA (pl_dyn p)) planets) in
   st2 <- (if (sInd <? List.length (lastDetected st1))%nat
           then Ok (set_lastDetected
                      (np.upd (lastDetected st1) sInd (Some snap)) st1)
           else Raise IndexError) ;;
   let '(smin', st3) :=
     if FA then
       let WA := FA_WA env sInd (draws st2) in
       let dMag := FA_dMag env WA (S (draws st2)) in
       let snapFA :=
         mkSnap (ld_det snap ++ [true]) (ld_fEZ snap ++ [fEZ0 env])
                (ld_dMag snap ++ [dMag]) (ld_WA snap ++ [WA]) in
       let sminFA := FA_smin env sInd WA in
       (Some (match smin with
              | Some m => Qminimum m sminFA
              | None => sminFA
              end),
        set_draws (S (S (draws st2)))
          (set_lastDetected (np.upd (lastDetected st2) sInd (Some snapFA)) st2))
     else (smin, st2) in
   let now := TimeKeeping.currentTimeNorm (TK st3) in
   t_rev <- match smin' with
            | Some sp =>
                match np.argmin sep_det with
                | None => Raise ValueError
                | Some k =>
                    match nth_error (np.take (SU st3) (np.select pInds det)) k with
                    | Some pl =>
                        Ok (now + orbital_period env sInd sp (pl_Mp pl) / 2)
                    | None => Raise IndexError
                    end
                end
            | None =>
                Ok (now + (3 # 4) * orbital_period env sInd
                                      (np.mean (map (fun p => pl_s (pl_dyn p)) (SU st3)))
                                      (np.mean (map pl_Mp (SU st3))))
            end ;;
   Ok (detected, SNR, FA,
       set_starRevisit (starRevisit st3 ++ [(sInd, t_rev)]) st3))%py.

(** *** observation_characterization *)

(** [characterized[det][tochar][cutoff][kogoodEnd]]: each subscript is an
    advanced index, so each step is a new object. *)
Definition char_chain (characterized : ndarray.ref) (det tochar : list bool)
  (cutoff : list nat) (kogoodEnd : list bool) : ndarray.M ndarray.ref :=
  (t1 <- ndarray.getitem_mask characterized det ;;
   t2 <- ndarray.getitem_mask t1 tochar ;;
   t3 <- ndarray.getitem_idx t2 cutoff ;;
   ndarray.getitem_mask t3 kogoodEnd)%nd.

(** Lines 600 and 679-686: [characterized = np.zeros(det.size)], the two
    stores [characterized[det][tochar][cutoff][kogoodEnd][char] = -1] and
    [characterized[det][tochar][cutoff][kogoodEnd][char][full] = 1], and
    the content of [characterized] afterwards. *)
Definition store_status (det tochar : list bool) (cutoff : list nat)
  (kogoodEnd char : list bool) (full : list nat) : list Z :=
  fst ((characterized <- ndarray.new (repeat 0%Z (List.length det)) ;;
        t <- char_chain characterized det tochar cutoff kogoodEnd ;;
        _ <- ndarray.setitem_mask t char (-1)%Z ;;
        t' <- char_chain characterized det tochar cutoff kogoodEnd ;;
        t'' <- ndarray.getitem_mask t' char ;;
        _ <- ndarray.setitem_idx t'' full 1%Z ;;
        ndarray.load characterized)%nd []).

(** The planet indices of the star, with [-1] appended after a false
    alarm ([FA = (det.size == pInds.size+1)]). *)
Definition char_pInds (sInd : nat) (det : list bool) (st : Sim) : list Z :=
  let pInds := map Z.of_nat (planets_of sInd (SU st)) in
  if (List.length det =? List.length pInds + 1)%nat then pInds ++ [(-1)%Z]
  else pInds.

(** The mask [tochar] over [pIndsDet]: last detected planets that have
    not been fully characterized. *)
Definition tochar_mask (FA : bool) (pIndsDet : list Z) (st : Sim)
  : list bool :=
  let not_full := map (fun v => negb (v =? 1)%Z) in
  if negb FA then not_full (take_py (fullSpectra st) pIndsDet)
  else if (1 <? List.length pIndsDet)%nat then
    not_full (take_py (fullSpectra st) (removelast pIndsDet)) ++ [true]
  else [true].

(** The planets that a characterization of [sInd] would consider:
    [pIndsDet[tochar]]. *)
Definition tochar_candidates (sInd : nat) (snap : Snapshot) (st : Sim)
  : list Z :=
  let det := ld_det snap in
  let pInds := char_pInds sInd det st in
  let FA := (List.length det =? List.length (planets_of sInd (SU st)) + 1)%nat in
  let pIndsDet := np.select pInds det in
  np.select pIndsDet (tochar_mask FA pIndsDet st).

(** [x[:-1] if x[-1] == -1 else x] *)
Definition strip_FA (x : list Z) : list Z :=
  if (last x 0%Z =? -1)%Z then removelast x else x.

(** Lines 688-695: the spectra counters after the status array. *)
Definition encode_spectra (pInds characterized : list Z) (st : Sim) : Sim :=
  let partial :=
    np.take pInds (np.where_ (map (fun c => (c =? -1)%Z) characterized)) in
  let st1 :=
    if np.any_Z partial
    then set_partialSpectra (incr_py (partialSpectra st) (strip_FA partial)) st
    else st in
  let full :=
    np.take pInds (np.where_ (map (fun c => (c =? 1)%Z) characterized)) in
  if np.any_Z full
  then set_fullSpectra (incr_py (fullSpectra st1) (strip_FA full)) st1
  else st1.

(** [observation_characterization(sInd, mode)]: the returned
    [characterized, SNR, t_char] and the state after the call. *)
Definition observation_characterization (sInd : nat) (mode : Mode) (st : Sim)
  : result (list Z * list Q * Q * Sim) :=
  (snap <- match nth_error (lastDetected st) sInd with
           | Some (Some snap) => Ok snap
           | Some None => Raise AttributeError
           | None => Raise IndexError
           end ;;
   let det := ld_det snap in
   let FA := (List.length det =? List.length (planets_of sInd (SU st)) + 1)%nat in
   let pInds := char_pInds sInd det st in
   let characterized := repeat 0%Z (List.length det) in
   if negb (np.any_Z pInds) then Ok (characterized, [], 0, st)
   else
     let pIndsDet := np.select pInds det in
     let tochar := tochar_mask FA pIndsDet st in
     let startTime := TimeKeeping.currentTimeAbs (TK st) in
     let kogoodStart := keepout env sInd startTime in
     if kogoodStart && np.any_bool tochar then
       let st1 :=
         set_SU (propag_system sInd (TimeKeeping.currentTimeNorm (TK st)) (SU st))
                st in
       let dMag := np.select (np.select (ld_fEZ snap) det) tochar in
       let WA := np.select (np.select (ld_dMag snap) det) tochar in
       let t_chars :=
         map (fun dw => calc_intTime env mode sInd startTime (fst dw) (snd dw))
             (combine dMag WA) in
       let t_tots := map (fun t => t * timeMultiplier mode) t_chars in
       let cutoff :=
         np.where_ (map (fun t => Qltb t (intCutoff (OS cfg))) t_tots) in
       let endTime := map (fun t => startTime + t) (np.take t_tots cutoff) in
       let kogoodEnd := map (fun t => keepout env sInd t) endTime in
       if np.any_bool kogoodEnd then
         let t_char := np.max 0 (np.select (np.take t_chars cutoff) kogoodEnd) in
         let pIndsChar :=
           np.select (np.take (tochar_candidates sInd snap st) cutoff) kogoodEnd in
         let planinds := strip_FA pIndsChar in
         let '(SNR0, st2) :=
           integrate_SNR sInd (map Z.to_nat planinds) t_char mode st1 in
         let st3 := allocate (t_char * (timeMultiplier mode - 1)) st2 in
         let SNR_FA :=
           if (last pIndsChar 0%Z =? -1)%Z then
             let c := Cp_Cb_Csp env mode sInd startTime
                        (last (ld_fEZ snap) 0) (last (ld_dMag snap) 0)
                        (last (ld_WA snap) 0) in
             [fst (fst c) * t_char
              / sqrt env (snd (fst c) * t_char + (snd c * t_char) ^ 2)]
           else [] in
         let SNR := SNR0 ++ SNR_FA in
         if np.any_Q SNR then
           let char := map (fun x => Qltb (mode_SNR mode) x) SNR in
           if np.any_bool char then
             let WAchar :=
               np.select
                 (np.select
                    (np.take (np.select (np.select (ld_WA snap) det) tochar) cutoff)
                    kogoodEnd)
                 char in
             let IWA_max := IWA (OS cfg) * (1 + BW mode / 2) in
             let OWA_min := OWA (OS cfg) * (1 - BW mode / 2) in
             let full :=
               np.where_ (map (fun w => Qltb IWA_max w && Qltb w OWA_min) WAchar) in
             let characterized' :=
               store_status det tochar cutoff kogoodEnd char full in
             Ok (characterized', SNR, t_char,
                 encode_spectra pInds characterized' st3)
           else Ok (characterized, SNR, t_char, st3)
         else Ok (characterized, SNR, t_char, st3)
       else Ok (characterized, [], 0, st1)
     else Ok (characterized, [], 0, st))%py.

(** *** update_occulter_mass *)

(** The body of [update_occulter_mass(DRM, slewTime, t_det, t_char,
    detBegin, charBegin)], given what loading the names [sInd] and
    [mass_used_char] yields where the body reads them. *)
Definition update_occulter_mass_body (sInd_ : result nat)
  (mass_used_char_ : result Q) (occ : Occulter) (DRM : list (string * Q))
  (slewTime t_det t_char detBegin charBegin : Q) (st : Sim)
  : result (list (string * Q) * Sim) :=
  (let DRM := dict_set DRM "slew_time" slewTime in
   let ao := thrust occ / scMass st in
   let DRM := dict_set DRM "slew_angle" (slew_angle occ slewTime ao) in
   let slew_mass_used := slewTime * defburnPortion occ * flowRate occ in
   let DRM := dict_set DRM "slew_dV" (slewTime * ao * defburnPortion occ) in
   let DRM := dict_set DRM "slew_mass_used" slew_mass_used in
   sInd <- sInd_ ;;
   let dF_lateral := fst (distForces occ sInd detBegin) in
   let '(_, det_mass_used, det_deltaV) := mass_dec occ dF_lateral t_det in
   let DRM := dict_set DRM "det_dV" det_deltaV in
   let DRM := dict_set DRM "det_mass_used" det_mass_used in
   let st := set_scMass (scMass st - (slew_mass_used + det_mass_used)) st in
   let DRM := dict_set DRM "det_scMass" (scMass st) in
   sInd <- sInd_ ;;
   let dF_lateral := fst (distForces occ sInd charBegin) in
   let '(intMdot, _, _) := mass_dec occ dF_lateral t_char in
   let char_deltaV := dF_lateral / scMass st * t_char in
   let char_mass_used := intMdot * t_char in
   let DRM := dict_set DRM "char_dV" char_deltaV in
   let DRM := dict_set DRM "char_mass_used" char_mass_used in
   mass_used_char <- mass_used_char_ ;;
   let st := set_scMass (scMass st - mass_used_char) st in
   let DRM := dict_set DRM "char_scMass" (scMass st) in
   Ok (DRM, st))%py.

(** [update_occulter_mass]: [sInd] and [mass_used_char] are neither
    parameters nor locals of the function, and the module binds neither
    name; loading either raises NameError. *)
Definition update_occulter_mass :=
  update_occulter_mass_body (Raise (NameError "sInd"))
                            (Raise (NameError "mass_used_char")).

(** *** run_sim *)

(** The bookkeeping arrays as [run_sim] initializes them (lines 202-208),
    for a universe, a clock and a wet mass. *)
Definition run_sim_init (tk : TimeKeeping.t) (su : list Planet) (m : Q)
  : Sim :=
  {| TK := tk; SU := su; scMass := m;
     starVisits := repeat O (nStars cfg);
     starRevisit := [];
     lastDetected := repeat None (nStars cfg);
     fullSpectra := repeat 0%Z (List.length su);
     partialSpectra := repeat 0%Z (List.length su);
     draws := O |}.

(** One operation of the loop of [run_sim] on the state: the selection of
    a target, its detection observation, its characterization. *)
Inductive sim_op : Sim -> Sim -> Prop :=
| op_next_target fuel old_sInd mode st st' r :
    next_target fuel old_sInd mode st = Some (st', r) ->
    sim_op st st'
| op_detection sInd t_det mode st detected SNR FA st' :
    observation_detection sInd t_det mode st = Ok (detected, SNR, FA, st') ->
    sim_op st st'
| op_characterization sInd mode st characterized SNR t_char st' :
    observation_characterization sInd mode st
      = Ok (characterized, SNR, t_char, st') ->
    sim_op st st'.

(** The states of a run: from the initialization, by the operations. *)
Inductive reachable (st0 : Sim) : Sim -> Prop :=
| reach_init : reachable st0 st0
| reach_op st st' : reachable st0 st -> sim_op st st' -> reachable st0 st'.

End SurveySimulation.

(** ** Invariant of the spectra counters *)

(** What every state of a run satisfies: there is one full-spectrum
    counter per planet, each counter is 0 or 1, and a row of
    [lastDetected] has one flag per planet of its star, or one more, the
    last one true, after a false alarm. *)
Definition spectra_inv (st : Sim) : Prop :=
  List.length (fullSpectra st) = List.length (SU st)
  /\ Forall (fun c => (0 <= c <= 1)%Z) (fullSpectra st)
  /\ forall sInd snap,
       nth_error (lastDetected st) sInd = Some (Some snap) ->
       List.length (ld_det snap) = List.length (planets_of sInd (SU st))
       \/ (List.length (ld_det snap) = S (List.length (planets_of sInd (SU st)))
           /\ last (ld_det snap) false = true).

(** What the operations leave alone: the full-spectrum counters, the star
    of every planet, and (but for a detection) the rows of
    [lastDetected]. *)
Definition ledger_frame (st st' : Sim) : Prop :=
  fullSpectra st' = fullSpectra st
  /\ map plan2star (SU st') = map plan2star (SU st)
  /\ lastDetected st' = lastDetected st.

(** ** Fixtures: a small mission *)

Module Fixture.

(** The clock of scenario 5a of [test_allocate_time]: a mission of 10
    days with a fifth of it for observation, one block ending at day 10,
    one day elapsed and one day charged; [missionStart] is MJD 60634. *)
Definition tk_5a : TimeKeeping.t :=
  TimeKeeping.mk 60635 1 1 10 (1 # 5) [0] [10] 0 1.

(** The clock of scenario 6a of [test_allocate_time]. *)
Definition tk_6a : TimeKeeping.t :=
  TimeKeeping.mk 60634 0 0 20 1 [0] [20] 0 1.

(** The clock of [test_mission_is_over] at its start: a life of a tenth
    of a year (36.525 days), all of it for observation. *)
Definition tk_life : TimeKeeping.t :=
  TimeKeeping.mk 60634 0 0 (36525 # 1000) 1 [0] [36525 # 1000] 0 1.

(** Scenario 4 of [test_mission_is_over]: one block ending at day 10, the
    clock one day past it. *)
Definition tk_pastOB : TimeKeeping.t :=
  TimeKeeping.mk 60645 11 0 (36525 # 1000) 1 [0] [10] 0 1.

(** A mission clock for the simulation: 100 days, one block. *)
Definition tk0 : TimeKeeping.t :=
  TimeKeeping.mk 60634 0 0 100 1 [0] [100] 0 1.

(** The same clock nine days into a block that ends at day 10. *)
Definition tk_lateOB : TimeKeeping.t :=
  TimeKeeping.mk 60643 9 9 100 1 [0; 20] [10; 30] 0 1.

Definition detMode : Mode := mkMode 1 5 (1 # 5) 0.
Definition charMode : Mode := mkMode 1 10 (1 # 5) 0.

(** Three stars; working-angle limits 100 and 1000 mas, cutoff 50 days. *)
Definition cfg0 : Config :=
  mkConfig (mkOS false 100 1000 50) [1 # 10; 1 # 5; 3 # 10] 0 1.

(** The same with two days of settling time. *)
Definition cfg_settle : Config :=
  mkConfig (mkOS false 100 1000 50) [1 # 10; 1 # 5; 3 # 10] 2 1.

(** Collaborators with constant answers: every star is out of keepout,
    needs five days of integration, has updated completeness 1/2; photon
    counts are [C_p = 20], [C_b = 1/5], [C_sp = 0] per day; a detection is
    missed when its signal-to-noise is below 5; no false alarm.  [sqrt]
    is exact on 0 and 1, its only arguments here. *)
Definition env0 : Collaborators :=
  {| keepout := fun _ _ => true;
     slew_time := fun _ _ _ _ => 0;
     calc_maxintTime := fun _ _ _ => 5;
     completeness_update := fun _ _ => 1 # 2;
     random := fun _ => O;
     propag_planet := fun _ _ d => d;
     Cp_Cb_Csp := fun _ _ _ _ _ _ => (20, 1 # 5, 0);
     sqrt := fun x => x;
     det_occur := fun SNR => (false, map (fun x => Qltb x 5) SNR);
     FA_WA := fun _ _ => 200;
     FA_dMag := fun _ _ => 20;
     fEZ0 := 1;
     FA_smin := fun _ _ => 1;
     orbital_period := fun _ _ _ => 200;
     calc_intTime := fun _ _ _ _ _ => 5 |}.


(** Planets: planet 0 and 1 around star 1 (working angles 50 and 500
    mas), planet 2 around star 2 (2000 mas), planet 3 around star 0. *)
Definition su0 : list Planet :=
  [ mkPlanet 1 1 (mkDyn 50 20 1 1);
    mkPlanet 1 1 (mkDyn 500 20 1 2);
    mkPlanet 2 1 (mkDyn 2000 20 1 3);
    mkPlanet 0 1 (mkDyn 300 20 1 1) ].

(** The state at the start of a run. *)
Definition st0 : Sim := run_sim_init cfg0 tk0 su0 1000.

(** Every star visited once; star 1 is due for a revisit at day 100. *)
Definition st_revisit : Sim :=
  set_starRevisit [(1%nat, 100)] (set_starVisits [1; 1; 1]%nat st0).

(** The start of a run nine days into the first block. *)
Definition st_lateOB : Sim := run_sim_init cfg_settle tk_lateOB su0 1000.

(** Star 1 after a detection of its planet 1. *)
Definition st_detected : Sim :=
  set_lastDetected
    [None; Some (mkSnap [false; true] [1; 1] [20; 20] [50; 500]); None] st0.

(** The same once planet 1 has its full spectrum. *)
Definition st_full : Sim := set_fullSpectra [0; 1; 0; 0]%Z st_detected.

(** A clock that changes state as the clock of the spec does and reports
    success whatever happened. *)
Definition clock_reporting_success : Clock :=
  {| TK_allocate_time :=
       fun dt tk => (true, snd (TimeKeeping.allocate_time dt true tk));
     TK_mission_is_over := TimeKeeping.mission_is_over |}.

Definition occ0 : Occulter :=
  {| thrust := 1; defburnPortion := 1 # 20; flowRate := 1;
     slew_angle := fun _ _ => 0;
     distForces := fun _ _ => (1, 1);
     mass_dec := fun _ t => (1 # 100, t * (1 # 100), 1) |}.

End Fixture.

(** ** The mission driver (run_sim) *)

(** An entry of [OS.observingModes]: the mode with its [detectionMode]
    flag and the name of its instrument, [mode['inst']['name']]. *)
Record ObservingMode := mkObsMode {
  om_mode : Mode;
  detectionMode : bool;
  inst_name : string
}.

(** ['spec' in mode['inst']['name']] *)
Definition is_spectro (m : ObservingMode) : bool :=
  match String.index 0 "spec" (inst_name m) with
  | Some _ => true
  | None => false
  end.

(** The detection mode (first mode flagged for detection) and the
    characterization mode (first spectro mode, else first mode) of lines
    215-223; the subscript [[0]] of an empty list raises IndexError. *)
Definition select_modes (modes : list ObservingMode) : result (Mode * Mode) :=
  match filter detectionMode modes with
  | [] => Raise IndexError
  | detMode :: _ =>
      match filter is_spectro modes with
      | charMode :: _ => Ok (om_mode detMode, om_mode charMode)
      | [] =>
          match modes with
          | charMode :: _ => Ok (om_mode detMode, om_mode charMode)
          | [] => Raise IndexError
          end
      end
  end.

(** A record of the DRM, with the keys that [run_sim] sets; the three
    false-alarm keys are present after a false alarm only;
    [occulter_keys] holds what [update_occulter_mass] adds. *)
Record DRMrecord := mkDRM {
  star_ind : nat;
  arrival_time : Q;
  plan_inds : list nat;
  int_time_det : Q;
  plan_detected : list Z;
  plan_det_fEZ : list Q;
  plan_det_dMag : list Q;
  plan_det_WA : list Q;
  SNR_det : list Q;
  FA_fEZ_dMag_WA : option (Q * Q * Q);
  int_time_char : Q;
  plan_characterized : list Z;
  plan_char_fEZ : list Q;
  plan_char_dMag : list Q;
  plan_char_WA : list Q;
  SNR_char : list Q;
  charModes : Mode;
  occulter_keys : list (string * Q)
}.

(** The simulation object during [run_sim]: the state of the
    operations, the list [self.DRM], [self.starTimes] and
    [self.starExtended]. *)
Record Run := mkRun {
  sim : Sim;
  DRM : list DRMrecord;
  starTimes : list Q;
  starExtended : list nat
}.

(** Insertion into an ascending list without repetition. *)
Fixpoint insert_unique (x : nat) (l : list nat) : list nat :=
  match l with
  | [] => [x]
  | y :: l' =>
      if (x <? y)%nat then x :: l
      else if (x =? y)%nat then l
      else y :: insert_unique x l'
  end.

(** [np.unique]: the distinct entries, ascending. *)
Definition np_unique (l : list nat) : list nat :=
  fold_right insert_unique [] l.

(** [a[-1]] *)
Definition py_last (a : list Q) : result Q :=
  match a with
  | [] => Raise IndexError
  | _ :: _ => Ok (last a 0)
  end.

Section Driver.

Variable cfg : Config.
Variable env : Collaborators.
Variable clk : Clock.

(** Lines 233-238: once the mission life is exceeded and while the
    extended list is empty, the stars of the records with a detection
    are gathered. *)
Definition build_extended (tk : TimeKeeping.t) (drm : list DRMrecord)
  (ext : list nat) : list nat :=
  if Qltb (TimeKeeping.missionLife tk) (TimeKeeping.currentTimeNorm tk)
     && (List.length ext =? 0)%nat
  then
    fold_left
      (fun e rec =>
         if existsb (fun x => (x =? 1)%Z) (plan_detected rec)
         then np_unique (e ++ [star_ind rec])
         else e)
      drm ext
  else ext.

(** Lines 240-293: the body of the loop for a target [sInd] that
    [next_target] returned in the state [st1].  The result is the
    simulation object after the record has been appended, and whether
    the loop breaks for lack of fuel. *)
Definition observe (occ : Occulter) (dryMass : Q) (detMode charMode : Mode)
  (sInd : nat) (t_det slewTime : Q) (st1 : Sim) (r : Run)
  : result (Run * bool) :=
  (let ext := build_extended (TK st1) (DRM r) (starExtended r) in
   let arrival := TimeKeeping.currentTimeNorm (TK st1) in
   let pInds := planets_of sInd (SU st1) in
   let detBegin := TimeKeeping.currentTimeNorm (TK st1) in
   '(detected, detSNR, FA, st2) <-
     observation_detection cfg env clk sInd t_det detMode st1 ;;
   let planets := np.take (SU st2) pInds in
   fa <- (if FA then
            match nth_error (lastDetected st2) sInd with
            | Some (Some snap) =>
                f <- py_last (ld_fEZ snap) ;;
                d <- py_last (ld_dMag snap) ;;
                w <- py_last (ld_WA snap) ;;
                Ok (Some (f, d, w))
            | Some None => Raise AttributeError
            | None => Raise IndexError
            end
          else Ok None) ;;
   let charBegin := TimeKeeping.currentTimeNorm (TK st2) in
   '(characterized, charSNR, t_char, st3) <-
     observation_characterization cfg env clk sInd charMode st2 ;;
   let planets' := np.take (SU st3) pInds in
   let record keys :=
     mkDRM sInd arrival pInds t_det detected
           (map (fun p => pl_fEZ (pl_dyn p)) planets)
           (map (fun p => pl_dMag (pl_dyn p)) planets)
           (map (fun p => pl_WA (pl_dyn p)) planets)
           detSNR fa t_char characterized
           (map (fun p => pl_fEZ (pl_dyn p)) planets')
           (map (fun p => pl_dMag (pl_dyn p)) planets')
           (map (fun p => pl_WA (pl_dyn p)) planets')
           charSNR charMode keys in
   '(keys, st4) <-
     (if haveOcculter (OS cfg) then
        update_occulter_mass occ
          [("star_ind", inject_Z (Z.of_nat sInd)); ("arrival_time", arrival);
           ("int_time_det", t_det); ("int_time_char", t_char)]%string
          slewTime t_det t_char detBegin charBegin st3
      else Ok ([], st3)) ;;
   times <- (if (sInd <? List.length (starTimes r))%nat
             then Ok (np.upd (starTimes r) sInd
                             (TimeKeeping.currentTimeNorm (TK st4)))
             else Raise IndexError) ;;
   Ok (mkRun st4 (DRM r ++ [record keys]) times ext,
       haveOcculter (OS cfg) && Qltb (scMass st4) dryMass))%py.

(** The loop [while not TK.mission_is_over()] of [run_sim]: at most
    [cycles] passes, each call of [next_target] with [fuel] passes of its
    own; [None] when either runs out. *)
Fixpoint run_sim_loop (cycles fuel : nat) (occ : Occulter) (dryMass : Q)
  (detMode charMode : Mode) (sInd : option nat) (r : Run)
  : option (result Run) :=
  match cycles with
  | O => None
  | S cycles' =>
      if TK_mission_is_over clk (TK (sim r)) then Some (Ok r)
      else
        match next_target cfg env clk fuel sInd detMode (sim r) with
        | None => None
        | Some (st1, None) =>
            run_sim_loop cycles' fuel occ dryMass detMode charMode None
              (mkRun st1 (DRM r) (starTimes r) (starExtended r))
        | Some (st1, Some (s, t_det, slewTime)) =>
            match observe occ dryMass detMode charMode s t_det slewTime st1 r with
            | Raise e => Some (Raise e)
            | Ok (r', true) => Some (Ok r')
            | Ok (r', false) =>
                run_sim_loop cycles' fuel occ dryMass detMode charMode (Some s) r'
            end
        end
  end.

(** [run_sim()] on an object whose clock, universe and wet mass are
    [tk], [su] and [m] and whose DRM so far is [drm]. *)
Definition run_sim (cycles fuel : nat) (modes : list ObservingMode)
  (occ : Occulter) (dryMass : Q) (tk : TimeKeeping.t) (su : list Planet)
  (m : Q) (drm : list DRMrecord) : option (result Run) :=
  match select_modes modes with
  | Raise e => Some (Raise e)
  | Ok (detMode, charMode) =>
      run_sim_loop cycles fuel occ dryMass detMode charMode None
        (mkRun (run_sim_init cfg tk su m) drm (np.zeros (nStars cfg)) [])
  end.

End Driver.

(** What [calc_signal_noise] and the allocations leave alone: all of the
    state but the clock and the planets' positions. *)
Definition books_frame (st st' : Sim) : Prop :=
  starVisits st' = starVisits st
  /\ starRevisit st' = starRevisit st
  /\ lastDetected st' = lastDetected st
  /\ fullSpectra st' = fullSpectra st
  /\ partialSpectra st' = partialSpectra st
  /\ scMass st' = scMass st
  /\ draws st' = draws st
  /\ map plan2star (SU st') = map plan2star (SU st).

(** ** The calls of allocate_time *)

(** The clock after the calls [TK.allocate_time(dt)] for the intervals
    [dts], in order. *)
Definition allocate_all (clk : Clock) (dts : list Q) (tk : TimeKeeping.t)
  : TimeKeeping.t :=
  fold_left (fun tk dt => snd (TK_allocate_time clk dt tk)) dts tk.

(** The time asked for by the calls. *)
Definition charged (dts : list Q) : Q := fold_right Qplus 0 dts.

(** The intervals that an integration of [t] asks for (lines 483-493 and
    645-655): [n] sub-intervals of [t/n], each in two halves by
    [calc_signal_noise], then the extra time [t*(timeMultiplier - 1)]. *)
Definition integration_slots (n : nat) (t timeMultiplier : Q) : list Q :=
  let dt := t / inject_Z (Z.of_nat n) in
  concat (repeat [dt / 2; dt / 2] n) ++ [t * (timeMultiplier - 1)].

(** ** Background sources (BackgroundSources.py) *)

Module BackgroundSources.

(** The arguments of [dNbackground], as far as the checks tell them
    apart: a tuple or list of [n] entries, an ndarray or a SkyCoord of a
    given shape, another object with a length (a str, dict or set of [n]
    entries), an object without one (a number, [None]). *)
Inductive arg :=
| Sequence (n : nat)
| NdArray (shape : list nat)
| SkyCoord (shape : list nat)
| Sized (n : nat)
| Other.

Inductive error :=
| AssertionError (msg : string)
| TypeError.

(** [isinstance(a, (tuple, list, np.ndarray))] *)
Definition is_array_like (a : arg) : bool :=
  match a with
  | Sequence _ | NdArray _ => true
  | SkyCoord _ | Sized _ | Other => false
  end.

(** [len(a)]: the number of entries, the first dimension of an array;
    TypeError for an array of dimension zero and for an object without
    length. *)
Definition len (a : arg) : option nat :=
  match a with
  | Sequence n | Sized n => Some n
  | NdArray (n :: _) | SkyCoord (n :: _) => Some n
  | NdArray [] | SkyCoord [] | Other => None
  end.

(** [dNbackground(coords, intDepths)]: the number densities, or the
    exception raised. *)
Definition dNbackground (coords intDepths : arg) : list Q + error :=
  if negb (is_array_like intDepths) then
    inr (AssertionError "intDepths is not array-like.")
  else if match coords with
          | SkyCoord [] => true
          | SkyCoord (_ :: _) => false
          | _ => negb (is_array_like coords)
          end
  then inr (AssertionError "coords is not array-like.")
  else
    match len coords with
    | None => inr TypeError
    | Some nc =>
        match len intDepths with
        | None => inr TypeError
        | Some nd =>
            if (nc =? nd)%nat then inl (np.zeros nd)
            else inr (AssertionError "Input size mismatch.")
        end
    end.

End BackgroundSources.

(** ** More fixtures *)

Module Scenario.

(** Collaborators for which no star is ever out of keepout. *)
Definition env_dark : Collaborators :=
  {| keepout := fun _ _ => false;
     slew_time := slew_time Fixture.env0;
     calc_maxintTime := calc_maxintTime Fixture.env0;
     completeness_update := completeness_update Fixture.env0;
     random := random Fixture.env0;
     propag_planet := propag_planet Fixture.env0;
     Cp_Cb_Csp := Cp_Cb_Csp Fixture.env0;
     sqrt := sqrt Fixture.env0;
     det_occur := det_occur Fixture.env0;
     FA_WA := FA_WA Fixture.env0;
     FA_dMag := FA_dMag Fixture.env0;
     fEZ0 := fEZ0 Fixture.env0;
     FA_smin := FA_smin Fixture.env0;
     orbital_period := orbital_period Fixture.env0;
     calc_intTime := calc_intTime Fixture.env0 |}.

(** Collaborators whose detection statistics always raise a false
    alarm. *)
Definition env_alarm : Collaborators :=
  {| keepout := keepout Fixture.env0;
     slew_time := slew_time Fixture.env0;
     calc_maxintTime := calc_maxintTime Fixture.env0;
     completeness_update := completeness_update Fixture.env0;
     random := random Fixture.env0;
     propag_planet := propag_planet Fixture.env0;
     Cp_Cb_Csp := Cp_Cb_Csp Fixture.env0;
     sqrt := sqrt Fixture.env0;
     det_occur := fun SNR => (true, map (fun x => Qltb x 5) SNR);
     FA_WA := FA_WA Fixture.env0;
     FA_dMag := FA_dMag Fixture.env0;
     fEZ0 := fEZ0 Fixture.env0;
     FA_smin := FA_smin Fixture.env0;
     orbital_period := orbital_period Fixture.env0;
     calc_intTime := calc_intTime Fixture.env0 |}.

(** A clock half a day before the end of its only block, with a retry
    interval of one day. *)
Definition tk_stuck : TimeKeeping.t :=
  TimeKeeping.mk (60634 + (19 # 2)) (19 # 2) 0 100 1 [0] [10] 0 1.

Definition st_stuck : Sim := run_sim_init Fixture.cfg0 tk_stuck Fixture.su0 1000.

(** The fixture with an occulter. *)
Definition cfg_occulter : Config :=
  mkConfig (mkOS true 100 1000 50) [1 # 10; 1 # 5; 3 # 10] 0 1.

(** A short mission: twelve days, in one block. *)
Definition tk_short : TimeKeeping.t :=
  TimeKeeping.mk 60634 0 0 12 1 [0] [12] 0 1.

Definition modes0 : list ObservingMode :=
  [ mkObsMode Fixture.detMode true "imager";
    mkObsMode Fixture.charMode false "spectro" ].

(** A universe of one planet, planet 0, around star 1 at 500 mas, and
    the state after its detection. *)
Definition su_single : list Planet := [ mkPlanet 1 1 (mkDyn 500 20 1 2) ].

Definition st_single : Sim :=
  set_lastDetected [None; Some (mkSnap [true] [1] [20] [500]); None]
    (run_sim_init Fixture.cfg0 Fixture.tk0 su_single 1000).



(** A clock that grants every allocation. *)
Definition clock_open : Clock :=
  {| TK_allocate_time := fun dt tk => (true, TimeKeeping.advance dt true tk);
     TK_mission_is_over := TimeKeeping.mission_is_over |}.

End Scenario.

(** * Properties *)

(** ** Rational comparisons *)

Lemma Qltb_lt (x y : Q) : Qltb x y = true <-> x < y.
Proof.
  unfold Qltb. rewrite negb_true_iff. split.
  - intros H. apply Qnot_le_lt. intros Hle.
    apply Qle_bool_iff in Hle. congruence.
  - intros H. destruct (Qle_bool y x) eqn:E; [|reflexivity].
    apply Qle_bool_iff in E. exfalso. exact (Qlt_not_le _ _ H E).
Qed.

Lemma Qltb_ge (x y : Q) : Qltb x y = false <-> y <= x.
Proof.
  unfold Qltb. rewrite negb_false_iff. apply Qle_bool_iff.
Qed.

Lemma Qle_bool_false (x y : Q) : Qle_bool x y = false <-> y < x.
Proof.
  rewrite <- Qltb_lt. unfold Qltb. rewrite negb_true_iff. tauto.
Qed.

(** ** The mission clock *)

Section ClockProperties.

Import TimeKeeping.

(** An invalid allocation takes the failure exit. *)
Lemma allocate_time_invalid dt charge tk :
  invalid_allocation dt charge tk -> allocate_time dt charge tk = (false, tk).
Proof.
  intros Hinv. unfold allocate_time.
  destruct (Qle_bool dt 0) eqn:Hdt; [reflexivity|].
  destruct (Qltb (missionLife tk) (currentTimeNorm tk + dt)) eqn:Hlife;
    [reflexivity|].
  destruct (past_current_OB (currentTimeNorm tk + dt) tk) eqn:HOB;
    [reflexivity|].
  destruct (charge && Qltb (missionLife tk * missionPortion tk)
                           (exoplanetObsTime tk + dt)) eqn:Hobs;
    [reflexivity|].
  exfalso.
  destruct Hinv as [H | [H | [[e [He H]] | [Hc H]]]].
  - apply Qle_bool_iff in H. congruence.
  - apply Qltb_lt in H. congruence.
  - unfold past_current_OB in HOB. rewrite He in HOB.
    apply Qltb_lt in H. congruence.
  - subst charge. apply Qltb_lt in H. simpl in Hobs. congruence.
Qed.

(** Conversely, the failure exit is taken only by an invalid allocation. *)
Lemma allocate_time_false dt charge tk :
  fst (allocate_time dt charge tk) = false -> invalid_allocation dt charge tk.
Proof.
  unfold allocate_time, invalid_allocation.
  destruct (Qle_bool dt 0) eqn:Hdt.
  { intros _. left. now apply Qle_bool_iff. }
  destruct (Qltb (missionLife tk) (currentTimeNorm tk + dt)) eqn:Hlife.
  { intros _. right; left. now apply Qltb_lt. }
  destruct (past_current_OB (currentTimeNorm tk + dt) tk) eqn:HOB.
  { intros _. right; right; left. unfold past_current_OB in HOB.
    destruct (currentOBend tk) as [e|]; [|discriminate].
    exists e. split; [reflexivity | now apply Qltb_lt]. }
  destruct charge; simpl.
  - destruct (Qltb (missionLife tk * missionPortion tk)
                   (exoplanetObsTime tk + dt)) eqn:Hobs; [|discriminate].
    intros _. right; right; right. split; [reflexivity | now apply Qltb_lt].
  - discriminate.
Qed.

(** A successful allocation advances both times by [dt], and the
    observation time by [dt] exactly when it is charged. *)
Lemma allocate_time_true dt charge tk :
  fst (allocate_time dt charge tk) = true ->
  snd (allocate_time dt charge tk) = advance dt charge tk.
Proof.
  unfold allocate_time.
  repeat match goal with
         | |- context [if ?c then _ else _] => destruct c
         end; simpl; congruence.
Qed.

(** C1.  [allocate_time] is all-or-nothing: when the allocation is invalid
    (non-positive duration, or past the mission life, or past the end of
    the current observing block, or, when charged, past the observation
    budget), the call returns false and the clock after the call is the
    clock before it; in particular [currentTimeAbs], [currentTimeNorm] and
    [exoplanetObsTime] are unchanged. *)
Theorem allocate_time_all_or_nothing dt charge tk :
  invalid_allocation dt charge tk ->
  fst (allocate_time dt charge tk) = false
  /\ currentTimeAbs (snd (allocate_time dt charge tk)) = currentTimeAbs tk
  /\ currentTimeNorm (snd (allocate_time dt charge tk)) = currentTimeNorm tk
  /\ exoplanetObsTime (snd (allocate_time dt charge tk)) = exoplanetObsTime tk
  /\ snd (allocate_time dt charge tk) = tk.
Proof.
  intros Hinv. rewrite (allocate_time_invalid _ _ _ Hinv). simpl.
  repeat split; reflexivity.
Qed.

(** Scenario 5a of [test_allocate_time]: two more charged days would pass
    the budget of two days. *)
Lemma allocate_time_all_or_nothing_witness :
  invalid_allocation 2 true Fixture.tk_5a
  /\ fst (allocate_time 2 true Fixture.tk_5a) = false
  /\ snd (allocate_time 2 true Fixture.tk_5a) = Fixture.tk_5a.
Proof.
  assert (Hinv : invalid_allocation 2 true Fixture.tk_5a).
  { right; right; right. split; [reflexivity|]. vm_compute. reflexivity. }
  destruct (allocate_time_all_or_nothing 2 true Fixture.tk_5a Hinv)
    as [Hf [_ [_ [_ Hs]]]].
  split; [exact Hinv | split; [exact Hf | exact Hs]].
Defined.

(** The scenarios of [test_allocate_time].  1 and 2: a zero or negative
    duration fails on any clock, with either flag. *)
Example test_allocate_time_1 (charge : bool) (tk : t) :
  allocate_time 0 charge tk = (false, tk).
Proof. reflexivity. Qed.

Example test_allocate_time_2 (charge : bool) (tk : t) :
  allocate_time (-1) charge tk = (false, tk).
Proof. reflexivity. Qed.

(** 3: two days do not fit one day before the end of a mission of 365
    days. *)
Example test_allocate_time_3 (charge : bool) (tk : t) :
  missionLife tk = 365 -> currentTimeNorm tk = 365 - 1 ->
  allocate_time 2 charge tk = (false, tk).
Proof.
  intros Hlife Hnow. apply allocate_time_invalid. right; left.
  rewrite Hlife, Hnow. reflexivity.
Qed.

(** 4: nor one day before the end of the only block, at day 20. *)
Example test_allocate_time_4 (charge : bool) (tk : t) :
  OBendTimes tk = [20] -> OBnumber tk = O -> currentTimeNorm tk = 20 - 1 ->
  allocate_time 2 charge tk = (false, tk).
Proof.
  intros Hends Hnum Hnow. apply allocate_time_invalid. right; right; left.
  exists 20. unfold currentOBend. rewrite Hends, Hnum, Hnow.
  split; reflexivity.
Qed.

(** 5a, 5b, 6a and 6b, which fix every field they use. *)
Example test_allocate_time_5a :
  allocate_time 2 true Fixture.tk_5a = (false, Fixture.tk_5a).
Proof. reflexivity. Qed.

Example test_allocate_time_5b :
  allocate_time 2 false Fixture.tk_5a
  = (true, mk (60635 + 2) (1 + 2) 1 10 (1 # 5) [0] [10] 0 1).
Proof. reflexivity. Qed.

Example test_allocate_time_6a :
  allocate_time 2 true Fixture.tk_6a
  = (true, mk (60634 + 2) (0 + 2) (0 + 2) 20 1 [0] [20] 0 1).
Proof. reflexivity. Qed.

Example test_allocate_time_6b :
  allocate_time 2 false (snd (allocate_time 2 true Fixture.tk_6a))
  = (true, mk (60634 + 2 + 2) (0 + 2 + 2) (0 + 2) 20 1 [0] [20] 0 1).
Proof. reflexivity. Qed.

(** C2.  [mission_is_over] is true if and only if the observation budget
    is reached ([exoplanetObsTime >= missionLife * missionPortion]), or
    the mission life is reached ([currentTimeNorm >= missionLife]), or
    [currentTimeNorm] exceeds the end of the current observing block and
    no further block exists. *)
Theorem mission_is_over_iff tk :
  mission_is_over tk = true <->
  (missionLife tk * missionPortion tk <= exoplanetObsTime tk
   \/ missionLife tk <= currentTimeNorm tk
   \/ ((exists e, currentOBend tk = Some e /\ e < currentTimeNorm tk)
       /\ (List.length (OBendTimes tk) <= S (OBnumber tk))%nat)).
Proof.
  unfold mission_is_over. rewrite !orb_true_iff, andb_true_iff.
  rewrite !Qle_bool_iff. unfold no_further_block, past_current_OB.
  rewrite Nat.leb_le.
  split.
  - intros [[H | H] | [H1 H2]]; [now left | now right; left |].
    right; right. split; [|exact H2].
    destruct (currentOBend tk) as [e|]; [|discriminate].
    exists e. split; [reflexivity | now apply Qltb_lt].
  - intros [H | [H | [[e [He H1]] H2]]];
      [now left; left | now left; right |].
    right. split; [|exact H2]. rewrite He. now apply Qltb_lt.
Qed.

(** The four scenarios of [test_mission_is_over]. *)
Example test_mission_is_over_1 : mission_is_over Fixture.tk_life = false.
Proof. reflexivity. Qed.

Example test_mission_is_over_2 :
  mission_is_over (mk 60634 0 ((11 # 10) * (36525 # 1000) * 1)
                      (36525 # 1000) 1 [0] [36525 # 1000] 0 1) = true.
Proof. reflexivity. Qed.

Example test_mission_is_over_3 :
  mission_is_over (mk (60634 + (11 # 10) * (36525 # 1000))
                      ((11 # 10) * (36525 # 1000)) 0
                      (36525 # 1000) 1 [0] [36525 # 1000] 0 1) = true.
Proof. reflexivity. Qed.

Example test_mission_is_over_4 : mission_is_over Fixture.tk_pastOB = true.
Proof. reflexivity. Qed.

End ClockProperties.

(** ** Arrays *)

Section Arrays.

Context {A : Type}.

Lemma In_where_from (mask : list bool) : forall k i,
  In i (np.where_from k mask) <->
  (k <= i)%nat /\ nth_error mask (i - k) = Some true.
Proof.
  induction mask as [|b mask IH]; intros k i; simpl.
  - split; [tauto|]. intros [_ H]. destruct (i - k)%nat; discriminate.
  - assert (Hstep : In i (np.where_from (S k) mask) <->
                    (k < i)%nat /\ nth_error mask (i - S k) = Some true).
    { rewrite IH. tauto. }
    destruct (Nat.eq_dec i k) as [->|Hne].
    + rewrite Nat.sub_diag. simpl. destruct b; simpl.
      * split; [intros _; split; [lia|reflexivity] | intros _; now left].
      * rewrite Hstep. split; [lia | intros [_ H]; discriminate].
    + assert (Hnth : (k <= i)%nat ->
                     nth_error (b :: mask) (i - k) = nth_error mask (i - S k)).
      { intros Hle. replace (i - k)%nat with (S (i - S k)) by lia. reflexivity. }
      destruct b; simpl; rewrite ?Hstep.
      * split.
        -- intros [H | [H1 H2]]; [congruence|].
           split; [lia|]. rewrite Hnth by lia. exact H2.
        -- intros [H1 H2]. right. split; [lia|]. rewrite <- Hnth by lia. exact H2.
      * split.
        -- intros [H1 H2]. split; [lia|]. rewrite Hnth by lia. exact H2.
        -- intros [H1 H2]. split; [lia|]. rewrite <- Hnth by lia. exact H2.
Qed.

Lemma In_where (mask : list bool) (i : nat) :
  In i (np.where_ mask) <-> nth_error mask i = Some true.
Proof.
  unfold np.where_. rewrite In_where_from, Nat.sub_0_r.
  split; [tauto | intros H; split; [lia | exact H]].
Qed.

Lemma where_lt (mask : list bool) (i : nat) :
  In i (np.where_ mask) -> (i < List.length mask)%nat.
Proof.
  rewrite In_where. intros H. apply nth_error_Some. congruence.
Qed.

Lemma In_take (a : list A) (idx : list nat) (x : A) :
  In x (np.take a idx) <-> exists i, In i idx /\ nth_error a i = Some x.
Proof.
  unfold np.take. rewrite in_flat_map. split.
  - intros [i [Hi Hx]]. exists i. split; [exact Hi|].
    destruct (nth_error a i) as [y|]; simpl in Hx; [|tauto].
    destruct Hx as [->|[]]. reflexivity.
  - intros [i [Hi Hx]]. exists i. split; [exact Hi|]. rewrite Hx. now left.
Qed.

Lemma take_incl (a : list A) (idx : list nat) (x : A) :
  In x (np.take a idx) -> In x a.
Proof.
  rewrite In_take. intros [i [_ H]]. eapply nth_error_In; eauto.
Qed.

Lemma length_take (a : list A) (idx : list nat) :
  Forall (fun i => (i < List.length a)%nat) idx ->
  List.length (np.take a idx) = List.length idx.
Proof.
  induction 1 as [|i idx Hi _ IH]; [reflexivity|].
  change (np.take a (i :: idx))
    with ((match nth_error a i with Some x => [x] | None => [] end)
            ++ np.take a idx).
  rewrite length_app, IH.
  destruct (nth_error a i) eqn:E; [reflexivity|].
  apply nth_error_None in E. lia.
Qed.

Lemma length_upd (a : list A) : forall i v,
  List.length (np.upd a i v) = List.length a.
Proof.
  induction a as [|x a IH]; intros [|i] v; simpl; auto.
Qed.

Lemma nth_error_upd (a : list A) : forall i v j,
  nth_error (np.upd a i v) j =
  if (i =? j)%nat && (i <? List.length a)%nat then Some v else nth_error a j.
Proof.
  induction a as [|x a IH]; intros i v j.
  - destruct i; simpl; rewrite andb_false_r; reflexivity.
  - destruct i as [|i], j as [|j]; simpl; try reflexivity.
    rewrite IH. reflexivity.
Qed.

Lemma length_fill_idx (idx : list nat) : forall (a : list A) v,
  List.length (np.fill_idx a idx v) = List.length a.
Proof.
  unfold np.fill_idx.
  induction idx as [|i idx IH]; intros a v; simpl; [reflexivity|].
  rewrite IH. apply length_upd.
Qed.

Lemma nth_error_fill_idx (idx : list nat) : forall (a : list A) v s,
  nth_error (np.fill_idx a idx v) s =
  if np.mem s idx && (s <? List.length a)%nat then Some v else nth_error a s.
Proof.
  unfold np.fill_idx, np.mem.
  induction idx as [|i idx IH]; intros a v s; simpl; [reflexivity|].
  rewrite IH, length_upd, nth_error_upd.
  rewrite (Nat.eqb_sym s i).
  destruct (i =? s)%nat eqn:E; simpl.
  - apply Nat.eqb_eq in E. subst i.
    destruct (s <? List.length a)%nat; simpl.
    + destruct (existsb (Nat.eqb s) idx); reflexivity.
    + rewrite andb_false_r. reflexivity.
  - reflexivity.
Qed.

Lemma length_scatter (idx : list nat) : forall (a vals : list A),
  List.length (np.scatter a idx vals) = List.length a.
Proof.
  induction idx as [|i idx IH]; intros a [|v vals]; simpl; try reflexivity.
  rewrite IH. apply length_upd.
Qed.

(** Scattering values that depend only on the position written. *)
Lemma nth_error_scatter_map (g : nat -> A) (idx : list nat) :
  forall (a : list A) s,
  nth_error (np.scatter a idx (map g idx)) s =
  if np.mem s idx && (s <? List.length a)%nat then Some (g s)
  else nth_error a s.
Proof.
  unfold np.mem.
  induction idx as [|i idx IH]; intros a s; simpl; [reflexivity|].
  rewrite IH, length_upd, nth_error_upd.
  rewrite (Nat.eqb_sym s i).
  destruct (i =? s)%nat eqn:E; simpl.
  - apply Nat.eqb_eq in E. subst i.
    destruct (s <? List.length a)%nat; simpl.
    + destruct (existsb (Nat.eqb s) idx); reflexivity.
    + rewrite andb_false_r. reflexivity.
  - reflexivity.
Qed.

Lemma length_fill_mask (a : list A) : forall mask v,
  List.length (np.fill_mask a mask v) = List.length a.
Proof.
  induction a as [|x a IH]; intros [|b mask] v; simpl; auto.
Qed.

Lemma length_assign_mask (a : list A) : forall mask vals,
  List.length (np.assign_mask a mask vals) = List.length a.
Proof.
  induction a as [|x a IH]; intros [|b mask] vals; simpl; auto.
  destruct b; [destruct vals|]; simpl; auto.
Qed.

End Arrays.

Lemma mem_In (x : nat) (a : list nat) : np.mem x a = true <-> In x a.
Proof.
  unfold np.mem. rewrite existsb_exists. split.
  - intros [y [Hy E]]. apply Nat.eqb_eq in E. now subst.
  - intros H. exists x. split; [exact H | apply Nat.eqb_refl].
Qed.

Lemma any_nat_nonempty (a : list nat) : np.any_nat a = true -> a <> [].
Proof. destruct a; [discriminate | discriminate]. Qed.

Lemma max_In (d : Q) (a : list Q) : a <> [] -> In (np.max d a) a.
Proof.
  destruct a as [|x a]; [congruence|]. intros _. simpl.
  assert (H : forall l m, In (fold_left (fun m c => if Qltb m c then c else m) l m)
                             (m :: l)).
  { induction l as [|c l IH]; intros m; simpl; [now left|].
    destruct (IH (if Qltb m c then c else m)) as [H|H].
    - destruct (Qltb m c); [right; left | left]; exact H.
    - right; right; exact H. }
  apply H.
Qed.

(** ** Target selection *)

Lemma select_map_filter {A} (p : A -> bool) (l : list A) :
  np.select l (map p l) = filter p l.
Proof.
  induction l as [|x l IH]; simpl; [reflexivity|].
  destruct (p x); rewrite IH; reflexivity.
Qed.

Section TargetSelection.

Variable cfg : Config.
Variable env : Collaborators.
Variable clk : Clock.

(** The revisit rows that match: those of a candidate, less than one week
    from the current time. *)
Lemma In_ind_rev (st : Sim) (sInds : list nat) (s : nat) :
  In s (ind_rev st sInds) <->
  In s sInds
  /\ exists t_r, In (s, t_r) (starRevisit st)
                 /\ Qabs (t_r - TimeKeeping.currentTimeNorm (TK st)) < dt_max.
Proof.
  unfold ind_rev. rewrite filter_In, mem_In, map_map.
  rewrite (select_map_filter
             (fun r => Qltb (Qabs (snd r - TimeKeeping.currentTimeNorm (TK st)))
                            dt_max)).
  rewrite in_map_iff. split.
  - intros [[[s' t_r] [Hs Hin]] Hmem]. simpl in Hs. subst s'.
    apply filter_In in Hin. destruct Hin as [Hin Hlt]. simpl in Hlt.
    split; [exact Hmem|]. exists t_r. split; [exact Hin | now apply Qltb_lt].
  - intros [Hmem [t_r [Hin Hlt]]]. split; [|exact Hmem].
    exists (s, t_r). split; [reflexivity|].
    apply filter_In. split; [exact Hin | simpl; now apply Qltb_lt].
Qed.

Lemma length_tovisit (st : Sim) (sInds : list nat) :
  List.length (tovisit cfg st sInds) = nStars cfg.
Proof.
  unfold tovisit.
  destruct (starRevisit st); rewrite ?length_fill_idx, length_scatter;
    apply repeat_length.
Qed.

Lemma nth_error_repeat_false (n s : nat) :
  nth_error (repeat false n) s <> Some true.
Proof.
  intros H. apply nth_error_In in H. apply repeat_spec in H. discriminate.
Qed.

(** The entries of [tovisit]: a candidate is marked when its visit count
    is the least among the candidates or the revisit list matches it. *)
Lemma tovisit_true (st : Sim) (sInds : list nat) (s : nat) :
  Forall (fun i => (i < nStars cfg)%nat) sInds ->
  (nth_error (tovisit cfg st sInds) s = Some true <->
   In s sInds
   /\ (nth s (starVisits st) O
         = np.min_nat (map (fun i => nth i (starVisits st) O) sInds)
       \/ In s (ind_rev st sInds))).
Proof.
  intros Hrange.
  set (vmin := np.min_nat (map (fun i => nth i (starVisits st) O) sInds)).
  assert (Hbase :
    nth_error
      (np.scatter (repeat false (nStars cfg)) sInds
         (map (fun v => (v =? vmin)%nat)
              (map (fun i => nth i (starVisits st) O) sInds))) s = Some true
    <-> In s sInds /\ nth s (starVisits st) O = vmin).
  { rewrite map_map.
    rewrite (nth_error_scatter_map
               (fun i => (nth i (starVisits st) O =? vmin)%nat)).
    rewrite repeat_length.
    destruct (np.mem s sInds) eqn:Hmem; simpl.
    - apply mem_In in Hmem.
      assert (Hlt : (s <? nStars cfg)%nat = true).
      { apply Nat.ltb_lt. rewrite Forall_forall in Hrange. now apply Hrange. }
      rewrite Hlt. split.
      + intros H. injection H as H. apply Nat.eqb_eq in H. tauto.
      + intros [_ H]. f_equal. now apply Nat.eqb_eq.
    - split.
      + intros H. now apply nth_error_repeat_false in H.
      + intros [H _]. apply mem_In in H. congruence. }
  unfold tovisit. fold vmin.
  destruct (starRevisit st) as [|r rev] eqn:Hrev.
  - rewrite Hbase.
    assert (Hnone : ~ In s (ind_rev st sInds)).
    { unfold ind_rev. rewrite Hrev. simpl. tauto. }
    tauto.
  - rewrite nth_error_fill_idx, length_scatter, repeat_length.
    destruct (np.mem s (ind_rev st sInds)) eqn:Hmem; simpl.
    + apply mem_In in Hmem.
      assert (Hin : In s sInds) by (apply In_ind_rev in Hmem; tauto).
      assert (Hlt : (s <? nStars cfg)%nat = true).
      { apply Nat.ltb_lt. rewrite Forall_forall in Hrange. now apply Hrange. }
      rewrite Hlt. split; [intros _; tauto | reflexivity].
    + rewrite Hbase.
      assert (Hnone : ~ In s (ind_rev st sInds)).
      { intros H. apply mem_In in H. congruence. }
      tauto.
Qed.

(** No star outside the candidates is marked. *)
Lemma tovisit_incl (st : Sim) (sInds : list nat) (s : nat) :
  nth_error (tovisit cfg st sInds) s = Some true -> In s sInds.
Proof.
  unfold tovisit.
  set (t0 := np.scatter _ _ _).
  assert (H0 : nth_error t0 s = Some true -> In s sInds).
  { unfold t0. rewrite map_map.
    rewrite (nth_error_scatter_map
               (fun i => (nth i (starVisits st) O
                          =? np.min_nat (map (fun i => nth i (starVisits st) O) sInds))%nat)).
    destruct (np.mem s sInds) eqn:Hmem; simpl.
    - intros _. now apply mem_In.
    - intros H. now apply nth_error_repeat_false in H. }
  destruct (starRevisit st); [exact H0|].
  rewrite nth_error_fill_idx.
  destruct (np.mem s (ind_rev st sInds)) eqn:Hmem; simpl.
  - intros _. apply mem_In in Hmem. apply In_ind_rev in Hmem. tauto.
  - exact H0.
Qed.

Lemma filter_visits_incl (st : Sim) (sInds : list nat) (s : nat) :
  In s (filter_visits cfg st sInds) -> In s sInds.
Proof.
  unfold filter_visits. destruct (np.any_nat sInds); [|tauto].
  rewrite In_where. apply tovisit_incl.
Qed.

Lemma filter_end_incl (startTime t_dets : list Q) (sInds : list nat) (s : nat) :
  In s (filter_end env startTime t_dets sInds) -> In s sInds.
Proof.
  unfold filter_end, end_body. destruct (np.any_nat sInds); [|tauto].
  apply take_incl.
Qed.

(** What the cutoff of 2/ leaves: stars whose total time lies strictly
    between zero and the cutoff. *)
Lemma cutoff_body_spec (mode : Mode) (startTime : list Q)
  (sInds : list nat) (s : nat) :
  In s (snd (cutoff_body cfg env mode startTime sInds)) ->
  0 < nth s (fst (cutoff_body cfg env mode startTime sInds)) 0 * timeMultiplier mode
  /\ nth s (fst (cutoff_body cfg env mode startTime sInds)) 0 * timeMultiplier mode
     < intCutoff (OS cfg).
Proof.
  unfold cutoff_body. simpl. set (t_dets := np.scatter _ _ _).
  rewrite In_where, map_map. intros H.
  rewrite nth_error_map in H.
  destruct (nth_error t_dets s) as [t|] eqn:Ht; [|discriminate].
  injection H as Hb.
  rewrite (nth_error_nth _ _ 0 Ht).
  apply andb_true_iff in Hb. destruct Hb as [H1 H2].
  split; now apply Qltb_lt.
Qed.

Lemma random_choice_In (st : Sim) (a : list nat) :
  a <> [] -> In (random_choice env st a) a.
Proof.
  intros Hne. unfold random_choice. apply nth_In.
  apply Nat.mod_upper_bound. destruct a; [congruence | discriminate].
Qed.

(** The star chosen in 5/ is one of the candidates. *)
Lemma choose_best_In (st : Sim) (sInds : list nat) :
  sInds <> [] ->
  Forall (fun i => (i < nStars cfg)%nat) sInds ->
  In (choose_best cfg env st sInds) sInds.
Proof.
  intros Hne Hrange. unfold choose_best.
  set (comp := np.take (comp0 cfg) sInds).
  set (comp' := np.scatter comp _ _).
  set (mask := np.where_ _).
  assert (Hlen : List.length comp' = List.length sInds).
  { unfold comp'. rewrite length_scatter. unfold comp.
    apply length_take. exact Hrange. }
  assert (Hne' : comp' <> []).
  { intros E. rewrite E in Hlen. destruct sInds; [congruence | discriminate]. }
  destruct (In_nth_error _ _ (max_In 0 comp' Hne')) as [k Hk].
  assert (Hmask : In k mask).
  { unfold mask. apply In_where. rewrite nth_error_map, Hk. simpl.
    now rewrite Qeq_bool_refl. }
  assert (Hklt : (k < List.length sInds)%nat).
  { rewrite <- Hlen. apply nth_error_Some. congruence. }
  destruct (nth_error sInds k) as [x|] eqn:Hx;
    [|apply nth_error_None in Hx; lia].
  assert (Hin : In x (np.take sInds mask)).
  { apply In_take. exists k. split; assumption. }
  apply (take_incl sInds mask).
  apply random_choice_In. intros E. rewrite E in Hin. exact Hin.
Qed.

(** A pass that finds a target: the target came through the cutoff of 2/,
    and its integration time is the one computed there. *)
Lemma pass_found (old_sInd : option nat) (mode : Mode) (st st' : Sim)
  (sInd : nat) (t_det : Q) (slewTime : list Q) :
  next_target_pass cfg env clk old_sInd mode st = Found st' sInd t_det slewTime ->
  0 < t_det * timeMultiplier mode
  /\ t_det * timeMultiplier mode < intCutoff (OS cfg).
Proof.
  unfold next_target_pass, candidates.
  set (startTime := startTimes (slewTimes cfg env old_sInd st) st).
  set (sInds1 := filter_start cfg env startTime).
  destruct (filter_cutoff cfg env mode startTime sInds1) as [t_dets sInds2] eqn:H2.
  set (sInds3 := filter_end env startTime t_dets sInds2).
  set (sInds4 := filter_visits cfg st sInds3).
  destruct (np.any_nat sInds4) eqn:Hany4; [|discriminate].
  intros H. injection H as _ Hs Ht _. rewrite Hs in Ht.
  assert (Hany3 : np.any_nat sInds3 = true).
  { destruct (np.any_nat sInds3) eqn:E; [reflexivity|].
    unfold sInds4, filter_visits in Hany4. rewrite E in Hany4. congruence. }
  assert (Hany2 : np.any_nat sInds2 = true).
  { destruct (np.any_nat sInds2) eqn:E; [reflexivity|].
    unfold sInds3, filter_end in Hany3. rewrite E in Hany3. congruence. }
  assert (Hany1 : np.any_nat sInds1 = true).
  { destruct (np.any_nat sInds1) eqn:E; [reflexivity|].
    unfold filter_cutoff in H2. rewrite E in H2. injection H2 as _ H2.
    congruence. }
  unfold filter_cutoff in H2. rewrite Hany1 in H2.
  assert (Hrange : Forall (fun i => (i < nStars cfg)%nat) sInds4).
  { apply Forall_forall. intros i Hi.
    unfold sInds4, filter_visits in Hi. rewrite Hany3 in Hi.
    apply where_lt in Hi. now rewrite length_tovisit in Hi. }
  assert (Hin4 : In sInd sInds4).
  { rewrite <- Hs. apply choose_best_In; [|exact Hrange].
    now apply any_nat_nonempty. }
  assert (Hin2 : In sInd sInds2).
  { apply (filter_end_incl startTime t_dets). fold sInds3.
    apply (filter_visits_incl st). exact Hin4. }
  pose proof (cutoff_body_spec mode startTime sInds1 sInd) as Hcut.
  rewrite H2 in Hcut. simpl in Hcut. rewrite <- Ht.
  apply Hcut. exact Hin2.
Qed.

Lemma loop_found (fuel : nat) (old_sInd : option nat) (mode : Mode) :
  forall (st st' : Sim) (sInd : nat) (t_det : Q) (slewTime : list Q),
  next_target_loop cfg env clk fuel old_sInd mode st
    = Some (st', Some (sInd, t_det, slewTime)) ->
  0 < t_det * timeMultiplier mode
  /\ t_det * timeMultiplier mode < intCutoff (OS cfg).
Proof.
  induction fuel as [|fuel IH]; intros st st' sInd t_det slewTime; simpl;
    [discriminate|].
  destruct (TK_mission_is_over clk (TK st)); [discriminate|].
  destruct (next_target_pass cfg env clk old_sInd mode st)
    as [st1 s1 t1 sl1 | st1] eqn:Hpass.
  - intros H. injection H as _ Hs Ht _. subst s1 t1.
    eapply pass_found. exact Hpass.
  - apply IH.
Qed.

(** C3.  Whenever [next_target] returns a target [sInd] with integration
    time [t_det], the total time [t_det * timeMultiplier] lies strictly
    between 0 and the cutoff [OS.intCutoff]. *)
Theorem next_target_total_time (fuel : nat) (old_sInd : option nat)
  (mode : Mode) (st st' : Sim) (sInd : nat) (t_det slew : Q) :
  next_target cfg env clk fuel old_sInd mode st
    = Some (st', Some (sInd, t_det, slew)) ->
  0 < t_det * timeMultiplier mode
  /\ t_det * timeMultiplier mode < intCutoff (OS cfg).
Proof.
  unfold next_target.
  destruct (next_target_loop cfg env clk fuel old_sInd mode
              (allocate clk (settlingTime cfg + ohTime mode) st))
    as [[st1 [[[s1 t1] sl1]|]]|] eqn:Hloop; try discriminate.
  intros H.
  assert (Ht : t1 = t_det).
  { destruct (haveOcculter (OS cfg)).
    - destruct (TK_mission_is_over clk _); [discriminate|].
      injection H as _ _ Ht _. exact Ht.
    - injection H as _ _ Ht _. exact Ht. }
  subst t1. eapply loop_found. exact Hloop.
Qed.

(** A pass in which no candidate index is non-zero allocates [dtAlloc]
    and goes round again. *)
Lemma pass_retry (old_sInd : option nat) (mode : Mode) (st : Sim) :
  np.any_nat (snd (candidates cfg env old_sInd mode st)) = false ->
  next_target_pass cfg env clk old_sInd mode st
    = Retry (allocate clk (TimeKeeping.dtAlloc (TK st)) st).
Proof.
  unfold next_target_pass.
  destruct (candidates cfg env old_sInd mode st) as [[slewTime t_dets] sInds].
  simpl. intros ->. reflexivity.
Qed.


(** The state [st] with its clock replaced. *)
Lemma set_TK_set_TK (tk tk' : TimeKeeping.t) (st : Sim) :
  set_TK tk (set_TK tk' st) = set_TK tk st.
Proof. reflexivity. Qed.



(** C4, as the code has it.  When the visit stage runs on candidates
    [sInds], a star is in the to-visit set exactly when it is a candidate
    and either its visit count is the least among the candidates or the
    revisit list matches it; the revisit list matches exactly the
    candidates with a row [(s, t_r)] such that [|t_r - currentTimeNorm|]
    is strictly less than one week, so that a row at one week or more
    matches nothing. *)
Theorem revisit_matching (st : Sim) (sInds : list nat) (s : nat) :
  np.any_nat sInds = true ->
  Forall (fun i => (i < nStars cfg)%nat) sInds ->
  (In s (filter_visits cfg st sInds) <->
   In s sInds
   /\ (nth s (starVisits st) O
         = np.min_nat (map (fun i => nth i (starVisits st) O) sInds)
       \/ exists t_r, In (s, t_r) (starRevisit st)
                      /\ Qabs (t_r - TimeKeeping.currentTimeNorm (TK st)) < dt_max))
  /\ (In s (ind_rev st sInds) <->
      In s sInds
      /\ exists t_r, In (s, t_r) (starRevisit st)
                     /\ Qabs (t_r - TimeKeeping.currentTimeNorm (TK st)) < dt_max).
Proof.
  intros Hany Hrange. split; [|apply In_ind_rev].
  unfold filter_visits. rewrite Hany, In_where, (tovisit_true st sInds s Hrange).
  rewrite In_ind_rev. tauto.
Qed.

End TargetSelection.

(** At the start of the fixture mission [next_target] returns star 2, the
    star of highest completeness, with its five days of integration. *)
Lemma next_target_total_time_witness :
  exists st',
    next_target Fixture.cfg0 Fixture.env0 (spec_clock true) 5 None
                Fixture.detMode Fixture.st0
      = Some (st', Some (2%nat, 5, 0))
    /\ 0 < 5 * timeMultiplier Fixture.detMode
    /\ 5 * timeMultiplier Fixture.detMode < intCutoff (OS Fixture.cfg0).
Proof.
  eexists. split.
  - vm_compute. reflexivity.
  - eapply (next_target_total_time Fixture.cfg0 Fixture.env0 (spec_clock true)
              5 None Fixture.detMode Fixture.st0).
    vm_compute. reflexivity.
Defined.


(** C4 as stated fails: with every star visited once, star 1 has a
    revisit row a hundred days away, more than a week, and is a
    candidate of the pass all the same, because its visit count is the
    least. *)
Lemma revisit_window_counterexample :
  In (1%nat, 100) (starRevisit Fixture.st_revisit)
  /\ ~ Qabs (100 - TimeKeeping.currentTimeNorm (TK Fixture.st_revisit)) < dt_max
  /\ In 1%nat (filter_visits Fixture.cfg0 Fixture.st_revisit [0; 1; 2]%nat)
  /\ In 1%nat (snd (candidates Fixture.cfg0 Fixture.env0 None Fixture.detMode
                      Fixture.st_revisit)).
Proof.
  split; [now left|]. split; [vm_compute; discriminate|].
  split; vm_compute; tauto.
Qed.

Lemma revisit_matching_witness :
  np.any_nat [0; 1; 2]%nat = true
  /\ In 1%nat (filter_visits Fixture.cfg0 Fixture.st_revisit [0; 1; 2]%nat)
  /\ ~ In 1%nat (ind_rev Fixture.st_revisit [0; 1; 2]%nat).
Proof.
  assert (Hany : np.any_nat [0; 1; 2]%nat = true) by reflexivity.
  assert (Hrange : Forall (fun i => (i < nStars Fixture.cfg0)%nat) [0; 1; 2]%nat).
  { repeat constructor. }
  destruct (revisit_matching Fixture.cfg0 Fixture.st_revisit [0; 1; 2]%nat 1%nat
              Hany Hrange) as [Hvis Hrev].
  split; [exact Hany|]. split.
  - apply Hvis. split; [simpl; tauto|]. left. reflexivity.
  - intros Hin. apply Hrev in Hin. destruct Hin as [_ [t_r [Hrow Hlt]]].
    destruct Hrow as [Hrow | []]. injection Hrow as <-.
    vm_compute in Hlt. discriminate.
Defined.

(** ** Detection *)

Lemma length_select_count {A} (a : list A) : forall mask,
  List.length mask = List.length a ->
  List.length (np.select a mask) = np.count_true mask.
Proof.
  unfold np.count_true.
  induction a as [|x a IH]; intros [|b mask] Hlen; simpl in *;
    try reflexivity; try discriminate.
  destruct b; simpl; rewrite IH by lia; reflexivity.
Qed.

Lemma select_incl {A} (a : list A) : forall mask x,
  In x (np.select a mask) -> In x a.
Proof.
  induction a as [|y a IH]; intros [|b mask] x; simpl; try tauto.
  destruct b; simpl; intros H.
  - destruct H as [H|H]; [now left | right; eauto].
  - right; eauto.
Qed.

(** Reading a position after [a[mask] = vals]: a selected position holds
    the value whose rank is the number of selected positions before it. *)
Lemma nth_error_assign_mask {A} (a : list A) : forall mask vals i,
  List.length mask = List.length a ->
  (np.count_true mask <= List.length vals)%nat ->
  nth_error (np.assign_mask a mask vals) i =
  match nth_error mask i with
  | Some true => nth_error vals (np.count_true (firstn i mask))
  | _ => nth_error a i
  end.
Proof.
  unfold np.count_true.
  induction a as [|x a IH]; intros [|b mask] vals i Hlen Hcnt;
    simpl in *; try discriminate.
  - destruct i; reflexivity.
  - destruct b; simpl in *.
    + destruct vals as [|v vals]; simpl in *; [lia|].
      destruct i as [|i]; simpl; [reflexivity|].
      rewrite IH by lia. reflexivity.
    + destruct i as [|i]; simpl; [reflexivity|].
      rewrite IH by lia. reflexivity.
Qed.

(** The two stores of the classification, entry by entry. *)
Lemma fill_mask_twice (f g : Q -> bool) (u v : Z) (l : list Q) :
  np.fill_mask (np.fill_mask (repeat 1%Z (List.length l)) (map f l) u)
               (map g l) v
  = map (fun w => if g w then v else if f w then u else 1%Z) l.
Proof.
  induction l as [|w l IH]; simpl; [reflexivity|].
  rewrite IH. reflexivity.
Qed.

Section Detection.

Variable cfg : Config.
Variable env : Collaborators.
Variable clk : Clock.

Lemma In_planets_of (sInd : nat) (su : list Planet) (p : nat) :
  In p (planets_of sInd su) <->
  exists pl, nth_error su p = Some pl /\ plan2star pl = sInd.
Proof.
  unfold planets_of. rewrite In_where, nth_error_map.
  destruct (nth_error su p) as [pl|]; simpl.
  - split.
    + intros H. injection H as H. apply Nat.eqb_eq in H. eauto.
    + intros [pl' [E H]]. injection E as <-. f_equal. now apply Nat.eqb_eq.
  - split; [discriminate | intros [pl [E _]]; discriminate].
Qed.

Lemma planets_of_range (sInd : nat) (su : list Planet) :
  Forall (fun p => (p < List.length su)%nat) (planets_of sInd su).
Proof.
  apply Forall_forall. intros p Hp. apply In_planets_of in Hp.
  destruct Hp as [pl [H _]]. apply nth_error_Some. congruence.
Qed.

Lemma nth_error_take {A} (a : list A) (idx : list nat) :
  Forall (fun i => (i < List.length a)%nat) idx ->
  forall k i, nth_error idx k = Some i ->
  nth_error (np.take a idx) k = nth_error a i.
Proof.
  induction 1 as [|j idx Hj _ IH]; intros k i Hk.
  - destruct k; discriminate.
  - change (np.take a (j :: idx))
      with ((match nth_error a j with Some x => [x] | None => [] end)
              ++ np.take a idx).
    destruct (nth_error a j) as [x|] eqn:E;
      [|apply nth_error_None in E; lia].
    destruct k as [|k]; simpl in *.
    + injection Hk as <-. now rewrite E.
    + now apply IH.
Qed.

Lemma classify_map (st : Sim) (pInds : list nat) :
  Forall (fun p => (p < List.length (SU st))%nat) pInds ->
  classify cfg st pInds
  = map (classify_one cfg)
        (map (fun p => pl_WA (pl_dyn p)) (np.take (SU st) pInds)).
Proof.
  intros Hrange. unfold classify.
  pose proof (length_take (SU st) pInds Hrange) as Hlen.
  destruct (np.any_Z (repeat 1%Z (List.length pInds))) eqn:Hany.
  - rewrite <- Hlen.
    rewrite <- (length_map (fun p => pl_WA (pl_dyn p)) (np.take (SU st) pInds)).
    rewrite fill_mask_twice. reflexivity.
  - destruct pInds as [|p pInds]; [reflexivity | discriminate].
Qed.

Lemma classify_nth (st : Sim) (pInds : list nat) (i p : nat) (pl : Planet) :
  Forall (fun p => (p < List.length (SU st))%nat) pInds ->
  nth_error pInds i = Some p ->
  nth_error (SU st) p = Some pl ->
  nth_error (classify cfg st pInds) i
  = Some (classify_one cfg (pl_WA (pl_dyn pl))).
Proof.
  intros Hrange Hi Hp. rewrite (classify_map st pInds Hrange).
  rewrite !nth_error_map, (nth_error_take _ _ Hrange i p Hi), Hp.
  reflexivity.
Qed.

Lemma length_classify (st : Sim) (pInds : list nat) :
  List.length (classify cfg st pInds) = List.length pInds.
Proof.
  unfold classify.
  destruct (np.any_Z _); rewrite ?length_fill_mask; apply repeat_length.
Qed.

(** Lengths through the integration. *)
Lemma length_propag_system (sInd : nat) (t : Q) (su : list Planet) :
  List.length (propag_system env sInd t su) = List.length su.
Proof.
  unfold propag_system.
  rewrite length_map, length_combine, length_seq. apply Nat.min_id.
Qed.

Lemma calc_signal_noise_lengths (sInd : nat) (pInds : list nat) (t : Q)
  (mode : Mode) (st : Sim) :
  Forall (fun p => (p < List.length (SU st))%nat) pInds ->
  let r := calc_signal_noise env clk sInd pInds t mode st in
  List.length (fst (fst r)) = List.length pInds
  /\ List.length (snd (fst r)) = List.length pInds
  /\ List.length (SU (snd r)) = List.length (SU st).
Proof.
  intros Hrange. unfold calc_signal_noise. simpl.
  rewrite !length_map, length_propag_system.
  rewrite length_take; [tauto|].
  rewrite length_propag_system. exact Hrange.
Qed.

Lemma integrate_S (n : nat) (sInd : nat) (pInds : list nat) (t : Q)
  (mode : Mode) (st : Sim) :
  integrate env clk (S n) sInd pInds t mode st
  = let '(s, nz, st1) := calc_signal_noise env clk sInd pInds t mode st in
    let '(Signal, Noise, st2) := integrate env clk n sInd pInds t mode st1 in
    (s :: Signal, nz :: Noise, st2).
Proof. reflexivity. Qed.

Lemma integrate_lengths (n : nat) (sInd : nat) (pInds : list nat) (t : Q)
  (mode : Mode) : forall st,
  Forall (fun p => (p < List.length (SU st))%nat) pInds ->
  let r := integrate env clk n sInd pInds t mode st in
  Forall (fun row => List.length row = List.length pInds) (fst (fst r))
  /\ Forall (fun row => List.length row = List.length pInds) (snd (fst r))
  /\ List.length (SU (snd r)) = List.length (SU st).
Proof.
  induction n as [|n IH]; intros st Hrange; cbv zeta.
  - simpl. repeat split; constructor.
  - rewrite integrate_S.
    pose proof (calc_signal_noise_lengths sInd pInds t mode st Hrange) as Hc.
    destruct (calc_signal_noise env clk sInd pInds t mode st) as [[s nz] st1].
    simpl in Hc. destruct Hc as [Hs [Hn Hsu]].
    assert (Hrange1 : Forall (fun p => (p < List.length (SU st1))%nat) pInds)
      by (now rewrite Hsu).
    specialize (IH st1 Hrange1).
    destruct (integrate env clk n sInd pInds t mode st1) as [[Sg Nz] st2].
    simpl in *. destruct IH as [HS [HN Hsu2]].
    repeat split; [constructor; assumption | constructor; assumption | congruence].
Qed.

Lemma length_sum0 (n : nat) (rows : list (list Q)) :
  Forall (fun row => List.length row = n) rows ->
  List.length (np.sum0 n rows) = n.
Proof.
  intros Hrows. unfold np.sum0.
  assert (H : forall acc : list Q,
             List.length acc = n ->
             List.length
               (fold_left (fun acc row =>
                             map (fun p => fst p + snd p) (combine acc row))
                          rows acc) = n).
  { induction Hrows as [|row rows Hrow _ IH]; intros acc Hacc; simpl;
      [exact Hacc|].
    apply IH.
    rewrite length_map, length_combine, Hacc, Hrow. apply Nat.min_id. }
  apply H. apply repeat_length.
Qed.

Lemma integrate_SNR_length (sInd : nat) (pInds : list nat) (t : Q)
  (mode : Mode) (st : Sim) :
  Forall (fun p => (p < List.length (SU st))%nat) pInds ->
  List.length (fst (integrate_SNR cfg env clk sInd pInds t mode st))
  = List.length pInds.
Proof.
  intros Hrange. unfold integrate_SNR.
  pose proof (integrate_lengths (nt_flux cfg) sInd pInds
                (t / inject_Z (Z.of_nat (nt_flux cfg))) mode st Hrange) as H.
  destruct (integrate env clk (nt_flux cfg) sInd pInds _ mode st)
    as [[Sg Nz] st'].
  simpl in *. destruct H as [HS [HN _]].
  rewrite length_map, length_combine, !length_sum0 by assumption.
  apply Nat.min_id.
Qed.

Lemma any_bool_false_count (mask : list bool) :
  np.any_bool mask = false -> np.count_true mask = O.
Proof.
  unfold np.any_bool, np.count_true.
  induction mask as [|b mask IH]; simpl; [reflexivity|].
  destruct b; simpl; [discriminate | exact IH].
Qed.

Lemma nth_true_any (mask : list bool) (i : nat) :
  nth_error mask i = Some true -> np.any_bool mask = true.
Proof.
  intros H. unfold np.any_bool. apply existsb_exists.
  exists true. split; [eapply nth_error_In; eauto | reflexivity].
Qed.

Lemma rank_lt_count (mask : list bool) : forall i,
  nth_error mask i = Some true ->
  (np.count_true (firstn i mask) < np.count_true mask)%nat.
Proof.
  unfold np.count_true.
  induction mask as [|b mask IH]; intros [|i] H; simpl in *; try discriminate.
  - injection H as ->. simpl. lia.
  - specialize (IH i H). destruct b; simpl; lia.
Qed.

(** The status array is always stored: with one flag per signal-to-noise
    ratio, [detected[obs] = (~MD).astype(int)] has a value for every
    in-range planet. *)
Lemma detection_status_ok (sInd : nat) (t_det : Q) (mode : Mode) (st : Sim)
  (pInds : list nat) (observable : list Z) (SNR : list Q) (FA : bool)
  (MD : list bool) (st1 : Sim) :
  (forall snr, List.length (snd (det_occur env snr)) = List.length snr) ->
  detection_phase cfg env clk sInd t_det mode st
    = (pInds, observable, SNR, FA, MD, st1) ->
  pInds = planets_of sInd (SU st)
  /\ observable = classify cfg st pInds
  /\ (FA, MD) = det_occur env SNR
  /\ List.length MD = np.count_true (map (fun o => (o =? 1)%Z) observable)
  /\ detection_status observable MD
     = Ok (if np.any_bool (map (fun o => (o =? 1)%Z) observable)
           then np.assign_mask observable (map (fun o => (o =? 1)%Z) observable)
                  (map (fun m => if negb m then 1%Z else 0%Z) MD)
           else observable).
Proof.
  intros Hcontract. unfold detection_phase.
  set (pInds0 := planets_of sInd (SU st)).
  set (observable0 := classify cfg st pInds0).
  set (obs := map (fun o => (o =? 1)%Z) observable0).
  assert (Hobslen : List.length obs = List.length pInds0).
  { unfold obs. rewrite length_map. apply length_classify. }
  destruct (np.any_bool obs) eqn:Hany.
  - pose proof (integrate_SNR_length sInd (np.select pInds0 obs) t_det mode st)
      as Hlen.
    destruct (integrate_SNR cfg env clk sInd (np.select pInds0 obs) t_det mode st)
      as [SNR0 st'].
    destruct (det_occur env SNR0) as [FA0 MD0] eqn:Hdet.
    intros H. injection H as <- <- <- <- <- <-.
    assert (HMD : List.length MD0 = np.count_true obs).
    { pose proof (Hcontract SNR0) as Hc. rewrite Hdet in Hc. simpl in Hc.
      rewrite Hc. simpl in Hlen. rewrite Hlen.
      - now apply length_select_count.
      - apply Forall_forall. intros p Hp. apply select_incl in Hp.
        pose proof (planets_of_range sInd (SU st)) as Hr.
        rewrite Forall_forall in Hr. now apply Hr. }
    split; [reflexivity|]. split; [reflexivity|].
    split; [now rewrite Hdet|]. split; [exact HMD|].
    unfold detection_status. fold obs. rewrite Hany.
    unfold setitem_mask. rewrite length_map, HMD, Nat.eqb_refl. reflexivity.
  - destruct (det_occur env []) as [FA0 MD0] eqn:Hdet.
    intros H. injection H as <- <- <- <- <- <-.
    assert (HMD : List.length MD0 = np.count_true obs).
    { pose proof (Hcontract []) as Hc. rewrite Hdet in Hc. simpl in Hc.
      rewrite Hc. symmetry. now apply any_bool_false_count. }
    split; [reflexivity|]. split; [reflexivity|].
    split; [now rewrite Hdet|]. split; [exact HMD|].
    unfold detection_status. fold obs. rewrite Hany. reflexivity.
Qed.

(** What [observation_detection] returns as [detected] is the array of
    [detection_status]. *)
Lemma observation_detection_detected (sInd : nat) (t_det : Q) (mode : Mode)
  (st : Sim) (pInds : list nat) (observable : list Z) (SNR : list Q)
  (FA : bool) (MD : list bool) (st1 : Sim) (detected : list Z) :
  detection_phase cfg env clk sInd t_det mode st
    = (pInds, observable, SNR, FA, MD, st1) ->
  detection_status observable MD = Ok detected ->
  forall d snr fa st',
    observation_detection cfg env clk sInd t_det mode st = Ok (d, snr, fa, st') ->
    d = detected /\ snr = SNR /\ fa = FA.
Proof.
  intros Hphase Hstatus d snr fa st'.
  unfold observation_detection. rewrite Hphase, Hstatus. unfold bind at 1.
  destruct (sInd <? List.length (lastDetected st1))%nat; [|discriminate].
  unfold bind at 1.
  match goal with
  | |- (let '(smin', st3) := ?e in _) = _ -> _ =>
      destruct e as [smin' st3]
  end.
  match goal with
  | |- bind ?e _ = _ -> _ => destruct e as [t_rev|err]
  end; simpl; [|discriminate].
  intros H. injection H as <- <- <- _. repeat split.
Qed.

(** The status array of lines 470-507, and of a call that returns.  With
    the inner working-angle limit not above the outer one and a detection
    statistics module that answers one missed-detection flag per
    signal-to-noise ratio: the status array is stored and is what a
    returning call returns; the planet at each position of [pInds] (the
    planets of star [sInd]) has status -1 when its working angle is below
    [OS.IWA], -2 when it is above [OS.OWA], and otherwise 1 exactly when
    its flag in the missed-detection mask (at its rank among the in-range
    planets) is false, else 0. *)
Theorem detection_status_of_planets (sInd : nat) (t_det : Q) (mode : Mode)
  (st : Sim) (pInds : list nat) (observable : list Z) (SNR : list Q)
  (FA : bool) (MD : list bool) (st1 : Sim) :
  IWA (OS cfg) <= OWA (OS cfg) ->
  (forall snr, List.length (snd (det_occur env snr)) = List.length snr) ->
  detection_phase cfg env clk sInd t_det mode st
    = (pInds, observable, SNR, FA, MD, st1) ->
  exists detected,
    detection_status observable MD = Ok detected
    /\ (forall d snr fa st',
          observation_detection cfg env clk sInd t_det mode st
            = Ok (d, snr, fa, st') -> d = detected)
    /\ (forall p pl, nth_error (SU st) p = Some pl ->
                     (In p pInds <-> plan2star pl = sInd))
    /\ (FA, MD) = det_occur env SNR
    /\ forall i p pl,
         nth_error pInds i = Some p ->
         nth_error (SU st) p = Some pl ->
         (pl_WA (pl_dyn pl) < IWA (OS cfg) ->
          nth_error detected i = Some (-1)%Z)
         /\ (OWA (OS cfg) < pl_WA (pl_dyn pl) ->
             nth_error detected i = Some (-2)%Z)
         /\ (IWA (OS cfg) <= pl_WA (pl_dyn pl) ->
             pl_WA (pl_dyn pl) <= OWA (OS cfg) ->
             exists missed,
               nth_error MD
                 (np.count_true
                    (firstn i (map (fun o => (o =? 1)%Z) observable)))
                 = Some missed
               /\ nth_error detected i = Some (if missed then 0%Z else 1%Z)).
Proof.
  intros Hwf Hcontract Hphase.
  destruct (detection_status_ok sInd t_det mode st pInds observable SNR FA MD
              st1 Hcontract Hphase) as [HpInds [Hobs [Hdet [HMD Hstatus]]]].
  set (obs := map (fun o => (o =? 1)%Z) observable) in *.
  eexists. split; [exact Hstatus|]. split.
  { intros d snr fa st' Hret.
    exact (proj1 (observation_detection_detected sInd t_det mode st pInds
                    observable SNR FA MD st1 _ Hphase Hstatus d snr fa st' Hret)). }
  split.
  { intros p pl Hp. rewrite HpInds, In_planets_of. split.
    - intros [pl' [E H]]. congruence.
    - intros H. eauto. }
  split; [exact Hdet|].
  intros i p pl Hi Hp.
  assert (Hcls : nth_error observable i
                 = Some (classify_one cfg (pl_WA (pl_dyn pl)))).
  { rewrite Hobs. apply (classify_nth st pInds i p pl); try assumption.
    rewrite HpInds. apply planets_of_range. }
  assert (Hobs_i : nth_error obs i
                   = Some (classify_one cfg (pl_WA (pl_dyn pl)) =? 1)%Z).
  { unfold obs. rewrite nth_error_map, Hcls. reflexivity. }
  assert (Hlen : List.length obs = List.length observable).
  { unfold obs. apply length_map. }
  assert (Hcnt : (np.count_true obs
                  <= List.length (map (fun m => if negb m then 1%Z else 0%Z) MD))%nat).
  { rewrite length_map. lia. }
  assert (Hout : forall v, classify_one cfg (pl_WA (pl_dyn pl)) = v ->
                           (v =? 1)%Z = false ->
                 nth_error
                   (if np.any_bool obs
                    then np.assign_mask observable obs
                           (map (fun m => if negb m then 1%Z else 0%Z) MD)
                    else observable) i = Some v).
  { intros v Hv Hne. destruct (np.any_bool obs).
    - rewrite (nth_error_assign_mask observable obs _ i Hlen Hcnt).
      rewrite Hobs_i, Hv, Hne, Hcls, Hv. reflexivity.
    - rewrite Hcls, Hv. reflexivity. }
  unfold classify_one in *.
  split; [|split].
  - intros Hlow. apply Hout; [|reflexivity].
    assert (H1 : Qltb (OWA (OS cfg)) (pl_WA (pl_dyn pl)) = false).
    { apply Qltb_ge. apply Qlt_le_weak. eapply Qlt_le_trans; eauto. }
    assert (H2 : Qltb (pl_WA (pl_dyn pl)) (IWA (OS cfg)) = true)
      by (now apply Qltb_lt).
    rewrite H1, H2. reflexivity.
  - intros Hhigh. apply Hout; [|reflexivity].
    assert (H1 : Qltb (OWA (OS cfg)) (pl_WA (pl_dyn pl)) = true)
      by (now apply Qltb_lt).
    rewrite H1. reflexivity.
  - intros Hge Hle.
    assert (H1 : Qltb (OWA (OS cfg)) (pl_WA (pl_dyn pl)) = false)
      by (now apply Qltb_ge).
    assert (H2 : Qltb (pl_WA (pl_dyn pl)) (IWA (OS cfg)) = false)
      by (now apply Qltb_ge).
    rewrite H1, H2 in Hobs_i. simpl in Hobs_i.
    rewrite (nth_true_any obs i Hobs_i).
    rewrite (nth_error_assign_mask observable obs _ i Hlen Hcnt), Hobs_i.
    pose proof (rank_lt_count obs i Hobs_i) as Hrank.
    destruct (nth_error MD (np.count_true (firstn i obs))) as [missed|] eqn:Hm;
      [|apply nth_error_None in Hm; lia].
    exists missed. split; [reflexivity|].
    rewrite nth_error_map, Hm. simpl. destruct missed; reflexivity.
Qed.

End Detection.

(** A detection observation of star 1 of the fixture: planet 0 lies
    below the inner working angle, planet 1 is in range and not missed. *)
Lemma detection_status_of_planets_witness :
  IWA (OS Fixture.cfg0) <= OWA (OS Fixture.cfg0)
  /\ (forall snr,
        List.length (snd (det_occur Fixture.env0 snr)) = List.length snr)
  /\ exists detected,
       (forall d snr fa st',
          observation_detection Fixture.cfg0 Fixture.env0 (spec_clock true)
            1 5 Fixture.detMode Fixture.st0 = Ok (d, snr, fa, st') ->
          d = detected)
       /\ nth_error detected 0 = Some (-1)%Z
       /\ nth_error detected 1 = Some 1%Z.
Proof.
  assert (Hwf : IWA (OS Fixture.cfg0) <= OWA (OS Fixture.cfg0))
    by (vm_compute; discriminate).
  assert (Hc : forall snr,
             List.length (snd (det_occur Fixture.env0 snr)) = List.length snr)
    by (intros snr; simpl; apply length_map).
  split; [exact Hwf|]. split; [exact Hc|].
  destruct (detection_phase Fixture.cfg0 Fixture.env0 (spec_clock true)
              1 5 Fixture.detMode Fixture.st0)
    as [[[[[pInds observable] SNR] FA] MD] st1] eqn:Hphase.
  destruct (detection_status_of_planets Fixture.cfg0 Fixture.env0
              (spec_clock true) 1 5 Fixture.detMode Fixture.st0
              pInds observable SNR FA MD st1 Hwf Hc Hphase)
    as [detected [_ [Hret [_ [_ Hall]]]]].
  vm_compute in Hphase. injection Hphase as <- <- <- <- <- <-.
  exists detected. split; [exact Hret|]. split.
  - destruct (Hall 0%nat 0%nat (mkPlanet 1 1 (mkDyn 50 20 1 1))
                eq_refl eq_refl) as [Hlow _].
    apply Hlow. vm_compute. reflexivity.
  - destruct (Hall 1%nat 1%nat (mkPlanet 1 1 (mkDyn 500 20 1 2))
                eq_refl eq_refl) as [_ [_ Hin]].
    destruct Hin as [missed [Hm Hd]];
      [vm_compute; discriminate | vm_compute; discriminate |].
    vm_compute in Hm. injection Hm as <-. exact Hd.
Defined.

(** C5 fails on the code.  Star 2 of the fixture has one planet, planet
    2, whose working angle of 2000 mas lies above the outer limit of
    1000 mas, so that no signal-to-noise ratio is computed; the detection
    statistics report a false alarm.  The status array of line 507 is
    [-2], as the claim has it, but the call does not return it: the
    false alarm sets the minimum separation (line 533), the planet of
    minimum separation is looked for among the detected planets (line
    542), there is none, and the call raises ValueError.  Without the
    false alarm the same call returns [-2]. *)
Theorem detection_status_not_returned :
  planets_of 2 (SU Fixture.st0) = [2%nat]
  /\ (exists pl, nth_error (SU Fixture.st0) 2 = Some pl
                 /\ OWA (OS Fixture.cfg0) < pl_WA (pl_dyn pl))
  /\ (exists st1,
        detection_phase Fixture.cfg0 Scenario.env_alarm (spec_clock true)
          2 5 Fixture.detMode Fixture.st0
        = ([2%nat], [(-2)%Z], [], true, [], st1))
  /\ detection_status [(-2)%Z] [] = Ok [(-2)%Z]
  /\ observation_detection Fixture.cfg0 Scenario.env_alarm (spec_clock true)
       2 5 Fixture.detMode Fixture.st0 = Raise ValueError
  /\ (exists st',
        observation_detection Fixture.cfg0 Fixture.env0 (spec_clock true)
          2 5 Fixture.detMode Fixture.st0 = Ok ([(-2)%Z], [], false, st')).
Proof.
  split; [reflexivity|].
  split; [eexists; split; [reflexivity | vm_compute; reflexivity]|].
  split; [eexists; vm_compute; reflexivity|].
  split; [reflexivity|].
  split; [vm_compute; reflexivity|].
  eexists. vm_compute. reflexivity.
Qed.

(** ** Characterization *)

(** The two stores into [characterized[det][tochar][cutoff][kogoodEnd]]
    write into copies: [characterized] itself keeps its zeros. *)
Lemma store_status_zeros (det tochar : list bool) (cutoff : list nat)
  (kogoodEnd char : list bool) (full : list nat) :
  store_status det tochar cutoff kogoodEnd char full
  = repeat 0%Z (List.length det).
Proof. reflexivity. Qed.

Lemma where_from_none {A} (f : A -> bool) (l : list A) : forall k,
  (forall x, In x l -> f x = false) ->
  np.where_from k (map f l) = [].
Proof.
  induction l as [|x l IH]; intros k H; simpl; [reflexivity|].
  rewrite (H x) by now left. apply IH. intros y Hy. apply H. now right.
Qed.

(** With a status array of zeros no counter is incremented. *)
Lemma encode_spectra_zeros (pInds : list Z) (n : nat) (st : Sim) :
  encode_spectra pInds (repeat 0%Z n) st = st.
Proof.
  unfold encode_spectra, np.where_.
  rewrite !where_from_none;
    [reflexivity | |]; intros x Hx; apply repeat_spec in Hx; subst x;
    reflexivity.
Qed.

(** *** What the operations leave alone *)

Lemma ledger_frame_refl (st : Sim) : ledger_frame st st.
Proof. repeat split. Qed.

Lemma ledger_frame_trans (st1 st2 st3 : Sim) :
  ledger_frame st1 st2 -> ledger_frame st2 st3 -> ledger_frame st1 st3.
Proof.
  intros [H1 [H2 H3]] [K1 [K2 K3]]. repeat split; congruence.
Qed.

Lemma map_snd_combine_seq {A} (l : list A) : forall k,
  map snd (combine (seq k (List.length l)) l) = l.
Proof.
  induction l as [|x l IH]; intros k; simpl; [reflexivity|].
  now rewrite IH.
Qed.

Lemma planets_of_stars (sInd : nat) (su : list Planet) :
  planets_of sInd su
  = np.where_ (map (fun s => (s =? sInd)%nat) (map plan2star su)).
Proof. unfold planets_of. now rewrite map_map. Qed.

Lemma planets_of_frame (sInd : nat) (su su' : list Planet) :
  map plan2star su' = map plan2star su ->
  planets_of sInd su' = planets_of sInd su.
Proof. intros H. now rewrite !planets_of_stars, H. Qed.

Section Frames.

Variable cfg : Config.
Variable env : Collaborators.
Variable clk : Clock.

Lemma propag_system_stars (sInd : nat) (t : Q) (su : list Planet) :
  map plan2star (propag_system env sInd t su) = map plan2star su.
Proof.
  unfold propag_system.
  transitivity (map plan2star
                  (map snd (combine (seq 0 (List.length su)) su))).
  - rewrite !map_map. apply map_ext. intros [i p]. simpl.
    destruct (plan2star p =? sInd)%nat; reflexivity.
  - now rewrite map_snd_combine_seq.
Qed.

Lemma calc_signal_noise_frame (sInd : nat) (pInds : list nat) (t : Q)
  (mode : Mode) (st : Sim) :
  ledger_frame st (snd (calc_signal_noise env clk sInd pInds t mode st)).
Proof.
  unfold calc_signal_noise, ledger_frame. simpl.
  repeat split. apply propag_system_stars.
Qed.

Lemma integrate_frame (n : nat) (sInd : nat) (pInds : list nat) (t : Q)
  (mode : Mode) : forall st,
  ledger_frame st (snd (integrate env clk n sInd pInds t mode st)).
Proof.
  induction n as [|n IH]; intros st.
  - apply ledger_frame_refl.
  - rewrite integrate_S.
    pose proof (calc_signal_noise_frame sInd pInds t mode st) as H1.
    destruct (calc_signal_noise env clk sInd pInds t mode st) as [[s nz] st1].
    specialize (IH st1).
    destruct (integrate env clk n sInd pInds t mode st1) as [[Sg Nz] st2].
    simpl in *. eapply ledger_frame_trans; eauto.
Qed.

Lemma integrate_SNR_frame (sInd : nat) (pInds : list nat) (t : Q)
  (mode : Mode) (st : Sim) :
  ledger_frame st (snd (integrate_SNR cfg env clk sInd pInds t mode st)).
Proof.
  unfold integrate_SNR.
  pose proof (integrate_frame (nt_flux cfg) sInd pInds
                (t / inject_Z (Z.of_nat (nt_flux cfg))) mode st) as H.
  destruct (integrate env clk (nt_flux cfg) sInd pInds _ mode st)
    as [[Sg Nz] st'].
  exact H.
Qed.

Lemma allocate_frame (dt : Q) (st : Sim) : ledger_frame st (allocate clk dt st).
Proof. repeat split. Qed.

Lemma next_target_pass_frame (old_sInd : option nat) (mode : Mode) (st : Sim) :
  match next_target_pass cfg env clk old_sInd mode st with
  | Found st' _ _ _ => ledger_frame st st'
  | Retry st' => ledger_frame st st'
  end.
Proof.
  unfold next_target_pass.
  destruct (candidates cfg env old_sInd mode st) as [[slewTime t_dets] sInds].
  destruct (np.any_nat sInds); repeat split.
Qed.

Lemma next_target_loop_frame (fuel : nat) (old_sInd : option nat)
  (mode : Mode) : forall st st' r,
  next_target_loop cfg env clk fuel old_sInd mode st = Some (st', r) ->
  ledger_frame st st'.
Proof.
  induction fuel as [|fuel IH]; intros st st' r; simpl; [discriminate|].
  destruct (TK_mission_is_over clk (TK st)).
  - intros H. injection H as <- _. apply ledger_frame_refl.
  - pose proof (next_target_pass_frame old_sInd mode st) as Hp.
    destruct (next_target_pass cfg env clk old_sInd mode st)
      as [st1 s1 t1 sl1 | st1].
    + intros H. injection H as <- _. exact Hp.
    + intros H. eapply ledger_frame_trans; [exact Hp | eapply IH; eauto].
Qed.

Lemma next_target_frame (fuel : nat) (old_sInd : option nat) (mode : Mode)
  (st st' : Sim) r :
  next_target cfg env clk fuel old_sInd mode st = Some (st', r) ->
  ledger_frame st st'.
Proof.
  unfold next_target.
  destruct (next_target_loop cfg env clk fuel old_sInd mode
              (allocate clk (settlingTime cfg + ohTime mode) st))
    as [[st1 [[[s1 t1] sl1]|]]|] eqn:Hloop; try discriminate.
  - apply next_target_loop_frame in Hloop.
    assert (H1 : ledger_frame st st1).
    { eapply ledger_frame_trans; [apply allocate_frame | exact Hloop]. }
    destruct (haveOcculter (OS cfg)).
    + destruct (TK_mission_is_over clk _); intros H; injection H as <- _;
        (eapply ledger_frame_trans; [exact H1 | apply allocate_frame]).
    + intros H. injection H as <- _. exact H1.
  - apply next_target_loop_frame in Hloop.
    intros H. injection H as <- _.
    eapply ledger_frame_trans; [apply allocate_frame | exact Hloop].
Qed.

Lemma detection_phase_frame (sInd : nat) (t_det : Q) (mode : Mode) (st : Sim)
  (pInds : list nat) (observable : list Z) (SNR : list Q) (FA : bool)
  (MD : list bool) (st1 : Sim) :
  detection_phase cfg env clk sInd t_det mode st
    = (pInds, observable, SNR, FA, MD, st1) ->
  ledger_frame st st1
  /\ pInds = planets_of sInd (SU st)
  /\ List.length observable = List.length pInds.
Proof.
  unfold detection_phase.
  set (pInds0 := planets_of sInd (SU st)).
  set (observable0 := classify cfg st pInds0).
  destruct (np.any_bool (map (fun o => (o =? 1)%Z) observable0)).
  - pose proof (integrate_SNR_frame sInd
                  (np.select pInds0 (map (fun o => (o =? 1)%Z) observable0))
                  t_det mode st) as Hf.
    destruct (integrate_SNR cfg env clk sInd _ t_det mode st) as [SNR0 st'].
    destruct (det_occur env SNR0) as [FA0 MD0].
    intros H. injection H as <- <- <- <- <- <-.
    split; [|split; [reflexivity | apply length_classify]].
    eapply ledger_frame_trans; [exact Hf | apply allocate_frame].
  - destruct (det_occur env []) as [FA0 MD0].
    intros H. injection H as <- <- <- <- <- <-.
    split; [apply allocate_frame | split; [reflexivity | apply length_classify]].
Qed.

Lemma detection_status_length (observable : list Z) (MD : list bool)
  (detected : list Z) :
  detection_status observable MD = Ok detected ->
  List.length detected = List.length observable.
Proof.
  unfold detection_status, setitem_mask.
  destruct (np.any_bool _).
  - destruct (_ =? _)%nat.
    + intros H. injection H as <-. apply length_assign_mask.
    + destruct (map _ MD) as [|v [|v' l]]; try discriminate.
      intros H. injection H as <-. apply length_fill_mask.
  - intros H. injection H as <-. reflexivity.
Qed.

Lemma last_app_true (l : list bool) : last (l ++ [true]) false = true.
Proof. apply last_last. Qed.

(** A detection leaves the counters and the stars of the planets alone
    and writes the row of its star in [lastDetected]. *)
Lemma observation_detection_ledger (sInd : nat) (t_det : Q) (mode : Mode)
  (st : Sim) (d : list Z) (snr : list Q) (fa : bool) (st' : Sim) :
  observation_detection cfg env clk sInd t_det mode st = Ok (d, snr, fa, st') ->
  fullSpectra st' = fullSpectra st
  /\ map plan2star (SU st') = map plan2star (SU st)
  /\ exists snap,
       (List.length (ld_det snap) = List.length (planets_of sInd (SU st))
        \/ (List.length (ld_det snap) = S (List.length (planets_of sInd (SU st)))
            /\ last (ld_det snap) false = true))
       /\ forall s',
            nth_error (lastDetected st') s'
            = if (sInd =? s')%nat then Some (Some snap)
              else nth_error (lastDetected st) s'.
Proof.
  unfold observation_detection.
  destruct (detection_phase cfg env clk sInd t_det mode st)
    as [[[[[pInds observable] SNR] FA] MD] st1] eqn:Hphase.
  destruct (detection_phase_frame sInd t_det mode st _ _ _ _ _ _ Hphase)
    as [[Hfs [Hstars Hld]] [HpInds Hlen]].
  destruct (detection_status observable MD) as [detected|err] eqn:Hstatus;
    [|discriminate].
  apply detection_status_length in Hstatus.
  unfold bind at 1.
  destruct (sInd <? List.length (lastDetected st1))%nat eqn:Hin; [|discriminate].
  unfold bind at 1.
  assert (Hdet : List.length (map (fun x => (x =? 1)%Z) detected)
                 = List.length (planets_of sInd (SU st))).
  { rewrite length_map. congruence. }
  assert (Hup : forall (row : option Snapshot) s',
            nth_error (np.upd (lastDetected st1) sInd row) s'
            = if (sInd =? s')%nat then Some row
              else nth_error (lastDetected st) s').
  { intros row s'. rewrite nth_error_upd, Hin, andb_true_r, Hld. reflexivity. }
  destruct FA.
  - match goal with
    | |- bind ?e _ = _ -> _ => destruct e as [t_rev|err]
    end; [|discriminate].
    simpl. intros H. injection H as _ _ _ <-. simpl.
    split; [exact Hfs|]. split; [exact Hstars|].
    eexists. split; cycle 1.
    + intros s'. rewrite nth_error_upd, length_upd, Hin, andb_true_r.
      destruct (sInd =? s')%nat eqn:E; [reflexivity|].
      rewrite Hup, E. reflexivity.
    + right. split; [|apply last_app_true].
      simpl. rewrite length_app, Hdet. simpl. lia.
  - match goal with
    | |- bind ?e _ = _ -> _ => destruct e as [t_rev|err]
    end; [|discriminate].
    simpl. intros H. injection H as _ _ _ <-. simpl.
    split; [exact Hfs|]. split; [exact Hstars|].
    eexists. split; cycle 1.
    + intros s'. apply Hup.
    + left. simpl. exact Hdet.
Qed.

(** A characterization returns zeros for [characterized] and leaves the
    counters, the stars of the planets and [lastDetected] alone. *)
Lemma observation_characterization_ledger (sInd : nat) (mode : Mode)
  (st : Sim) (c : list Z) (snr : list Q) (t : Q) (st' : Sim) :
  observation_characterization cfg env clk sInd mode st = Ok (c, snr, t, st') ->
  ledger_frame st st'
  /\ exists snap,
       nth_error (lastDetected st) sInd = Some (Some snap)
       /\ c = repeat 0%Z (List.length (ld_det snap)).
Proof.
  unfold observation_characterization.
  destruct (nth_error (lastDetected st) sInd) as [[snap|]|]; try discriminate.
  unfold bind.
  assert (Hdone : forall (st1 : Sim) (snr1 : list Q) (t1 : Q),
             ledger_frame st st1 ->
             Ok (repeat 0%Z (List.length (ld_det snap)), snr1, t1, st1)
               = Ok (c, snr, t, st') ->
             ledger_frame st st'
             /\ exists snap0,
                  Some (Some snap) = Some (Some snap0)
                  /\ c = repeat 0%Z (List.length (ld_det snap0))).
  { intros st1 snr1 t1 Hf H. injection H as <- _ _ <-.
    split; [exact Hf | exists snap; split; reflexivity]. }
  destruct (negb (np.any_Z (char_pInds sInd (ld_det snap) st))).
  { apply Hdone, ledger_frame_refl. }
  destruct (keepout env sInd (TimeKeeping.currentTimeAbs (TK st))
            && np.any_bool _);
    [|apply Hdone, ledger_frame_refl].
  set (st1 := set_SU _ st).
  assert (H1 : ledger_frame st st1).
  { repeat split. apply propag_system_stars. }
  destruct (np.any_bool (map _ _)); [|apply Hdone, H1].
  match goal with
  | |- context [integrate_SNR cfg env clk sInd ?pl ?tc mode st1] =>
      pose proof (integrate_SNR_frame sInd pl tc mode st1) as H2;
      destruct (integrate_SNR cfg env clk sInd pl tc mode st1) as [SNR0 st2]
  end.
  simpl in H2.
  assert (H3 : forall dt, ledger_frame st (allocate clk dt st2)).
  { intros dt. eapply ledger_frame_trans; [exact H1|].
    eapply ledger_frame_trans; [exact H2 | apply allocate_frame]. }
  destruct (np.any_Q _); [|apply Hdone, H3].
  destruct (np.any_bool _); [|apply Hdone, H3].
  rewrite store_status_zeros, encode_spectra_zeros.
  apply Hdone, H3.
Qed.

End Frames.

(** *** The full-spectrum counters *)

Lemma take_py_in_range {A} (d : A) (a : list A) (idx : list Z) :
  Forall (fun i => (0 <= i < Z.of_nat (List.length a))%Z) idx ->
  take_py a idx = map (fun i => nth (Z.to_nat i) a d) idx.
Proof.
  induction 1 as [|i idx Hi _ IH]; [reflexivity|].
  change (take_py a (i :: idx))
    with ((match py_index (List.length a) i with
           | Some k => match nth_error a k with
                       | Some x => [x]
                       | None => []
                       end
           | None => []
           end) ++ take_py a idx).
  rewrite IH. unfold py_index.
  destruct (0 <=? i)%Z eqn:E0; [|apply Z.leb_gt in E0; lia].
  assert (Hlt : (Z.to_nat i < List.length a)%nat) by lia.
  apply Nat.ltb_lt in Hlt. rewrite Hlt.
  apply Nat.ltb_lt in Hlt.
  destruct (nth_error a (Z.to_nat i)) as [x|] eqn:E;
    [|apply nth_error_None in E; lia].
  simpl. now rewrite (nth_error_nth _ _ d E).
Qed.

Lemma select_app {A} (a : list A) : forall (b : list A) (m m' : list bool),
  List.length m = List.length a ->
  np.select (a ++ b) (m ++ m') = np.select a m ++ np.select b m'.
Proof.
  induction a as [|x a IH]; intros b [|c m] m' Hlen; simpl in *;
    try discriminate; [reflexivity|].
  destruct c; rewrite IH by lia; reflexivity.
Qed.

Section Spectra.

Variable cfg : Config.
Variable env : Collaborators.
Variable clk : Clock.

Lemma spectra_inv_init (tk : TimeKeeping.t) (su : list Planet) (m : Q) :
  spectra_inv (run_sim_init cfg tk su m).
Proof.
  unfold spectra_inv, run_sim_init. simpl. split; [apply repeat_length|].
  split.
  - apply Forall_forall. intros c Hc. apply repeat_spec in Hc. subst c. lia.
  - intros sInd snap H. apply nth_error_In, repeat_spec in H. discriminate.
Qed.

Lemma spectra_inv_frame (st st' : Sim) :
  ledger_frame st st' -> spectra_inv st -> spectra_inv st'.
Proof.
  intros [Hfs [Hstars Hld]] [Hlen [Hrange Hrows]].
  unfold spectra_inv. rewrite Hfs, Hld.
  split; [|split; [exact Hrange|]].
  - rewrite Hlen, <- (length_map plan2star (SU st)), <- Hstars.
    apply length_map.
  - intros sInd snap H. rewrite (planets_of_frame sInd _ _ Hstars).
    now apply Hrows.
Qed.

(** Every operation keeps the invariant and the counters. *)
Lemma sim_op_spectra (st st' : Sim) :
  spectra_inv st -> sim_op cfg env clk st st' ->
  spectra_inv st' /\ fullSpectra st' = fullSpectra st.
Proof.
  intros Hinv Hop. destruct Hop as [fuel old mode st st' r H
                                   | sInd t_det mode st d snr fa st' H
                                   | sInd mode st c snr t st' H].
  - apply next_target_frame in H.
    split; [eapply spectra_inv_frame; eauto | apply H].
  - apply observation_detection_ledger in H.
    destruct H as [Hfs [Hstars [snap [Hsnap Hrow]]]].
    split; [|exact Hfs].
    destruct Hinv as [Hlen [Hrange Hrows]].
    unfold spectra_inv. rewrite Hfs.
    split; [|split; [exact Hrange|]].
    + rewrite Hlen, <- (length_map plan2star (SU st)), <- Hstars.
      apply length_map.
    + intros s' snap' H'. rewrite (planets_of_frame s' _ _ Hstars).
      rewrite Hrow in H'.
      destruct (sInd =? s')%nat eqn:E.
      * apply Nat.eqb_eq in E. subst s'. injection H' as <-. exact Hsnap.
      * now apply Hrows.
  - apply observation_characterization_ledger in H.
    destruct H as [Hf _].
    split; [eapply spectra_inv_frame; eauto | apply Hf].
Qed.

(** The states of a run started by [run_sim] satisfy the invariant, and
    their counters are those of the start. *)
Lemma reachable_spectra (tk : TimeKeeping.t) (su : list Planet) (m : Q)
  (st : Sim) :
  reachable cfg env clk (run_sim_init cfg tk su m) st ->
  spectra_inv st
  /\ fullSpectra st = fullSpectra (run_sim_init cfg tk su m).
Proof.
  induction 1 as [|st st' _ [IHinv IHfs] Hop].
  - split; [apply spectra_inv_init | reflexivity].
  - destruct (sim_op_spectra st st' IHinv Hop) as [Hinv Hfs].
    split; [exact Hinv | congruence].
Qed.

(** A planet whose counter is 1 is not among [pIndsDet[tochar]]. *)
Lemma full_not_candidate (st : Sim) (sInd : nat) (snap : Snapshot) (p : nat) :
  spectra_inv st ->
  nth_error (lastDetected st) sInd = Some (Some snap) ->
  (1 <= nth p (fullSpectra st) 0)%Z ->
  ~ In (Z.of_nat p) (tochar_candidates sInd snap st).
Proof.
  intros [Hlen [Hrange Hrows]] Hrow Hp.
  assert (Hone : nth p (fullSpectra st) 0%Z = 1%Z).
  { destruct (Nat.lt_ge_cases p (List.length (fullSpectra st))) as [Hlt|Hge].
    - rewrite Forall_forall in Hrange.
      pose proof (Hrange _ (nth_In _ 0%Z Hlt)). lia.
    - rewrite nth_overflow in Hp by exact Hge. lia. }
  set (g := fun i : Z => negb (nth (Z.to_nat i) (fullSpectra st) 0 =? 1)%Z).
  assert (Hg : g (Z.of_nat p) = false).
  { unfold g. rewrite Nat2Z.id, Hone. reflexivity. }
  set (P := map Z.of_nat (planets_of sInd (SU st))).
  assert (HPrange : forall m i, In i (np.select P m) ->
                      (0 <= i < Z.of_nat (List.length (fullSpectra st)))%Z).
  { intros m i Hi. apply select_incl in Hi. unfold P in Hi.
    apply in_map_iff in Hi. destruct Hi as [q [<- Hq]].
    pose proof (planets_of_range sInd (SU st)) as Hr.
    rewrite Forall_forall in Hr. specialize (Hr q Hq). lia. }
  assert (Hmask : forall m,
            map (fun v => negb (v =? 1)%Z) (take_py (fullSpectra st) (np.select P m))
            = map g (np.select P m)).
  { intros m. rewrite (take_py_in_range 0%Z).
    - rewrite map_map. reflexivity.
    - apply Forall_forall. intros i Hi. eapply HPrange; eauto. }
  assert (Hnot : forall m, ~ In (Z.of_nat p) (filter g (np.select P m))).
  { intros m Hin. apply filter_In in Hin. destruct Hin as [_ Hin]. congruence. }
  unfold tochar_candidates, char_pInds.
  rewrite (length_map Z.of_nat (planets_of sInd (SU st))). fold P.
  destruct (Hrows sInd snap Hrow) as [Hn | [Hn Hlast]].
  - assert (HFA : (List.length (ld_det snap)
                   =? List.length (planets_of sInd (SU st)) + 1)%nat = false).
    { apply Nat.eqb_neq. lia. }
    rewrite HFA. unfold tochar_mask. simpl negb. cbv iota.
    rewrite Hmask, select_map_filter. apply Hnot.
  - assert (HFA : (List.length (ld_det snap)
                   =? List.length (planets_of sInd (SU st)) + 1)%nat = true).
    { apply Nat.eqb_eq. lia. }
    rewrite HFA.
    assert (Hne : ld_det snap <> []).
    { intros E. rewrite E in Hn. discriminate. }
    pose proof (app_removelast_last false Hne) as Hsplit.
    rewrite Hlast in Hsplit.
    set (det' := removelast (ld_det snap)) in *.
    assert (Hlen' : List.length det' = List.length P).
    { unfold P. rewrite length_map.
      assert (Hl : List.length (ld_det snap) = S (List.length det')).
      { rewrite Hsplit at 1. rewrite length_app. simpl. lia. }
      lia. }
    rewrite Hsplit, (select_app P [(-1)%Z] det' [true] Hlen'). simpl np.select.
    unfold tochar_mask. simpl negb. cbv iota.
    destruct (1 <? List.length (np.select P det' ++ [(-1)%Z]))%nat eqn:E1.
    + rewrite removelast_last, Hmask.
      rewrite (select_app (np.select P det') [(-1)%Z] (map g (np.select P det'))
                 [true]) by apply length_map.
      rewrite select_map_filter. simpl np.select.
      intros Hin. apply in_app_or in Hin. destruct Hin as [Hin | [Hin | []]].
      * exact (Hnot det' Hin).
      * lia.
    + apply Nat.ltb_ge in E1. rewrite length_app in E1. simpl in E1.
      destruct (np.select P det') as [|i l]; simpl in *; [|lia].
      intros [Hin | []]. lia.
Qed.

(** C7.  From any state that satisfies the invariant of a run (as the
    state [run_sim] starts from does), through any sequence of operations
    of the simulation: no full-spectrum counter decreases, and a planet
    whose counter is at least 1 is not among the planets [pIndsDet[tochar]]
    that a later [observation_characterization] considers, whatever the
    star and its row of [lastDetected]. *)
Theorem fullSpectra_monotone_exclusive (st st' : Sim) :
  spectra_inv st ->
  reachable cfg env clk st st' ->
  spectra_inv st'
  /\ (forall p, (nth p (fullSpectra st) 0 <= nth p (fullSpectra st') 0)%Z)
  /\ (forall sInd snap p,
        nth_error (lastDetected st') sInd = Some (Some snap) ->
        (1 <= nth p (fullSpectra st) 0)%Z ->
        ~ In (Z.of_nat p) (tochar_candidates sInd snap st')).
Proof.
  intros Hinv Hreach.
  assert (H : spectra_inv st' /\ fullSpectra st' = fullSpectra st).
  { induction Hreach as [|st1 st2 _ IH Hop].
    - split; [exact Hinv | reflexivity].
    - destruct IH as [Hinv1 Hfs1].
      destruct (sim_op_spectra st1 st2 Hinv1 Hop) as [Hinv2 Hfs2].
      split; [exact Hinv2 | congruence]. }
  destruct H as [Hinv' Hfs].
  split; [exact Hinv'|]. split.
  - intros p. rewrite Hfs. lia.
  - intros sInd snap p Hrow Hp. apply full_not_candidate; try assumption.
    now rewrite Hfs.
Qed.

End Spectra.

(** Star 1 of the fixture with the full spectrum of its planet 1 taken:
    a further characterization leaves the state as it is and does not
    consider the planet. *)
Lemma fullSpectra_monotone_exclusive_witness :
  spectra_inv Fixture.st_full
  /\ reachable Fixture.cfg0 Fixture.env0 (spec_clock true)
       Fixture.st_full Fixture.st_full
  /\ (1 <= nth 1 (fullSpectra Fixture.st_full) 0)%Z
  /\ ~ In 1%Z (tochar_candidates 1
                 (mkSnap [false; true] [1; 1] [20; 20] [50; 500])
                 Fixture.st_full).
Proof.
  assert (Hinv : spectra_inv Fixture.st_full).
  { split; [reflexivity|]. split.
    - repeat constructor; discriminate.
    - intros sInd snap H.
      destruct sInd as [|[|[|sInd]]]; simpl in H; try discriminate.
      + injection H as <-. left. reflexivity.
      + destruct sInd; discriminate. }
  assert (Hop : observation_characterization Fixture.cfg0 Fixture.env0
                  (spec_clock true) 1 Fixture.charMode Fixture.st_full
                = Ok ([0; 0]%Z, [], 0, Fixture.st_full))
    by (vm_compute; reflexivity).
  assert (Hreach : reachable Fixture.cfg0 Fixture.env0 (spec_clock true)
                     Fixture.st_full Fixture.st_full).
  { eapply reach_op; [apply reach_init|].
    eapply op_characterization. exact Hop. }
  assert (Hp : (1 <= nth 1 (fullSpectra Fixture.st_full) 0)%Z)
    by (vm_compute; discriminate).
  split; [exact Hinv|]. split; [exact Hreach|]. split; [exact Hp|].
  destruct (fullSpectra_monotone_exclusive Fixture.cfg0 Fixture.env0
              (spec_clock true) Fixture.st_full Fixture.st_full Hinv Hreach)
    as [_ [_ Hex]].
  exact (Hex 1%nat (mkSnap [false; true] [1; 1] [20; 20] [50; 500]) 1%nat
           eq_refl Hp).
Defined.

(** C6 fails on the code.  Star 1 of the fixture after the detection of
    its planet 1: the characterization integrates for five days, the
    signal-to-noise ratio of planet 1 is 100, above the threshold 10 of
    the mode, and its working angle, 500 mas, lies strictly inside the
    margins 110 and 900; the returned status of the planet is 0 all the
    same, not 1, and no counter moves. *)
Theorem characterization_status_lost :
  exists st',
    observation_characterization Fixture.cfg0 Fixture.env0 (spec_clock true)
      1 Fixture.charMode Fixture.st_detected
    = Ok ([0; 0]%Z, [500 # 5], 5, st')
    /\ mode_SNR Fixture.charMode < 500 # 5
    /\ IWA (OS Fixture.cfg0) * (1 + BW Fixture.charMode / 2) < 500
    /\ 500 < OWA (OS Fixture.cfg0) * (1 - BW Fixture.charMode / 2)
    /\ fullSpectra st' = [0; 0; 0; 0]%Z
    /\ partialSpectra st' = [0; 0; 0; 0]%Z.
Proof.
  eexists. split; [vm_compute; reflexivity|].
  repeat split; vm_compute; reflexivity.
Qed.

(** ** The return of allocate_time *)

Section ReturnUnused.

Variable cfg : Config.
Variable env : Collaborators.
Variables clk1 clk2 : Clock.

Hypothesis same_clock :
  forall dt tk,
    snd (TK_allocate_time clk1 dt tk) = snd (TK_allocate_time clk2 dt tk).
Hypothesis same_over :
  forall tk, TK_mission_is_over clk1 tk = TK_mission_is_over clk2 tk.

Lemma allocate_eq (dt : Q) (st : Sim) : allocate clk1 dt st = allocate clk2 dt st.
Proof. unfold allocate. now rewrite same_clock. Qed.

Lemma calc_signal_noise_eq (sInd : nat) (pInds : list nat) (t : Q)
  (mode : Mode) (st : Sim) :
  calc_signal_noise env clk1 sInd pInds t mode st
  = calc_signal_noise env clk2 sInd pInds t mode st.
Proof.
  unfold calc_signal_noise. cbv zeta. rewrite !allocate_eq. reflexivity.
Qed.

Lemma integrate_eq (n : nat) (sInd : nat) (pInds : list nat) (t : Q)
  (mode : Mode) : forall st,
  integrate env clk1 n sInd pInds t mode st
  = integrate env clk2 n sInd pInds t mode st.
Proof.
  induction n as [|n IH]; intros st; [reflexivity|].
  rewrite !integrate_S, calc_signal_noise_eq.
  destruct (calc_signal_noise env clk2 sInd pInds t mode st) as [[s nz] st1].
  now rewrite IH.
Qed.

Lemma integrate_SNR_eq (sInd : nat) (pInds : list nat) (t : Q) (mode : Mode)
  (st : Sim) :
  integrate_SNR cfg env clk1 sInd pInds t mode st
  = integrate_SNR cfg env clk2 sInd pInds t mode st.
Proof. unfold integrate_SNR. now rewrite integrate_eq. Qed.

Lemma detection_phase_eq (sInd : nat) (t_det : Q) (mode : Mode) (st : Sim) :
  detection_phase cfg env clk1 sInd t_det mode st
  = detection_phase cfg env clk2 sInd t_det mode st.
Proof.
  unfold detection_phase. cbv zeta.
  destruct (np.any_bool _).
  - rewrite integrate_SNR_eq.
    destruct (integrate_SNR cfg env clk2 sInd _ t_det mode st) as [SNR0 st'].
    now rewrite allocate_eq.
  - now rewrite allocate_eq.
Qed.

Lemma observation_detection_eq (sInd : nat) (t_det : Q) (mode : Mode)
  (st : Sim) :
  observation_detection cfg env clk1 sInd t_det mode st
  = observation_detection cfg env clk2 sInd t_det mode st.
Proof. unfold observation_detection. now rewrite detection_phase_eq. Qed.

Lemma observation_characterization_eq (sInd : nat) (mode : Mode) (st : Sim) :
  observation_characterization cfg env clk1 sInd mode st
  = observation_characterization cfg env clk2 sInd mode st.
Proof.
  unfold observation_characterization.
  destruct (nth_error (lastDetected st) sInd) as [[snap|]|]; try reflexivity.
  unfold bind. cbv zeta. rewrite integrate_SNR_eq.
  match goal with
  | |- context [integrate_SNR cfg env clk2 sInd ?pl ?tc mode ?s1] =>
      destruct (integrate_SNR cfg env clk2 sInd pl tc mode s1) as [SNR0 st2]
  end.
  now rewrite allocate_eq.
Qed.

Lemma next_target_pass_eq (old_sInd : option nat) (mode : Mode) (st : Sim) :
  next_target_pass cfg env clk1 old_sInd mode st
  = next_target_pass cfg env clk2 old_sInd mode st.
Proof.
  unfold next_target_pass.
  destruct (candidates cfg env old_sInd mode st) as [[slewTime t_dets] sInds].
  now rewrite allocate_eq.
Qed.

Lemma next_target_loop_eq (fuel : nat) (old_sInd : option nat) (mode : Mode) :
  forall st,
  next_target_loop cfg env clk1 fuel old_sInd mode st
  = next_target_loop cfg env clk2 fuel old_sInd mode st.
Proof.
  induction fuel as [|fuel IH]; intros st; simpl; [reflexivity|].
  rewrite same_over, next_target_pass_eq.
  destruct (TK_mission_is_over clk2 (TK st)); [reflexivity|].
  destruct (next_target_pass cfg env clk2 old_sInd mode st); [reflexivity|].
  apply IH.
Qed.

Lemma next_target_eq (fuel : nat) (old_sInd : option nat) (mode : Mode)
  (st : Sim) :
  next_target cfg env clk1 fuel old_sInd mode st
  = next_target cfg env clk2 fuel old_sInd mode st.
Proof.
  unfold next_target. cbv zeta. rewrite allocate_eq, next_target_loop_eq.
  destruct (next_target_loop cfg env clk2 fuel old_sInd mode _)
    as [[st1 [[[s1 t1] sl1]|]]|]; try reflexivity.
  now rewrite allocate_eq, same_over.
Qed.

(** C8, as the code has it.  No call of [allocate_time] in the core looks
    at the boolean it returns: [next_target], [calc_signal_noise],
    [observation_detection] and [observation_characterization] behave the
    same under two clocks that leave the same clock state and agree on
    [mission_is_over], whatever booleans their [allocate_time] return; a
    caller goes on from the clock the call left, after a failure as after
    a success. *)
Theorem allocate_time_return_unused :
  (forall fuel old_sInd mode st,
     next_target cfg env clk1 fuel old_sInd mode st
     = next_target cfg env clk2 fuel old_sInd mode st)
  /\ (forall sInd pInds t mode st,
        calc_signal_noise env clk1 sInd pInds t mode st
        = calc_signal_noise env clk2 sInd pInds t mode st)
  /\ (forall sInd t_det mode st,
        observation_detection cfg env clk1 sInd t_det mode st
        = observation_detection cfg env clk2 sInd t_det mode st)
  /\ (forall sInd mode st,
        observation_characterization cfg env clk1 sInd mode st
        = observation_characterization cfg env clk2 sInd mode st).
Proof.
  split; [exact next_target_eq|]. split; [exact calc_signal_noise_eq|].
  split; [exact observation_detection_eq | exact observation_characterization_eq].
Qed.

End ReturnUnused.

(** The clock of the spec and the clock that reports success every time. *)
Lemma allocate_time_return_unused_witness :
  (forall dt tk,
     snd (TK_allocate_time (spec_clock true) dt tk)
     = snd (TK_allocate_time Fixture.clock_reporting_success dt tk))
  /\ (forall tk,
        TK_mission_is_over (spec_clock true) tk
        = TK_mission_is_over Fixture.clock_reporting_success tk)
  /\ next_target Fixture.cfg_settle Fixture.env0 (spec_clock true) 5 None
       Fixture.detMode Fixture.st_lateOB
     = next_target Fixture.cfg_settle Fixture.env0
         Fixture.clock_reporting_success 5 None Fixture.detMode
         Fixture.st_lateOB.
Proof.
  assert (H1 : forall dt tk,
             snd (TK_allocate_time (spec_clock true) dt tk)
             = snd (TK_allocate_time Fixture.clock_reporting_success dt tk))
    by reflexivity.
  assert (H2 : forall tk,
             TK_mission_is_over (spec_clock true) tk
             = TK_mission_is_over Fixture.clock_reporting_success tk)
    by reflexivity.
  split; [exact H1|]. split; [exact H2|].
  exact (proj1 (allocate_time_return_unused Fixture.cfg_settle Fixture.env0
                  (spec_clock true) Fixture.clock_reporting_success H1 H2)
           5%nat None Fixture.detMode Fixture.st_lateOB).
Defined.

(** C8 as stated fails.  Nine days into a block that ends at day 10, the
    two days of settling time do not fit: the allocation at the head of
    [next_target] returns false.  The call goes on all the same: it
    returns star 2 with its five days of integration, on the clock as it
    was, in the same observing block, which is what it returns under the
    clock that reports success. *)
Lemma allocate_time_return_counterexample :
  fst (TK_allocate_time (spec_clock true)
         (settlingTime Fixture.cfg_settle + ohTime Fixture.detMode)
         (TK Fixture.st_lateOB)) = false
  /\ exists st',
       next_target Fixture.cfg_settle Fixture.env0 (spec_clock true) 5 None
         Fixture.detMode Fixture.st_lateOB
       = Some (st', Some (2%nat, 5, 0))
       /\ TK st' = TK Fixture.st_lateOB
       /\ next_target Fixture.cfg_settle Fixture.env0
            Fixture.clock_reporting_success 5 None Fixture.detMode
            Fixture.st_lateOB
          = Some (st', Some (2%nat, 5, 0)).
Proof.
  split; [vm_compute; reflexivity|].
  eexists. split; [vm_compute; reflexivity|].
  split; vm_compute; reflexivity.
Qed.

(** ** The occulter mass *)

(** Whatever the arguments, [update_occulter_mass] raises NameError at
    its first use of [sInd]. *)
Lemma update_occulter_mass_NameError (occ : Occulter) (DRM : list (string * Q))
  (slewTime t_det t_char detBegin charBegin : Q) (st : Sim) :
  update_occulter_mass occ DRM slewTime t_det t_char detBegin charBegin st
  = Raise (NameError "sInd").
Proof. reflexivity. Qed.

(** Were [sInd] bound, the update of the mass by [mass_used_char] would
    raise NameError in its turn. *)
Lemma update_occulter_mass_second_NameError (sInd : nat) (occ : Occulter)
  (DRM : list (string * Q)) (slewTime t_det t_char detBegin charBegin : Q)
  (st : Sim) :
  update_occulter_mass_body (Ok sInd) (Raise (NameError "mass_used_char"))
    occ DRM slewTime t_det t_char detBegin charBegin st
  = Raise (NameError "mass_used_char").
Proof.
  unfold update_occulter_mass_body. simpl.
  destruct (mass_dec occ (fst (distForces occ sInd detBegin)) t_det)
    as [[a b] c].
  destruct (mass_dec occ (fst (distForces occ sInd charBegin)) t_char)
    as [[a' b'] c'].
  reflexivity.
Qed.

(** C9 fails on the code.  A call after an observation of the fixture
    (slew of one day, five days of detection from day 0, five days of
    characterization from day 5): no mass is taken off and no record is
    returned; the call raises NameError for [sInd], and with [sInd] bound
    to the observed star it raises NameError for [mass_used_char] where
    the characterization mass should be taken off. *)
Theorem update_occulter_mass_raises :
  update_occulter_mass Fixture.occ0 [] 1 5 5 0 5 Fixture.st0
  = Raise (NameError "sInd")
  /\ update_occulter_mass_body (Ok 2%nat) (Raise (NameError "mass_used_char"))
       Fixture.occ0 [] 1 5 5 0 5 Fixture.st0
     = Raise (NameError "mass_used_char").
Proof. split; reflexivity. Qed.

(** * Further properties of the code *)

(** ** More on arrays *)

Lemma nth_error_seq_Some (a n i x : nat) :
  nth_error (seq a n) i = Some x -> x = (a + i)%nat /\ (i < n)%nat.
Proof.
  revert a i. induction n as [|n IH]; intros a i H.
  - destruct i; discriminate.
  - destruct i as [|i]; simpl in H.
    + injection H as <-. split; lia.
    + apply IH in H. lia.
Qed.

Lemma combine_map_r {A B} (h : A -> B) (l : list A) :
  combine l (map h l) = map (fun x => (x, h x)) l.
Proof. induction l as [|x l IH]; simpl; [reflexivity | now rewrite IH]. Qed.

Lemma where_from_NoDup (mask : list bool) : forall k,
  NoDup (np.where_from k mask).
Proof.
  induction mask as [|b mask IH]; intros k; simpl; [constructor|].
  destruct b; [|apply IH]. constructor; [|apply IH].
  rewrite In_where_from. lia.
Qed.

Lemma scatter_outside {A} (idx : list nat) : forall (a vals : list A) k,
  ~ In k idx -> nth_error (np.scatter a idx vals) k = nth_error a k.
Proof.
  induction idx as [|j idx IH]; intros a vals k Hk; simpl; [reflexivity|].
  destruct vals as [|v vals]; [reflexivity|].
  rewrite IH by (intros H; apply Hk; now right).
  rewrite nth_error_upd.
  destruct (j =? k)%nat eqn:E; [|reflexivity].
  apply Nat.eqb_eq in E. exfalso. apply Hk. now left.
Qed.

Lemma scatter_at {A} (idx : list nat) : forall (a vals : list A) i k v,
  NoDup idx ->
  nth_error idx i = Some k -> nth_error vals i = Some v ->
  (k < List.length a)%nat ->
  nth_error (np.scatter a idx vals) k = Some v.
Proof.
  induction idx as [|j idx IH]; intros a vals i k v Hnd Hi Hv Hk.
  - destruct i; discriminate.
  - destruct vals as [|v0 vals]; [destruct i; discriminate|].
    inversion Hnd as [|? ? Hnotin Hnd']; subst. simpl.
    destruct i as [|i]; simpl in Hi, Hv.
    + injection Hi as ->. injection Hv as ->.
      rewrite scatter_outside by exact Hnotin.
      rewrite nth_error_upd, Nat.eqb_refl.
      apply Nat.ltb_lt in Hk. now rewrite Hk.
    + apply (IH _ _ i); try assumption. now rewrite length_upd.
Qed.

Lemma fold_max_ge (l : list Q) : forall m,
  m <= fold_left (fun m c => if Qltb m c then c else m) l m
  /\ forall c, In c l ->
       c <= fold_left (fun m c => if Qltb m c then c else m) l m.
Proof.
  induction l as [|x l IH]; intros m; simpl.
  - split; [apply Qle_refl | intros c []].
  - destruct (IH (if Qltb m x then x else m)) as [H1 H2].
    assert (Hm : m <= (if Qltb m x then x else m)).
    { destruct (Qltb m x) eqn:E; [|apply Qle_refl].
      apply Qltb_lt in E. now apply Qlt_le_weak. }
    assert (Hx : x <= (if Qltb m x then x else m)).
    { destruct (Qltb m x) eqn:E; [apply Qle_refl|]. now apply Qltb_ge in E. }
    split; [eapply Qle_trans; eauto|].
    intros c [<- | Hc]; [eapply Qle_trans; eauto | now apply H2].
Qed.

Lemma max_ge (d : Q) (a : list Q) (c : Q) : In c a -> c <= np.max d a.
Proof.
  destruct a as [|x a]; [intros []|]. simpl.
  destruct (fold_max_ge a x) as [H1 H2].
  intros [<- | Hc]; [exact H1 | now apply H2].
Qed.

Lemma set_TK_same (st : Sim) : set_TK (TK st) st = st.
Proof. destruct st; reflexivity. Qed.

(** ** More on target selection *)

Section TargetSelectionMore.

Variable cfg : Config.
Variable env : Collaborators.
Variable clk : Clock.

Lemma slewTimes_length (old_sInd : option nat) (st : Sim) :
  List.length (slewTimes cfg env old_sInd st) = nStars cfg.
Proof.
  unfold slewTimes, np.zeros, all_stars.
  destruct (haveOcculter (OS cfg)); [destruct old_sInd|];
    rewrite ?length_map, ?length_seq, ?repeat_length; reflexivity.
Qed.

Lemma startTimes_nth (slewTime : list Q) (st : Sim) (s : nat) :
  (s < List.length slewTime)%nat ->
  nth s (startTimes slewTime st) 0
  = TimeKeeping.currentTimeAbs (TK st) + nth s slewTime 0.
Proof.
  intros Hs. unfold startTimes.
  destruct (nth_error slewTime s) as [x|] eqn:E;
    [|apply nth_error_None in E; lia].
  rewrite (nth_error_nth _ _ 0 E).
  apply nth_error_nth. rewrite nth_error_map, E. reflexivity.
Qed.

(** 1/ keeps exactly the stars out of keepout at their start time. *)
Lemma filter_start_spec (startTime : list Q) (s : nat) :
  In s (filter_start cfg env startTime) <->
  (s < nStars cfg)%nat /\ keepout env s (nth s startTime 0) = true.
Proof.
  unfold filter_start, all_stars. rewrite In_take. split.
  - intros [i [Hi Hs]]. apply nth_error_seq_Some in Hs.
    destruct Hs as [-> Hlt]. simpl. split; [exact Hlt|].
    apply In_where in Hi. rewrite nth_error_map in Hi.
    destruct (nth_error (seq 0 (nStars cfg)) i) as [x|] eqn:E; [|discriminate].
    apply nth_error_seq_Some in E. destruct E as [-> _].
    simpl in Hi. now injection Hi.
  - intros [Hlt Hk]. exists s.
    assert (Hs : nth_error (seq 0 (nStars cfg)) s = Some s).
    { rewrite (nth_error_nth' _ O) by (now rewrite length_seq).
      now rewrite seq_nth. }
    split; [|exact Hs].
    apply In_where. rewrite nth_error_map, Hs. simpl. now rewrite Hk.
Qed.

(** 3/ keeps only stars out of keepout at their end time. *)
Lemma end_body_spec (startTime t_dets : list Q) (sInds : list nat) (s : nat) :
  In s (end_body env startTime t_dets sInds) ->
  In s sInds
  /\ keepout env s (nth s startTime 0 + nth s t_dets 0) = true.
Proof.
  unfold end_body. rewrite combine_map_r, map_map. simpl.
  rewrite In_take. intros [i [Hi Hs]].
  split; [eapply nth_error_In; eauto|].
  apply In_where in Hi. rewrite nth_error_map, Hs in Hi. simpl in Hi.
  now injection Hi.
Qed.

(** A pass that finds a target, in full. *)
Lemma pass_found_inv (old_sInd : option nat) (mode : Mode) (st st' : Sim)
  (sInd : nat) (t_det : Q) (slewTime : list Q) :
  next_target_pass cfg env clk old_sInd mode st = Found st' sInd t_det slewTime ->
  slewTime = slewTimes cfg env old_sInd st
  /\ st' = set_draws (S (draws st))
             (set_starVisits
                (np.upd (starVisits st) sInd (nth sInd (starVisits st) O + 1)%nat)
                st)
  /\ sInd = choose_best cfg env st (snd (candidates cfg env old_sInd mode st))
  /\ In sInd (snd (candidates cfg env old_sInd mode st))
  /\ (sInd < nStars cfg)%nat
  /\ keepout env sInd
       (TimeKeeping.currentTimeAbs (TK st) + nth sInd slewTime 0) = true
  /\ keepout env sInd
       (TimeKeeping.currentTimeAbs (TK st) + nth sInd slewTime 0 + t_det) = true.
Proof.
  unfold next_target_pass, candidates.
  set (slew := slewTimes cfg env old_sInd st).
  set (startTime := startTimes slew st).
  set (sInds1 := filter_start cfg env startTime).
  destruct (filter_cutoff cfg env mode startTime sInds1) as [t_dets sInds2] eqn:H2.
  set (sInds3 := filter_end env startTime t_dets sInds2).
  set (sInds4 := filter_visits cfg st sInds3).
  simpl snd.
  destruct (np.any_nat sInds4) eqn:Hany4; [|discriminate].
  intros H. injection H as Hst Hs Ht Hslew.
  assert (Hany3 : np.any_nat sInds3 = true).
  { destruct (np.any_nat sInds3) eqn:E; [reflexivity|].
    unfold sInds4, filter_visits in Hany4. rewrite E in Hany4. congruence. }
  assert (Hany2 : np.any_nat sInds2 = true).
  { destruct (np.any_nat sInds2) eqn:E; [reflexivity|].
    unfold sInds3, filter_end in Hany3. rewrite E in Hany3. congruence. }
  assert (Hany1 : np.any_nat sInds1 = true).
  { destruct (np.any_nat sInds1) eqn:E; [reflexivity|].
    unfold filter_cutoff in H2. rewrite E in H2. injection H2 as _ H2.
    congruence. }
  assert (Hrange : Forall (fun i => (i < nStars cfg)%nat) sInds4).
  { apply Forall_forall. intros i Hi.
    unfold sInds4, filter_visits in Hi. rewrite Hany3 in Hi.
    apply where_lt in Hi. now rewrite length_tovisit in Hi. }
  assert (Hin4 : In sInd sInds4).
  { rewrite <- Hs. apply choose_best_In; [|exact Hrange].
    now apply any_nat_nonempty. }
  assert (Hlt : (sInd < nStars cfg)%nat).
  { rewrite Forall_forall in Hrange. now apply Hrange. }
  assert (Hin3 : In sInd sInds3) by (now apply (filter_visits_incl cfg st)).
  unfold sInds3, filter_end in Hin3. rewrite Hany2 in Hin3.
  apply end_body_spec in Hin3. destruct Hin3 as [Hin2 Hend].
  assert (Hin1 : In sInd sInds1).
  { unfold filter_cutoff in H2. rewrite Hany1 in H2.
    unfold cutoff_body in H2. injection H2 as _ H2. rewrite <- H2 in Hin2.
    apply In_where in Hin2. rewrite !nth_error_map in Hin2.
    destruct (nth_error _ sInd) as [t|] eqn:E in Hin2; [|discriminate].
    simpl in Hin2. injection Hin2 as Hb.
    apply andb_true_iff in Hb. destruct Hb as [Hpos _].
    apply Qltb_lt in Hpos.
    destruct (in_dec Nat.eq_dec sInd sInds1) as [Hin|Hout]; [exact Hin|].
    rewrite scatter_outside in E by exact Hout.
    apply nth_error_In, repeat_spec in E. subst t.
    exfalso. revert Hpos. rewrite Qmult_0_l. apply Qlt_irrefl. }
  apply filter_start_spec in Hin1. destruct Hin1 as [_ Hstart].
  assert (Hnth : nth sInd startTime 0
                 = TimeKeeping.currentTimeAbs (TK st) + nth sInd slew 0).
  { apply startTimes_nth. unfold slew. now rewrite slewTimes_length. }
  rewrite Hnth in Hstart, Hend.
  subst slewTime st' t_det. rewrite Hs in *.
  repeat split; try assumption; try reflexivity.
Qed.

Lemma books_frame_refl (st : Sim) : books_frame st st.
Proof. repeat split. Qed.

Lemma books_frame_trans (st1 st2 st3 : Sim) :
  books_frame st1 st2 -> books_frame st2 st3 -> books_frame st1 st3.
Proof.
  unfold books_frame. intros H K.
  decompose [and] H. decompose [and] K. repeat split; congruence.
Qed.

Lemma allocate_books (dt : Q) (st : Sim) : books_frame st (allocate clk dt st).
Proof. repeat split. Qed.

Lemma allocate_SU (dt : Q) (st : Sim) : SU (allocate clk dt st) = SU st.
Proof. reflexivity. Qed.

(** What the loop of [next_target] ends with: "mission complete" in a
    state where the mission is over, or a target found by a pass that
    started while the mission was not over. *)
Lemma loop_inv (fuel : nat) (old_sInd : option nat) (mode : Mode) :
  forall st st' r,
  next_target_loop cfg env clk fuel old_sInd mode st = Some (st', r) ->
  match r with
  | None =>
      TK_mission_is_over clk (TK st') = true
      /\ books_frame st st' /\ SU st' = SU st
  | Some (sInd, t_det, slewTime) =>
      exists st_p,
        books_frame st st_p /\ SU st_p = SU st
        /\ TK_mission_is_over clk (TK st_p) = false
        /\ next_target_pass cfg env clk old_sInd mode st_p
           = Found st' sInd t_det slewTime
  end.
Proof.
  induction fuel as [|fuel IH]; intros st st' r; simpl; [discriminate|].
  destruct (TK_mission_is_over clk (TK st)) eqn:Hover.
  - intros H. injection H as <- <-.
    split; [exact Hover | split; [apply books_frame_refl | reflexivity]].
  - destruct (next_target_pass cfg env clk old_sInd mode st)
      as [st1 s1 t1 sl1 | st1] eqn:Hpass.
    + intros H. injection H as <- <-.
      exists st. split; [apply books_frame_refl|].
      split; [reflexivity|]. split; assumption.
    + intros H.
      assert (Hst1 : st1 = allocate clk (TimeKeeping.dtAlloc (TK st)) st).
      { unfold next_target_pass in Hpass.
        destruct (candidates cfg env old_sInd mode st) as [[a b] c].
        destruct (np.any_nat c); [discriminate | now injection Hpass]. }
      specialize (IH st1 st' r H). subst st1.
      destruct r as [[[sInd t_det] slewTime]|].
      * destruct IH as [st_p [Hb [Hsu [Hov Hp]]]].
        exists st_p. split; [exact Hb|]. split; [exact Hsu|].
        split; assumption.
      * destruct IH as [Hov [Hb Hsu]].
        split; [exact Hov|]. split; [exact Hb | exact Hsu].
Qed.

(** What [next_target] returns, in full. *)
Lemma next_target_inv (fuel : nat) (old_sInd : option nat) (mode : Mode)
  (st st' : Sim) r :
  next_target cfg env clk fuel old_sInd mode st = Some (st', r) ->
  (exists st1,
     next_target_loop cfg env clk fuel old_sInd mode
       (allocate clk (settlingTime cfg + ohTime mode) st) = Some (st1, None)
     /\ st' = st1 /\ r = None)
  \/ (exists st1 sInd t_det slewTime,
        next_target_loop cfg env clk fuel old_sInd mode
          (allocate clk (settlingTime cfg + ohTime mode) st)
          = Some (st1, Some (sInd, t_det, slewTime))
        /\ ((haveOcculter (OS cfg) = false /\ st' = st1
             /\ r = Some (sInd, t_det, nth sInd slewTime 0))
            \/ (haveOcculter (OS cfg) = true
                /\ st' = allocate clk (nth sInd slewTime 0) st1
                /\ r = (if TK_mission_is_over clk (TK st') then None
                        else Some (sInd, t_det, nth sInd slewTime 0))))).
Proof.
  unfold next_target.
  destruct (next_target_loop cfg env clk fuel old_sInd mode
              (allocate clk (settlingTime cfg + ohTime mode) st))
    as [[st1 [[[s1 t1] sl1]|]]|]; try discriminate.
  - intros H. right. exists st1, s1, t1, sl1. split; [reflexivity|].
    destruct (haveOcculter (OS cfg)).
    + right. split; [reflexivity|].
      destruct (TK_mission_is_over clk (TK (allocate clk (nth s1 sl1 0) st1)))
        eqn:E; injection H as <- <-; rewrite E; split; reflexivity.
    + left. injection H as <- <-. repeat split.
  - intros H. injection H as <- <-. left. exists st1. repeat split.
Qed.

(** X1.  A target that [next_target] returns is a star of the target
    list that was out of keepout both at its start time (the absolute
    time of the selection plus its slew time) and at its end time (the
    start time plus the returned integration time), in a pass made while
    the mission was not over; the clock returned is the clock of the
    selection, after the allocation of the slew time for an occulter. *)
Theorem next_target_keepout (fuel : nat) (old_sInd : option nat)
  (mode : Mode) (st st' : Sim) (sInd : nat) (t_det slew : Q) :
  next_target cfg env clk fuel old_sInd mode st
    = Some (st', Some (sInd, t_det, slew)) ->
  exists tk,
    TK st' = (if haveOcculter (OS cfg)
              then snd (TK_allocate_time clk slew tk) else tk)
    /\ TK_mission_is_over clk tk = false
    /\ (sInd < nStars cfg)%nat
    /\ keepout env sInd (TimeKeeping.currentTimeAbs tk + slew) = true
    /\ keepout env sInd (TimeKeeping.currentTimeAbs tk + slew + t_det) = true.
Proof.
  intros H. apply next_target_inv in H.
  destruct H as [[st1 [_ [_ Hr]]] | [st1 [s [t [sl [Hloop Hcase]]]]]];
    [discriminate|].
  apply loop_inv in Hloop. destruct Hloop as [st_p [_ [_ [Hov Hpass]]]].
  apply pass_found_inv in Hpass.
  destruct Hpass as [_ [Hst1 [_ [_ [Hlt [Hks Hke]]]]]].
  assert (HTK : TK st1 = TK st_p) by (rewrite Hst1; reflexivity).
  exists (TK st_p).
  destruct Hcase as [[Hocc [-> Hr]] | [Hocc [-> Hr]]]; rewrite Hocc.
  - injection Hr as -> -> ->. rewrite HTK. repeat split; assumption.
  - revert Hr.
    destruct (TK_mission_is_over clk (TK (allocate clk (nth s sl 0) st1)));
      intros Hr; [discriminate|].
    injection Hr as -> -> ->. unfold allocate. simpl TK. rewrite HTK.
    repeat split; assumption.
Qed.

(** X2.  [next_target] returns [None, None, None] exactly in a state in
    which the mission is over: whenever it returns, [mission_is_over]
    holds of the clock it leaves if and only if no target is returned. *)
Theorem next_target_none_iff_over (fuel : nat) (old_sInd : option nat)
  (mode : Mode) (st st' : Sim) r :
  next_target cfg env clk fuel old_sInd mode st = Some (st', r) ->
  (TK_mission_is_over clk (TK st') = true <-> r = None).
Proof.
  intros H. apply next_target_inv in H.
  destruct H as [[st1 [Hloop [-> ->]]] | [st1 [s [t [sl [Hloop Hcase]]]]]].
  - apply loop_inv in Hloop. destruct Hloop as [Hov _]. tauto.
  - apply loop_inv in Hloop. destruct Hloop as [st_p [_ [_ [Hov Hpass]]]].
    apply pass_found_inv in Hpass. destruct Hpass as [_ [Hst1 _]].
    assert (HTK : TK st1 = TK st_p) by (rewrite Hst1; reflexivity).
    destruct Hcase as [[_ [-> ->]] | [_ [_ ->]]].
    + rewrite HTK, Hov. split; discriminate.
    + destruct (TK_mission_is_over clk (TK st')); split;
        congruence || discriminate.
Qed.

Lemma nth_upd {A} (a : list A) (i j : nat) (v d : A) :
  nth j (np.upd a i v) d
  = if (i =? j)%nat && (i <? List.length a)%nat then v else nth j a d.
Proof.
  destruct (nth_error (np.upd a i v) j) as [x|] eqn:E.
  - rewrite (nth_error_nth _ _ d E). rewrite nth_error_upd in E.
    destruct ((i =? j)%nat && (i <? List.length a)%nat).
    + now injection E.
    + now rewrite (nth_error_nth _ _ d E).
  - pose proof E as E'. apply nth_error_None in E'. rewrite length_upd in E'.
    rewrite nth_overflow by (now rewrite length_upd).
    rewrite nth_error_upd in E.
    destruct ((i =? j)%nat && (i <? List.length a)%nat); [discriminate|].
    now rewrite nth_overflow.
Qed.

(** X3.  [next_target] changes nothing but the clock, the random source
    and one visit count: the revisit list, [lastDetected], the planets,
    the spectra counters and the wet mass are as before; when a target
    is returned its visit count is one more and every other count is
    unchanged; without an occulter a return of [None] leaves all
    counts. *)
Theorem next_target_visits (fuel : nat) (old_sInd : option nat)
  (mode : Mode) (st st' : Sim) r :
  List.length (starVisits st) = nStars cfg ->
  next_target cfg env clk fuel old_sInd mode st = Some (st', r) ->
  starRevisit st' = starRevisit st
  /\ lastDetected st' = lastDetected st
  /\ SU st' = SU st
  /\ fullSpectra st' = fullSpectra st
  /\ partialSpectra st' = partialSpectra st
  /\ scMass st' = scMass st
  /\ match r with
     | Some (sInd, _, _) =>
         forall s, nth s (starVisits st') O
                   = if (s =? sInd)%nat then S (nth s (starVisits st) O)
                     else nth s (starVisits st) O
     | None => haveOcculter (OS cfg) = false -> starVisits st' = starVisits st
     end.
Proof.
  intros Hlen H. apply next_target_inv in H.
  destruct H as [[st1 [Hloop [-> ->]]] | [st1 [s [t [sl [Hloop Hcase]]]]]].
  - apply loop_inv in Hloop. destruct Hloop as [_ [Hb Hsu]].
    unfold books_frame in Hb. decompose [and] Hb.
    repeat split; try assumption. intros _. assumption.
  - apply loop_inv in Hloop. destruct Hloop as [st_p [Hb [Hsu [_ Hpass]]]].
    apply pass_found_inv in Hpass.
    destruct Hpass as [_ [Hst1 [_ [_ [Hlt _]]]]].
    unfold books_frame in Hb. decompose [and] Hb. clear Hb.
    assert (Hvis : forall j, nth j (starVisits st1) O
                     = if (j =? s)%nat then S (nth j (starVisits st) O)
                       else nth j (starVisits st) O).
    { intros j. rewrite Hst1. simpl starVisits. rewrite nth_upd.
      replace (starVisits st_p) with (starVisits st) by (symmetry; assumption).
      rewrite Hlen. apply Nat.ltb_lt in Hlt. rewrite Hlt, andb_true_r.
      rewrite (Nat.eqb_sym s j).
      destruct (j =? s)%nat eqn:E; [|reflexivity].
      apply Nat.eqb_eq in E. subst j. lia. }
    assert (Hrest : starRevisit st1 = starRevisit st
                    /\ lastDetected st1 = lastDetected st
                    /\ SU st1 = SU st
                    /\ fullSpectra st1 = fullSpectra st
                    /\ partialSpectra st1 = partialSpectra st
                    /\ scMass st1 = scMass st).
    { rewrite Hst1. simpl. repeat split; assumption. }
    destruct Hcase as [[Hocc [-> ->]] | [Hocc [-> ->]]].
    + decompose [and] Hrest. repeat split; assumption.
    + decompose [and] Hrest.
      split; [assumption|]. split; [assumption|]. split; [assumption|].
      split; [assumption|]. split; [assumption|]. split; [assumption|].
      destruct (TK_mission_is_over clk _); [congruence | exact Hvis].
Qed.

(** X4.  When the mission is not over, no candidate index is truthy and
    the allocation of [TK.dtAlloc] leaves the clock as it is, the loop of
    [next_target] makes no progress: no number of passes ends it. *)
Theorem next_target_spins (old_sInd : option nat) (mode : Mode) (st : Sim) :
  let st0 := allocate clk (settlingTime cfg + ohTime mode) st in
  TK_mission_is_over clk (TK st0) = false ->
  np.any_nat (snd (candidates cfg env old_sInd mode st0)) = false ->
  snd (TK_allocate_time clk (TimeKeeping.dtAlloc (TK st0)) (TK st0)) = TK st0 ->
  forall fuel, next_target cfg env clk fuel old_sInd mode st = None.
Proof.
  intros st0 Hover Hany Hstuck fuel. unfold next_target. fold st0.
  clearbody st0.
  assert (Hloop : next_target_loop cfg env clk fuel old_sInd mode st0 = None).
  { induction fuel as [|fuel IH]; simpl; [reflexivity|].
    rewrite Hover, (pass_retry cfg env clk old_sInd mode st0 Hany).
    unfold allocate at 1. rewrite Hstuck, set_TK_same. exact IH. }
  now rewrite Hloop.
Qed.

End TargetSelectionMore.

Section BestTarget.

Variable cfg : Config.
Variable env : Collaborators.
Variable clk : Clock.

(** The candidates of a pass that reaches the choice are stars of the
    target list. *)
Lemma candidates_range (old_sInd : option nat) (mode : Mode) (st : Sim) :
  np.any_nat (snd (candidates cfg env old_sInd mode st)) = true ->
  Forall (fun i => (i < nStars cfg)%nat)
         (snd (candidates cfg env old_sInd mode st)).
Proof.
  unfold candidates.
  destruct (filter_cutoff cfg env mode _ _) as [t_dets sInds2].
  simpl snd. unfold filter_visits.
  destruct (np.any_nat (filter_end env _ t_dets sInds2)) eqn:E.
  - intros _. apply Forall_forall. intros i Hi.
    apply where_lt in Hi. now rewrite length_tovisit in Hi.
  - congruence.
Qed.

(** The entries of [comp] at the choice: the baseline completeness of a
    star never visited, the updated completeness of a star visited
    before. *)
Lemma choose_best_max (st : Sim) (sInds : list nat) :
  sInds <> [] ->
  Forall (fun i => (i < nStars cfg)%nat) sInds ->
  forall s, In s sInds ->
    (if (0 <? nth s (starVisits st) O)%nat
     then completeness_update env s (TimeKeeping.currentTimeNorm (TK st))
     else nth s (comp0 cfg) 0)
    <= (if (0 <? nth (choose_best cfg env st sInds) (starVisits st) O)%nat
        then completeness_update env (choose_best cfg env st sInds)
               (TimeKeeping.currentTimeNorm (TK st))
        else nth (choose_best cfg env st sInds) (comp0 cfg) 0).
Proof.
  intros Hne Hrange.
  set (p := fun s => (0 <? nth s (starVisits st) O)%nat).
  set (f := fun s => completeness_update env s
                       (TimeKeeping.currentTimeNorm (TK st))).
  set (rank := fun s => if p s then f s else nth s (comp0 cfg) 0).
  change (forall s, In s sInds -> rank s <= rank (choose_best cfg env st sInds)).
  unfold choose_best. fold p. fold f.
  set (comp := np.take (comp0 cfg) sInds).
  set (inds := np.where_ (map p sInds)).
  set (comp' := np.scatter comp inds (map f (np.take sInds inds))).
  set (M := np.max 0 comp').
  set (mask := np.where_ (map (fun c => Qeq_bool c M) comp')).
  assert (Hlen : List.length comp = List.length sInds).
  { unfold comp. apply length_take. exact Hrange. }
  assert (Hinds : Forall (fun i => (i < List.length sInds)%nat) inds).
  { apply Forall_forall. intros i Hi. unfold inds in Hi.
    apply where_lt in Hi. now rewrite length_map in Hi. }
  assert (Hcomp' : forall k s, nth_error sInds k = Some s ->
                     nth_error comp' k = Some (rank s)).
  { intros k s Hk.
    assert (Hs : (s < nStars cfg)%nat).
    { rewrite Forall_forall in Hrange. apply Hrange.
      eapply nth_error_In; eauto. }
    assert (Hbase : nth_error comp k = Some (nth s (comp0 cfg) 0)).
    { unfold comp. rewrite (nth_error_take _ _ Hrange k s Hk).
      apply nth_error_nth'. exact Hs. }
    unfold comp', rank. destruct (p s) eqn:Hp.
    - assert (Hin : In k inds).
      { unfold inds. apply In_where. rewrite nth_error_map, Hk. simpl.
        now rewrite Hp. }
      destruct (In_nth_error _ _ Hin) as [i Hi].
      apply (scatter_at inds comp _ i k (f s)).
      + apply where_from_NoDup.
      + exact Hi.
      + rewrite nth_error_map, (nth_error_take _ _ Hinds i k Hi), Hk.
        reflexivity.
      + rewrite Hlen. apply nth_error_Some. congruence.
    - rewrite scatter_outside; [exact Hbase|].
      unfold inds. rewrite In_where, nth_error_map, Hk. simpl.
      rewrite Hp. discriminate. }
  assert (Hlen' : List.length comp' = List.length sInds).
  { unfold comp'. rewrite length_scatter. exact Hlen. }
  assert (Hchoice : In (random_choice env st (np.take sInds mask))
                       (np.take sInds mask)).
  { apply random_choice_In.
    assert (Hne' : comp' <> []).
    { intros E. rewrite E in Hlen'. destruct sInds; [congruence | discriminate]. }
    destruct (In_nth_error _ _ (max_In 0 comp' Hne')) as [k Hk].
    assert (Hmask : In k mask).
    { unfold mask. apply In_where. rewrite nth_error_map, Hk. simpl.
      fold M. now rewrite Qeq_bool_refl. }
    destruct (nth_error sInds k) as [x|] eqn:Hx.
    - intros E.
      assert (Hin : In x (np.take sInds mask))
        by (apply In_take; exists k; split; assumption).
      rewrite E in Hin. exact Hin.
    - apply nth_error_None in Hx.
      assert (k < List.length comp')%nat by (apply nth_error_Some; congruence).
      lia. }
  apply In_take in Hchoice. destruct Hchoice as [k [Hk Hsel]].
  apply In_where in Hk. rewrite nth_error_map, (Hcomp' k _ Hsel) in Hk.
  simpl in Hk. injection Hk as Hk. apply Qeq_bool_eq in Hk.
  intros s Hs. destruct (In_nth_error _ _ Hs) as [j Hj].
  apply Qle_trans with M.
  - unfold M. apply max_ge. eapply nth_error_In. apply (Hcomp' j s Hj).
  - apply Qle_lteq. right. symmetry. exact Hk.
Qed.

(** X5.  The star chosen by a pass of [next_target] has the highest
    completeness among the candidates of the pass, where a star never
    visited counts with its baseline completeness [TL.comp0] and a star
    visited before with [completeness_update] at the current time. *)
Theorem next_target_best_completeness (old_sInd : option nat) (mode : Mode)
  (st st' : Sim) (sInd : nat) (t_det : Q) (slewTime : list Q) :
  next_target_pass cfg env clk old_sInd mode st = Found st' sInd t_det slewTime ->
  forall s, In s (snd (candidates cfg env old_sInd mode st)) ->
    (if (0 <? nth s (starVisits st) O)%nat
     then completeness_update env s (TimeKeeping.currentTimeNorm (TK st))
     else nth s (comp0 cfg) 0)
    <= (if (0 <? nth sInd (starVisits st) O)%nat
        then completeness_update env sInd (TimeKeeping.currentTimeNorm (TK st))
        else nth sInd (comp0 cfg) 0).
Proof.
  intros Hpass s Hs.
  pose proof (pass_found_inv cfg env clk _ _ _ _ _ _ _ Hpass)
    as [_ [_ [Hbest [Hin _]]]].
  assert (Hany : np.any_nat (snd (candidates cfg env old_sInd mode st)) = true).
  { unfold next_target_pass in Hpass.
    destruct (candidates cfg env old_sInd mode st) as [[a b] c]. simpl.
    destruct (np.any_nat c); [reflexivity | discriminate]. }
  rewrite Hbest. apply choose_best_max; try assumption.
  - intros E. rewrite E in Hs. exact Hs.
  - now apply candidates_range.
Qed.

End BestTarget.

Lemma next_target_keepout_witness :
  exists st' tk,
    next_target Fixture.cfg0 Fixture.env0 (spec_clock true) 5 None
      Fixture.detMode Fixture.st0 = Some (st', Some (2%nat, 5, 0))
    /\ TK st' = tk
    /\ keepout Fixture.env0 2 (TimeKeeping.currentTimeAbs tk + 0 + 5) = true.
Proof.
  destruct (next_target Fixture.cfg0 Fixture.env0 (spec_clock true) 5 None
              Fixture.detMode Fixture.st0) as [[st' r]|] eqn:H;
    [|vm_compute in H; discriminate].
  assert (Hr : r = Some (2%nat, 5, 0)).
  { vm_compute in H. injection H as _ <-. reflexivity. }
  subst r.
  destruct (next_target_keepout Fixture.cfg0 Fixture.env0 (spec_clock true)
              5 None Fixture.detMode Fixture.st0 st' 2 5 0 H)
    as [tk [Htk [_ [_ [_ Hend]]]]].
  exists st', tk. repeat split; assumption.
Defined.

Lemma next_target_none_iff_over_witness :
  exists st',
    next_target Fixture.cfg0 Fixture.env0 (spec_clock true) 5 None
      Fixture.detMode Fixture.st0 = Some (st', Some (2%nat, 5, 0))
    /\ TK_mission_is_over (spec_clock true) (TK st') <> true.
Proof.
  destruct (next_target Fixture.cfg0 Fixture.env0 (spec_clock true) 5 None
              Fixture.detMode Fixture.st0) as [[st' r]|] eqn:H;
    [|vm_compute in H; discriminate].
  assert (Hr : r = Some (2%nat, 5, 0)).
  { vm_compute in H. injection H as _ <-. reflexivity. }
  subst r. exists st'. split; [reflexivity|].
  intros Hover.
  apply (next_target_none_iff_over Fixture.cfg0 Fixture.env0 (spec_clock true)
           5 None Fixture.detMode Fixture.st0 st' _ H) in Hover.
  discriminate.
Defined.

Lemma next_target_visits_witness :
  exists st',
    next_target Fixture.cfg0 Fixture.env0 (spec_clock true) 5 None
      Fixture.detMode Fixture.st0 = Some (st', Some (2%nat, 5, 0))
    /\ nth 2 (starVisits st') O = 1%nat
    /\ nth 1 (starVisits st') O = O
    /\ starRevisit st' = [].
Proof.
  destruct (next_target Fixture.cfg0 Fixture.env0 (spec_clock true) 5 None
              Fixture.detMode Fixture.st0) as [[st' r]|] eqn:H;
    [|vm_compute in H; discriminate].
  assert (Hr : r = Some (2%nat, 5, 0)).
  { vm_compute in H. injection H as _ <-. reflexivity. }
  subst r.
  destruct (next_target_visits Fixture.cfg0 Fixture.env0 (spec_clock true)
              5 None Fixture.detMode Fixture.st0 st' _ eq_refl H)
    as [Hrev [_ [_ [_ [_ [_ Hvis]]]]]].
  exists st'. split; [reflexivity|].
  split; [exact (Hvis 2%nat) | split; [exact (Hvis 1%nat) | exact Hrev]].
Defined.

(** Half a day before the end of the block, with every star in keepout
    and a retry interval of one day, [next_target] never returns. *)
Lemma next_target_spins_witness :
  TimeKeeping.mission_is_over Scenario.tk_stuck = false
  /\ forall fuel,
       next_target Fixture.cfg0 Scenario.env_dark (spec_clock true) fuel None
         Fixture.detMode Scenario.st_stuck = None.
Proof.
  split; [reflexivity|].
  apply (next_target_spins Fixture.cfg0 Scenario.env_dark (spec_clock true)
           None Fixture.detMode Scenario.st_stuck); reflexivity.
Defined.

Lemma next_target_best_completeness_witness :
  exists st',
    next_target_pass Fixture.cfg0 Fixture.env0 (spec_clock true) None
      Fixture.detMode Fixture.st0 = Found st' 2 5 [0; 0; 0]
    /\ nth 1 (comp0 Fixture.cfg0) 0 <= nth 2 (comp0 Fixture.cfg0) 0.
Proof.
  eexists. split; [vm_compute; reflexivity|].
  refine (next_target_best_completeness Fixture.cfg0 Fixture.env0
            (spec_clock true) None Fixture.detMode Fixture.st0 _ 2 5 [0; 0; 0]
            _ 1%nat _).
  - vm_compute. reflexivity.
  - vm_compute. tauto.
Defined.

(** ** More on detection *)

Lemma select_none {A} (a : list A) : forall mask,
  np.any_bool mask = false -> np.select a mask = [].
Proof.
  unfold np.any_bool.
  induction a as [|x a IH]; intros [|b mask] H; simpl in *; try reflexivity.
  destruct b; simpl in H; [discriminate | now apply IH].
Qed.

Lemma select_some {A} (a : list A) : forall mask,
  List.length mask = List.length a ->
  np.any_bool mask = true -> np.select a mask <> [].
Proof.
  unfold np.any_bool.
  induction a as [|x a IH]; intros [|b mask] Hlen H; simpl in *;
    try discriminate.
  destruct b; simpl in H; [discriminate|]. apply IH; [lia | exact H].
Qed.

Lemma argmin_from_lt (a : list Q) : forall i best m,
  (best < i)%nat -> (np.argmin_from i best m a < i + List.length a)%nat.
Proof.
  induction a as [|c a IH]; intros i best m Hb; simpl; [lia|].
  destruct (Qltb c m).
  - specialize (IH (S i) i c). lia.
  - specialize (IH (S i) best m). lia.
Qed.

Lemma argmin_lt (a : list Q) (k : nat) :
  np.argmin a = Some k -> (k < List.length a)%nat.
Proof.
  destruct a as [|x a]; [discriminate|]. simpl. intros H. injection H as <-.
  pose proof (argmin_from_lt a 1 0 x). lia.
Qed.

Section DetectionMore.

Variable cfg : Config.
Variable env : Collaborators.
Variable clk : Clock.

Lemma calc_signal_noise_books (sInd : nat) (pInds : list nat) (t : Q)
  (mode : Mode) (st : Sim) :
  books_frame st (snd (calc_signal_noise env clk sInd pInds t mode st)).
Proof.
  unfold calc_signal_noise, books_frame. simpl.
  repeat split. apply propag_system_stars.
Qed.

Lemma integrate_books (n : nat) (sInd : nat) (pInds : list nat) (t : Q)
  (mode : Mode) : forall st,
  books_frame st (snd (integrate env clk n sInd pInds t mode st)).
Proof.
  induction n as [|n IH]; intros st.
  - apply books_frame_refl.
  - rewrite integrate_S.
    pose proof (calc_signal_noise_books sInd pInds t mode st) as H1.
    destruct (calc_signal_noise env clk sInd pInds t mode st) as [[s nz] st1].
    specialize (IH st1).
    destruct (integrate env clk n sInd pInds t mode st1) as [[Sg Nz] st2].
    simpl in *. eapply books_frame_trans; eauto.
Qed.

Lemma integrate_SNR_books (sInd : nat) (pInds : list nat) (t : Q)
  (mode : Mode) (st : Sim) :
  books_frame st (snd (integrate_SNR cfg env clk sInd pInds t mode st)).
Proof.
  unfold integrate_SNR.
  pose proof (integrate_books (nt_flux cfg) sInd pInds
                (t / inject_Z (Z.of_nat (nt_flux cfg))) mode st) as H.
  destruct (integrate env clk (nt_flux cfg) sInd pInds _ mode st)
    as [[Sg Nz] st'].
  exact H.
Qed.

(** The first part of a detection: what it leaves alone, and the length
    of the signal-to-noise array. *)
Lemma detection_phase_books (sInd : nat) (t_det : Q) (mode : Mode) (st : Sim)
  (pInds : list nat) (observable : list Z) (SNR : list Q) (FA : bool)
  (MD : list bool) (st1 : Sim) :
  detection_phase cfg env clk sInd t_det mode st
    = (pInds, observable, SNR, FA, MD, st1) ->
  books_frame st st1
  /\ pInds = planets_of sInd (SU st)
  /\ observable = classify cfg st pInds
  /\ List.length SNR = np.count_true (map (fun o => (o =? 1)%Z) observable).
Proof.
  unfold detection_phase.
  set (pInds0 := planets_of sInd (SU st)).
  set (observable0 := classify cfg st pInds0).
  set (obs := map (fun o => (o =? 1)%Z) observable0).
  assert (Hobslen : List.length obs = List.length pInds0).
  { unfold obs. rewrite length_map. apply length_classify. }
  destruct (np.any_bool obs) eqn:Hany.
  - pose proof (integrate_SNR_books sInd (np.select pInds0 obs) t_det mode st)
      as Hf.
    pose proof (integrate_SNR_length cfg env clk sInd (np.select pInds0 obs)
                  t_det mode st) as Hlen.
    destruct (integrate_SNR cfg env clk sInd (np.select pInds0 obs) t_det mode st)
      as [SNR0 st'].
    destruct (det_occur env SNR0) as [FA0 MD0].
    intros H. injection H as <- <- <- <- <- <-.
    split; [eapply books_frame_trans; [exact Hf | apply allocate_books]|].
    split; [reflexivity|]. split; [reflexivity|].
    simpl in Hlen. rewrite Hlen.
    + now apply length_select_count.
    + apply Forall_forall. intros p Hp. apply select_incl in Hp.
      pose proof (planets_of_range sInd (SU st)) as Hr.
      rewrite Forall_forall in Hr. now apply Hr.
  - destruct (det_occur env []) as [FA0 MD0].
    intros H. injection H as <- <- <- <- <- <-.
    split; [apply allocate_books|]. split; [reflexivity|].
    split; [reflexivity|].
    symmetry. now apply any_bool_false_count.
Qed.

(** How [observation_detection] ends once the status array is stored:
    with ValueError after a false alarm without a detected planet, and
    with a return otherwise. *)
Lemma observation_detection_outcome (sInd : nat) (t_det : Q) (mode : Mode)
  (st : Sim) (pInds : list nat) (observable : list Z) (SNR : list Q)
  (FA : bool) (MD : list bool) (st1 : Sim) (detected : list Z) :
  detection_phase cfg env clk sInd t_det mode st
    = (pInds, observable, SNR, FA, MD, st1) ->
  detection_status observable MD = Ok detected ->
  (sInd < List.length (lastDetected st))%nat ->
  if FA && negb (np.any_bool (map (fun d => (d =? 1)%Z) detected))
  then observation_detection cfg env clk sInd t_det mode st = Raise ValueError
  else exists t_rev st',
         observation_detection cfg env clk sInd t_det mode st
           = Ok (detected, SNR, FA, st')
         /\ starRevisit st' = starRevisit st ++ [(sInd, t_rev)]
         /\ starVisits st' = starVisits st
         /\ fullSpectra st' = fullSpectra st
         /\ partialSpectra st' = partialSpectra st
         /\ scMass st' = scMass st
         /\ TK st' = TK st1
         /\ draws st' = (draws st + (if FA then 2 else 0))%nat.
Proof.
  intros Hphase Hstatus Hin.
  destruct (detection_phase_books sInd t_det mode st _ _ _ _ _ _ Hphase)
    as [Hb [HpInds [Hobs _]]].
  unfold books_frame in Hb.
  destruct Hb as [Hvis [Hrev [Hld [Hfs [Hps [Hmass [Hdraws Hstars]]]]]]].
  unfold observation_detection. rewrite Hphase, Hstatus. unfold bind at 1.
  rewrite Hld.
  apply Nat.ltb_lt in Hin. rewrite Hin. unfold bind at 1.
  pose (det := map (fun d => (d =? 1)%Z) detected).
  assert (Hdetlen : List.length det = List.length pInds).
  { unfold det. rewrite length_map.
    rewrite (detection_status_length _ _ _ Hstatus), Hobs.
    apply length_classify. }
  assert (Hrange : Forall (fun p => (p < List.length (SU st1))%nat)
                          (np.select pInds det)).
  { apply Forall_forall. intros p Hp. apply select_incl in Hp.
    rewrite HpInds in Hp.
    pose proof (planets_of_range sInd (SU st)) as Hr.
    rewrite Forall_forall in Hr. specialize (Hr p Hp).
    rewrite <- (length_map plan2star (SU st1)), Hstars, length_map. exact Hr. }
  pose (chosen := np.take (SU st1) (np.select pInds det)).
  assert (Hchosen : List.length chosen = List.length (np.select pInds det)).
  { unfold chosen. now apply length_take. }
  assert (Hcases :
    (np.any_bool det = true
     /\ exists k pl, np.argmin (map (fun p => pl_s (pl_dyn p)) chosen) = Some k
                     /\ nth_error chosen k = Some pl)
    \/ (np.any_bool det = false /\ chosen = [])).
  { destruct (np.any_bool det) eqn:Hany.
    - left. split; [reflexivity|].
      assert (Hne : np.select pInds det <> []) by (now apply select_some).
      destruct (np.argmin (map (fun p => pl_s (pl_dyn p)) chosen)) as [k|] eqn:Hk.
      + pose proof (argmin_lt _ _ Hk) as Hlt. rewrite length_map in Hlt.
        destruct (nth_error chosen k) as [pl|] eqn:Hpl;
          [|apply nth_error_None in Hpl; lia].
        exists k, pl.
        split; [first [reflexivity | exact Hk] | first [reflexivity | exact Hpl]].
      + exfalso. destruct chosen as [|c l]; [|discriminate].
        simpl in Hchosen.
        destruct (np.select pInds det); [congruence | discriminate].
    - right. split; [reflexivity|].
      unfold chosen. now rewrite (select_none pInds det Hany). }
  destruct FA; simpl;
    change (map (fun d : Z => (d =? 1)%Z) detected) with det;
    change (np.take (SU st1) (np.select pInds det)) with chosen;
    clearbody chosen det;
    (destruct Hcases as [[Hany [k [pl [Hk Hpl]]]] | [Hany Hnone]];
     [rewrite Hany, Hk, Hpl | rewrite Hany, ?Hnone]); simpl;
    try reflexivity;
    eexists; eexists; (split; [reflexivity|]); simpl;
    rewrite ?Hrev, ?Hvis, ?Hfs, ?Hps, ?Hmass, ?Hdraws;
    repeat split; try reflexivity; lia.
Qed.

End DetectionMore.

Lemma nonneg_count (a : list Z) :
  Forall (fun x => x = 1%Z \/ (x < 0)%Z) a ->
  List.length (filter (fun x => (0 <=? x)%Z) a)
  = np.count_true (map (fun o => (o =? 1)%Z) a).
Proof.
  unfold np.count_true.
  induction 1 as [|x a Hx _ IH]; simpl; [reflexivity|].
  destruct Hx as [-> | Hx]; simpl; [now rewrite IH|].
  assert (H0 : (0 <=? x)%Z = false) by (apply Z.leb_gt; lia).
  assert (H1 : (x =? 1)%Z = false) by (apply Z.eqb_neq; lia).
  now rewrite H0, H1.
Qed.

Lemma nonneg_count_assign (a : list Z) : forall vals,
  Forall (fun x => x = 1%Z \/ (x < 0)%Z) a ->
  Forall (fun v => (0 <= v)%Z) vals ->
  List.length
    (filter (fun x => (0 <=? x)%Z)
       (np.assign_mask a (map (fun o => (o =? 1)%Z) a) vals))
  = np.count_true (map (fun o => (o =? 1)%Z) a).
Proof.
  unfold np.count_true.
  induction a as [|x a IH]; intros vals Ha Hv; simpl; [reflexivity|].
  inversion Ha as [|? ? Hx Ha']; subst.
  destruct Hx as [-> | Hx]; simpl.
  - destruct vals as [|v vals]; simpl.
    + now rewrite IH.
    + inversion Hv as [|? ? Hv0 Hv']; subst.
      assert (H0 : (0 <=? v)%Z = true) by (apply Z.leb_le; lia).
      rewrite H0. simpl. now rewrite IH.
  - assert (H0 : (0 <=? x)%Z = false) by (apply Z.leb_gt; lia).
    assert (H1 : (x =? 1)%Z = false) by (apply Z.eqb_neq; lia).
    rewrite H1. simpl. rewrite H0. now apply IH.
Qed.

Lemma nonneg_count_fill (a : list Z) (v : Z) :
  Forall (fun x => x = 1%Z \/ (x < 0)%Z) a ->
  (0 <= v)%Z ->
  List.length
    (filter (fun x => (0 <=? x)%Z)
       (np.fill_mask a (map (fun o => (o =? 1)%Z) a) v))
  = np.count_true (map (fun o => (o =? 1)%Z) a).
Proof.
  unfold np.count_true. intros Ha Hv.
  assert (H0 : (0 <=? v)%Z = true) by (apply Z.leb_le; lia).
  induction Ha as [|x a Hx _ IH]; simpl; [reflexivity|].
  destruct Hx as [-> | Hx]; simpl.
  - rewrite H0. simpl. now rewrite IH.
  - assert (H2 : (0 <=? x)%Z = false) by (apply Z.leb_gt; lia).
    assert (H1 : (x =? 1)%Z = false) by (apply Z.eqb_neq; lia).
    rewrite H1. simpl. rewrite H2. exact IH.
Qed.

Section DetectionOutcome.

Variable cfg : Config.
Variable env : Collaborators.
Variable clk : Clock.

Lemma classify_values (st : Sim) (sInd : nat) :
  Forall (fun x => x = 1%Z \/ (x < 0)%Z)
         (classify cfg st (planets_of sInd (SU st))).
Proof.
  rewrite (classify_map cfg st _ (planets_of_range sInd (SU st))).
  apply Forall_forall. intros x Hx. apply in_map_iff in Hx.
  destruct Hx as [w [<- _]]. unfold classify_one.
  destruct (Qltb (OWA (OS cfg)) w); [right; lia|].
  destruct (Qltb w (IWA (OS cfg))); [right; lia | now left].
Qed.

(** A returning detection, taken apart. *)
Lemma observation_detection_Ok_inv (sInd : nat) (t_det : Q) (mode : Mode)
  (st : Sim) (d : list Z) (snr : list Q) (fa : bool) (st' : Sim) :
  observation_detection cfg env clk sInd t_det mode st = Ok (d, snr, fa, st') ->
  exists pInds observable MD st1,
    detection_phase cfg env clk sInd t_det mode st
      = (pInds, observable, snr, fa, MD, st1)
    /\ detection_status observable MD = Ok d
    /\ (sInd < List.length (lastDetected st))%nat.
Proof.
  intros H.
  destruct (detection_phase cfg env clk sInd t_det mode st)
    as [[[[[pInds observable] SNR] FA] MD] st1] eqn:Hphase.
  destruct (detection_phase_books cfg env clk sInd t_det mode st _ _ _ _ _ _
              Hphase) as [Hb _].
  destruct Hb as [_ [_ [Hld _]]].
  destruct (detection_status observable MD) as [detected|err] eqn:Hstatus.
  - destruct (observation_detection_detected cfg env clk sInd t_det mode st
                _ _ _ _ _ _ _ Hphase Hstatus d snr fa st' H)
      as [-> [-> ->]].
    exists pInds, observable, MD, st1.
    split; [reflexivity|]. split; [exact Hstatus|].
    unfold observation_detection in H. rewrite Hphase, Hstatus in H.
    unfold bind at 1 in H. rewrite Hld in H.
    destruct (sInd <? List.length (lastDetected st))%nat eqn:E;
      [now apply Nat.ltb_lt | discriminate].
  - unfold observation_detection in H. rewrite Hphase, Hstatus in H.
    discriminate.
Qed.

(** X6.  A detection that returns has appended exactly one row to the
    revisit list, for the observed star, after the rows that were there;
    it leaves the visit counts, the spectra counters and the wet mass
    as they were. *)
Theorem detection_schedules_one_revisit (sInd : nat) (t_det : Q)
  (mode : Mode) (st : Sim) (d : list Z) (snr : list Q) (fa : bool)
  (st' : Sim) :
  observation_detection cfg env clk sInd t_det mode st = Ok (d, snr, fa, st') ->
  (exists t_rev, starRevisit st' = starRevisit st ++ [(sInd, t_rev)])
  /\ starVisits st' = starVisits st
  /\ fullSpectra st' = fullSpectra st
  /\ partialSpectra st' = partialSpectra st
  /\ scMass st' = scMass st.
Proof.
  intros H.
  destruct (observation_detection_Ok_inv _ _ _ _ _ _ _ _ H)
    as [pInds [observable [MD [st1 [Hphase [Hstatus Hin]]]]]].
  pose proof (observation_detection_outcome cfg env clk sInd t_det mode st
                _ _ _ _ _ _ _ Hphase Hstatus Hin) as Hout.
  destruct (fa && negb (np.any_bool (map (fun x => (x =? 1)%Z) d))).
  - congruence.
  - destruct Hout as [t_rev [st'' [Hret Hrest]]].
    rewrite H in Hret. injection Hret as <-.
    decompose [and] Hrest. split; [exists t_rev; assumption|].
    repeat split; assumption.
Qed.

(** X7.  Once the status array is stored for a star within the target
    list, [observation_detection] raises ValueError exactly when the
    detection statistics report a false alarm and no planet has status 1
    (the minimum separation then comes from the false alarm, and the
    planet of minimum separation is looked for among none); in every
    other case it returns the status array, the signal-to-noise ratios
    and the false-alarm flag. *)
Theorem detection_false_alarm_alone (sInd : nat) (t_det : Q) (mode : Mode)
  (st : Sim) (pInds : list nat) (observable : list Z) (SNR : list Q)
  (FA : bool) (MD : list bool) (st1 : Sim) (detected : list Z) :
  detection_phase cfg env clk sInd t_det mode st
    = (pInds, observable, SNR, FA, MD, st1) ->
  detection_status observable MD = Ok detected ->
  (sInd < List.length (lastDetected st))%nat ->
  (FA = true /\ (forall x, In x detected -> x <> 1%Z) ->
   observation_detection cfg env clk sInd t_det mode st = Raise ValueError)
  /\ (FA = false \/ In 1%Z detected ->
      exists st',
        observation_detection cfg env clk sInd t_det mode st
          = Ok (detected, SNR, FA, st')).
Proof.
  intros Hphase Hstatus Hin.
  pose proof (observation_detection_outcome cfg env clk sInd t_det mode st
                _ _ _ _ _ _ _ Hphase Hstatus Hin) as Hout.
  assert (Hany : np.any_bool (map (fun x => (x =? 1)%Z) detected) = true
                 <-> In 1%Z detected).
  { unfold np.any_bool. rewrite existsb_exists. split.
    - intros [b [Hb ->]]. apply in_map_iff in Hb.
      destruct Hb as [x [Hx Hin']]. apply Z.eqb_eq in Hx. now subst.
    - intros H1. exists true. split; [|reflexivity].
      apply in_map_iff. exists 1%Z. split; [reflexivity | exact H1]. }
  split.
  - intros [-> Hno].
    destruct (np.any_bool (map (fun x => (x =? 1)%Z) detected)) eqn:E.
    + exfalso. apply (Hno 1%Z); [now apply Hany | reflexivity].
    + exact Hout.
  - intros Hcase.
    assert (Hcond : FA && negb (np.any_bool (map (fun x => (x =? 1)%Z) detected))
                    = false).
    { destruct Hcase as [-> | H1]; [reflexivity|].
      apply Hany in H1. rewrite H1. apply andb_false_r. }
    rewrite Hcond in Hout. destruct Hout as [t_rev [st' [Hret _]]].
    exists st'. exact Hret.
Qed.

(** The shapes of what a detection returns. *)
Lemma observation_detection_shape (sInd : nat) (t_det : Q)
  (mode : Mode) (st : Sim) (d : list Z) (snr : list Q) (fa : bool)
  (st' : Sim) :
  observation_detection cfg env clk sInd t_det mode st = Ok (d, snr, fa, st') ->
  List.length snr = List.length (filter (fun x => (0 <=? x)%Z) d)
  /\ List.length d = List.length (planets_of sInd (SU st)).
Proof.
  intros H.
  destruct (observation_detection_Ok_inv _ _ _ _ _ _ _ _ H)
    as [pInds [observable [MD [st1 [Hphase [Hstatus _]]]]]].
  destruct (detection_phase_books cfg env clk sInd t_det mode st _ _ _ _ _ _
              Hphase) as [_ [HpInds [Hobs Hlen]]].
  split.
  - rewrite Hlen.
    assert (Hvals : Forall (fun x => x = 1%Z \/ (x < 0)%Z) observable).
    { rewrite Hobs, HpInds. apply classify_values. }
    assert (Hflags : Forall (fun v => (0 <= v)%Z)
                       (map (fun m => if negb m then 1%Z else 0%Z) MD)).
    { apply Forall_forall. intros v Hv. apply in_map_iff in Hv.
      destruct Hv as [m [<- _]]. destruct m; simpl; lia. }
    unfold detection_status, setitem_mask in Hstatus.
    destruct (np.any_bool (map (fun o => (o =? 1)%Z) observable)).
    + destruct (_ =? _)%nat.
      * injection Hstatus as <-. symmetry. now apply nonneg_count_assign.
      * destruct (map (fun m => if negb m then 1%Z else 0%Z) MD)
          as [|v [|v' l]] eqn:E; try discriminate.
        injection Hstatus as <-. symmetry. apply nonneg_count_fill;
          [exact Hvals | now inversion Hflags].
    + injection Hstatus as <-. symmetry. now apply nonneg_count.
  - rewrite (detection_status_length _ _ _ Hstatus), Hobs, HpInds.
    apply length_classify.
Qed.

(** X8.  The signal-to-noise array that a detection returns has one
    entry per planet whose returned status is 0 or 1, that is per planet
    within the working-angle range. *)
Theorem detection_SNR_per_in_range_planet (sInd : nat) (t_det : Q)
  (mode : Mode) (st : Sim) (d : list Z) (snr : list Q) (fa : bool)
  (st' : Sim) :
  observation_detection cfg env clk sInd t_det mode st = Ok (d, snr, fa, st') ->
  List.length snr = List.length (filter (fun x => (0 <=? x)%Z) d)
  /\ List.length d = List.length (planets_of sInd (SU st)).
Proof. apply observation_detection_shape. Qed.

End DetectionOutcome.

Lemma detection_schedules_one_revisit_witness :
  exists d snr fa st',
    observation_detection Fixture.cfg0 Fixture.env0 (spec_clock true) 1 5
      Fixture.detMode Fixture.st0 = Ok (d, snr, fa, st')
    /\ exists t_rev, starRevisit st' = [] ++ [(1%nat, t_rev)].
Proof.
  destruct (observation_detection Fixture.cfg0 Fixture.env0 (spec_clock true)
              1 5 Fixture.detMode Fixture.st0) as [[[[d snr] fa] st']|e] eqn:H;
    [|vm_compute in H; discriminate].
  exists d, snr, fa, st'. split; [reflexivity|].
  exact (proj1 (detection_schedules_one_revisit Fixture.cfg0 Fixture.env0
                  (spec_clock true) 1 5 Fixture.detMode Fixture.st0
                  d snr fa st' H)).
Defined.

(** A false alarm at star 2 of the fixture, whose only planet lies
    beyond the outer working angle. *)
Lemma detection_false_alarm_alone_witness :
  observation_detection Fixture.cfg0 Scenario.env_alarm (spec_clock true) 2 5
    Fixture.detMode Fixture.st0 = Raise ValueError.
Proof.
  destruct (detection_phase Fixture.cfg0 Scenario.env_alarm (spec_clock true)
              2 5 Fixture.detMode Fixture.st0)
    as [[[[[pInds observable] SNR] FA] MD] st1] eqn:Hphase.
  assert (Hin : (2 < List.length (lastDetected Fixture.st0))%nat)
    by (vm_compute; lia).
  assert (Hvals : observable = [(-2)%Z] /\ MD = [] /\ FA = true).
  { vm_compute in Hphase. injection Hphase as _ <- _ <- <- _.
    repeat split. }
  destruct Hvals as [-> [-> ->]].
  refine (proj1 (detection_false_alarm_alone Fixture.cfg0 Scenario.env_alarm
                   (spec_clock true) 2 5 Fixture.detMode Fixture.st0
                   pInds [(-2)%Z] SNR true [] st1 [(-2)%Z] Hphase eq_refl Hin)
                _).
  split; [reflexivity|]. intros x [<- | []]. discriminate.
Defined.

Lemma detection_SNR_per_in_range_planet_witness :
  exists d snr fa st',
    observation_detection Fixture.cfg0 Fixture.env0 (spec_clock true) 1 5
      Fixture.detMode Fixture.st0 = Ok (d, snr, fa, st')
    /\ List.length snr = List.length (filter (fun x => (0 <=? x)%Z) d).
Proof.
  destruct (observation_detection Fixture.cfg0 Fixture.env0 (spec_clock true)
              1 5 Fixture.detMode Fixture.st0) as [[[[d snr] fa] st']|e] eqn:H;
    [|vm_compute in H; discriminate].
  exists d, snr, fa, st'. split; [reflexivity|].
  exact (proj1 (detection_SNR_per_in_range_planet Fixture.cfg0 Fixture.env0
                  (spec_clock true) 1 5 Fixture.detMode Fixture.st0
                  d snr fa st' H)).
Defined.

(** ** More on the characterization *)

Section CharacterizationMore.

Variable cfg : Config.
Variable env : Collaborators.
Variable clk : Clock.

(** What a characterization returns and what it leaves alone. *)
Lemma observation_characterization_books (sInd : nat) (mode : Mode)
  (st : Sim) (c : list Z) (snr : list Q) (t : Q) (st' : Sim) :
  observation_characterization cfg env clk sInd mode st = Ok (c, snr, t, st') ->
  books_frame st st'
  /\ exists snap,
       nth_error (lastDetected st) sInd = Some (Some snap)
       /\ c = repeat 0%Z (List.length (ld_det snap)).
Proof.
  unfold observation_characterization.
  destruct (nth_error (lastDetected st) sInd) as [[snap|]|]; try discriminate.
  unfold bind.
  assert (Hdone : forall (st1 : Sim) (snr1 : list Q) (t1 : Q),
             books_frame st st1 ->
             Ok (repeat 0%Z (List.length (ld_det snap)), snr1, t1, st1)
               = Ok (c, snr, t, st') ->
             books_frame st st'
             /\ exists snap0,
                  Some (Some snap) = Some (Some snap0)
                  /\ c = repeat 0%Z (List.length (ld_det snap0))).
  { intros st1 snr1 t1 Hf H. injection H as <- _ _ <-.
    split; [exact Hf | exists snap; split; reflexivity]. }
  destruct (negb (np.any_Z (char_pInds sInd (ld_det snap) st))).
  { apply Hdone, books_frame_refl. }
  destruct (keepout env sInd (TimeKeeping.currentTimeAbs (TK st))
            && np.any_bool _);
    [|apply Hdone, books_frame_refl].
  set (st1 := set_SU _ st).
  assert (H1 : books_frame st st1).
  { repeat split. apply propag_system_stars. }
  destruct (np.any_bool (map _ _)); [|apply Hdone, H1].
  match goal with
  | |- context [integrate_SNR cfg env clk sInd ?pl ?tc mode st1] =>
      pose proof (integrate_SNR_books cfg env clk sInd pl tc mode st1) as H2;
      destruct (integrate_SNR cfg env clk sInd pl tc mode st1) as [SNR0 st2]
  end.
  simpl in H2.
  assert (H3 : forall dt, books_frame st (allocate clk dt st2)).
  { intros dt. eapply books_frame_trans; [exact H1|].
    eapply books_frame_trans; [exact H2 | apply allocate_books]. }
  destruct (np.any_Q _); [|apply Hdone, H3].
  destruct (np.any_bool _); [|apply Hdone, H3].
  rewrite store_status_zeros, encode_spectra_zeros.
  apply Hdone, H3.
Qed.

(** X9.  Whatever the star, the mode and the state, a characterization
    that returns, returns a status array of zeros, one per flag of the
    star's row of [lastDetected], and leaves both spectra counters, the
    visit counts, the revisit list, [lastDetected] and the wet mass as
    they were: the two stores of a status go to copies that the chained
    subscripts make. *)
Theorem characterization_never_records (sInd : nat) (mode : Mode)
  (st : Sim) (c : list Z) (snr : list Q) (t : Q) (st' : Sim) :
  observation_characterization cfg env clk sInd mode st = Ok (c, snr, t, st') ->
  (forall x, In x c -> x = 0%Z)
  /\ (exists snap, nth_error (lastDetected st) sInd = Some (Some snap)
                   /\ List.length c = List.length (ld_det snap))
  /\ fullSpectra st' = fullSpectra st
  /\ partialSpectra st' = partialSpectra st
  /\ starVisits st' = starVisits st
  /\ starRevisit st' = starRevisit st
  /\ lastDetected st' = lastDetected st
  /\ scMass st' = scMass st.
Proof.
  intros H. apply observation_characterization_books in H.
  destruct H as [Hb [snap [Hrow ->]]].
  unfold books_frame in Hb. decompose [and] Hb.
  split; [intros x Hx; now apply repeat_spec in Hx|].
  split; [exists snap; split; [exact Hrow | apply repeat_length]|].
  repeat split; assumption.
Qed.

(** X10.  A characterization of a star that has not been through a
    detection raises: AttributeError when the star's row of
    [lastDetected] is still the empty one of the initialization (the
    size of [None] is asked for), IndexError when the star lies beyond
    the target list. *)
Theorem characterization_before_detection (sInd : nat) (mode : Mode)
  (st : Sim) :
  (nth_error (lastDetected st) sInd = Some None ->
   observation_characterization cfg env clk sInd mode st = Raise AttributeError)
  /\ ((List.length (lastDetected st) <= sInd)%nat ->
      observation_characterization cfg env clk sInd mode st = Raise IndexError)
  /\ (forall tk su m,
        st = run_sim_init cfg tk su m -> (sInd < nStars cfg)%nat ->
        observation_characterization cfg env clk sInd mode st
          = Raise AttributeError).
Proof.
  split; [|split].
  - intros H. unfold observation_characterization. now rewrite H.
  - intros H. apply nth_error_None in H.
    unfold observation_characterization. now rewrite H.
  - intros tk su m -> Hlt. unfold observation_characterization.
    simpl lastDetected.
    rewrite (nth_error_repeat None Hlt). reflexivity.
Qed.

(** X11.  A star without a false alarm whose planets' indices are not
    truthy (it has no planet, or planet 0 only) is not characterized:
    the call returns zeros, no signal-to-noise ratio and a
    characterization time of zero, and the state, its clock included, is
    the one before the call. *)
Theorem characterization_skips_planet_zero (sInd : nat) (mode : Mode)
  (st : Sim) (snap : Snapshot) :
  nth_error (lastDetected st) sInd = Some (Some snap) ->
  List.length (ld_det snap) = List.length (planets_of sInd (SU st)) ->
  (forall p, In p (planets_of sInd (SU st)) -> p = O) ->
  observation_characterization cfg env clk sInd mode st
  = Ok (repeat 0%Z (List.length (ld_det snap)), [], 0, st).
Proof.
  intros Hrow Hlen Hzero. unfold observation_characterization.
  rewrite Hrow. unfold bind.
  assert (Hany : np.any_Z (char_pInds sInd (ld_det snap) st) = false).
  { unfold char_pInds. rewrite length_map, Hlen.
    assert (E : (List.length (planets_of sInd (SU st))
                 =? List.length (planets_of sInd (SU st)) + 1)%nat = false)
      by (apply Nat.eqb_neq; lia).
    rewrite E. unfold np.any_Z.
    destruct (existsb _ _) eqn:Ex; [|reflexivity].
    apply existsb_exists in Ex. destruct Ex as [z [Hz Hnz]].
    apply in_map_iff in Hz. destruct Hz as [p [<- Hp]].
    rewrite (Hzero p Hp) in Hnz. discriminate. }
  rewrite Hany. reflexivity.
Qed.

End CharacterizationMore.

Lemma characterization_never_records_witness :
  exists c snr t st',
    observation_characterization Fixture.cfg0 Fixture.env0 (spec_clock true)
      1 Fixture.charMode Fixture.st_detected = Ok (c, snr, t, st')
    /\ forall x, In x c -> x = 0%Z.
Proof.
  destruct (observation_characterization Fixture.cfg0 Fixture.env0
              (spec_clock true) 1 Fixture.charMode Fixture.st_detected)
    as [[[[c snr] t] st']|e] eqn:H; [|vm_compute in H; discriminate].
  exists c, snr, t, st'. split; [reflexivity|].
  exact (proj1 (characterization_never_records Fixture.cfg0 Fixture.env0
                  (spec_clock true) 1 Fixture.charMode Fixture.st_detected
                  c snr t st' H)).
Defined.

Lemma characterization_before_detection_witness :
  nth_error (lastDetected Fixture.st0) 1 = Some None
  /\ observation_characterization Fixture.cfg0 Fixture.env0 (spec_clock true)
       1 Fixture.charMode Fixture.st0 = Raise AttributeError.
Proof.
  split; [reflexivity|].
  apply (proj1 (characterization_before_detection Fixture.cfg0 Fixture.env0
                  (spec_clock true) 1 Fixture.charMode Fixture.st0)).
  reflexivity.
Defined.

(** Planet 0, detected at 500 mas around star 1, is passed over. *)
Lemma characterization_skips_planet_zero_witness :
  observation_characterization Fixture.cfg0 Fixture.env0 (spec_clock true)
    1 Fixture.charMode Scenario.st_single
  = Ok ([0%Z], [], 0, Scenario.st_single).
Proof.
  apply (characterization_skips_planet_zero Fixture.cfg0 Fixture.env0
           (spec_clock true) 1 Fixture.charMode Scenario.st_single
           (mkSnap [true] [1] [20] [500])).
  - reflexivity.
  - reflexivity.
  - intros p Hp. vm_compute in Hp. destruct Hp as [<- | []]. reflexivity.
Defined.

(** ** The clock through the operations *)

Lemma allocate_all_app (clk : Clock) (a b : list Q) (tk : TimeKeeping.t) :
  allocate_all clk (a ++ b) tk = allocate_all clk b (allocate_all clk a tk).
Proof. apply fold_left_app. Qed.

Lemma charged_app (a b : list Q) : charged (a ++ b) == charged a + charged b.
Proof.
  induction a as [|x a IH]; simpl; [ring|]. rewrite IH. ring.
Qed.

Lemma charged_halves (n : nat) (dt : Q) :
  charged (concat (repeat [dt / 2; dt / 2] n)) == inject_Z (Z.of_nat n) * dt.
Proof.
  induction n as [|n IH].
  - simpl. ring.
  - change (charged (concat (repeat [dt / 2; dt / 2] (S n))))
      with (dt / 2 + (dt / 2 + charged (concat (repeat [dt / 2; dt / 2] n)))).
    rewrite IH, Nat2Z.inj_succ. unfold Z.succ. rewrite inject_Z_plus.
    change (inject_Z 1) with 1. field.
Qed.

(** An integration asks for its time multiplied by [timeMultiplier]. *)
Lemma charged_integration_slots (n : nat) (t tM : Q) :
  (0 < n)%nat -> charged (integration_slots n t tM) == t * tM.
Proof.
  intros Hn. unfold integration_slots. cbv zeta.
  rewrite charged_app, charged_halves. simpl.
  assert (Hnz : ~ inject_Z (Z.of_nat n) == 0).
  { unfold Qeq, inject_Z. simpl. lia. }
  field. exact Hnz.
Qed.

Lemma allocate_all_invariant (clk : Clock) (P : TimeKeeping.t -> Prop) :
  (forall dt tk, P tk -> P (snd (TK_allocate_time clk dt tk))) ->
  forall dts tk, P tk -> P (allocate_all clk dts tk).
Proof.
  intros HP dts. induction dts as [|dt dts IH]; intros tk H; [exact H|].
  simpl. apply IH, HP, H.
Qed.

Section ClockThread.

Variable cfg : Config.
Variable env : Collaborators.
Variable clk : Clock.

Lemma calc_signal_noise_TK (sInd : nat) (pInds : list nat) (t : Q)
  (mode : Mode) (st : Sim) :
  TK (snd (calc_signal_noise env clk sInd pInds t mode st))
  = allocate_all clk [t / 2; t / 2] (TK st).
Proof. reflexivity. Qed.

Lemma integrate_TK (n : nat) (sInd : nat) (pInds : list nat) (dt : Q)
  (mode : Mode) : forall st,
  TK (snd (integrate env clk n sInd pInds dt mode st))
  = allocate_all clk (concat (repeat [dt / 2; dt / 2] n)) (TK st).
Proof.
  induction n as [|n IH]; intros st; [reflexivity|].
  rewrite integrate_S.
  pose proof (calc_signal_noise_TK sInd pInds dt mode st) as H1.
  destruct (calc_signal_noise env clk sInd pInds dt mode st) as [[s nz] st1].
  specialize (IH st1).
  destruct (integrate env clk n sInd pInds dt mode st1) as [[Sg Nz] st2].
  simpl in H1, IH. simpl snd. rewrite IH, H1. reflexivity.
Qed.

Lemma integrate_SNR_TK (sInd : nat) (pInds : list nat) (t : Q)
  (mode : Mode) (st : Sim) (tM : Q) :
  allocate_all clk [t * (tM - 1)]
    (TK (snd (integrate_SNR cfg env clk sInd pInds t mode st)))
  = allocate_all clk (integration_slots (nt_flux cfg) t tM) (TK st).
Proof.
  unfold integrate_SNR, integration_slots. cbv zeta.
  pose proof (integrate_TK (nt_flux cfg) sInd pInds
                (t / inject_Z (Z.of_nat (nt_flux cfg))) mode st) as H.
  destruct (integrate env clk (nt_flux cfg) sInd pInds _ mode st)
    as [[Sg Nz] st'].
  simpl in H. simpl snd. rewrite allocate_all_app, H. reflexivity.
Qed.

(** The intervals that a detection asks for. *)
Lemma detection_phase_TK (sInd : nat) (t_det : Q) (mode : Mode) (st : Sim)
  (pInds : list nat) (observable : list Z) (SNR : list Q) (FA : bool)
  (MD : list bool) (st1 : Sim) :
  detection_phase cfg env clk sInd t_det mode st
    = (pInds, observable, SNR, FA, MD, st1) ->
  TK st1
  = allocate_all clk
      (if np.any_bool (map (fun o => (o =? 1)%Z)
                           (classify cfg st (planets_of sInd (SU st))))
       then integration_slots (nt_flux cfg) t_det (timeMultiplier mode)
       else [t_det * timeMultiplier mode])
      (TK st).
Proof.
  unfold detection_phase.
  destruct (np.any_bool _).
  - match goal with
    | |- context [integrate_SNR cfg env clk sInd ?pl t_det mode st] =>
        pose proof (integrate_SNR_TK sInd pl t_det mode st
                      (timeMultiplier mode)) as H;
        destruct (integrate_SNR cfg env clk sInd pl t_det mode st)
          as [SNR0 st']
    end.
    destruct (det_occur env SNR0) as [FA0 MD0].
    intros E. injection E as _ _ _ _ _ <-. exact H.
  - destruct (det_occur env []) as [FA0 MD0].
    intros E. injection E as _ _ _ _ _ <-. reflexivity.
Qed.

(** X12.  The clock after a detection that returns is the clock before
    it after these calls of [allocate_time], in order: when some planet
    of the star lies within the working angles, two halves of
    [t_det/nt_flux] for each of the [nt_flux] sub-intervals and then
    [t_det*(timeMultiplier - 1)]; when none does, [t_det*timeMultiplier]
    at once.  Either way, for a positive [nt_flux], the time asked for
    sums to [t_det*timeMultiplier]. *)
Theorem detection_clock (sInd : nat) (t_det : Q) (mode : Mode) (st : Sim)
  (d : list Z) (snr : list Q) (fa : bool) (st' : Sim) :
  observation_detection cfg env clk sInd t_det mode st = Ok (d, snr, fa, st') ->
  let dts :=
    if np.any_bool (map (fun o => (o =? 1)%Z)
                        (classify cfg st (planets_of sInd (SU st))))
    then integration_slots (nt_flux cfg) t_det (timeMultiplier mode)
    else [t_det * timeMultiplier mode] in
  TK st' = allocate_all clk dts (TK st)
  /\ ((0 < nt_flux cfg)%nat -> charged dts == t_det * timeMultiplier mode).
Proof.
  intros H dts.
  destruct (observation_detection_Ok_inv cfg env clk _ _ _ _ _ _ _ _ H)
    as [pInds [observable [MD [st1 [Hphase [Hstatus Hin]]]]]].
  pose proof (observation_detection_outcome cfg env clk sInd t_det mode st
                _ _ _ _ _ _ _ Hphase Hstatus Hin) as Hout.
  apply detection_phase_TK in Hphase.
  split.
  - destruct (fa && negb (np.any_bool (map (fun x => (x =? 1)%Z) d))).
    + congruence.
    + destruct Hout as [t_rev [st'' [Hret Hrest]]].
      rewrite H in Hret. injection Hret as <-.
      decompose [and] Hrest. unfold dts. congruence.
  - intros Hn. unfold dts. destruct (np.any_bool _).
    + now apply charged_integration_slots.
    + simpl. ring.
Qed.

(** X13.  A characterization that returns has either left the clock as
    it was, and then returns a characterization time of zero, or asked
    for the intervals of an integration of the returned [t_char]: two
    halves of [t_char/nt_flux] for each sub-interval, then
    [t_char*(timeMultiplier - 1)]. *)
Theorem characterization_clock (sInd : nat) (mode : Mode) (st : Sim)
  (c : list Z) (snr : list Q) (t : Q) (st' : Sim) :
  observation_characterization cfg env clk sInd mode st = Ok (c, snr, t, st') ->
  (TK st' = TK st /\ t = 0 /\ snr = [])
  \/ TK st'
     = allocate_all clk (integration_slots (nt_flux cfg) t (timeMultiplier mode))
         (TK st).
Proof.
  unfold observation_characterization.
  destruct (nth_error (lastDetected st) sInd) as [[snap|]|]; try discriminate.
  unfold bind.
  assert (Hidle : forall (st1 : Sim) (c1 : list Z),
             TK st1 = TK st ->
             Ok (c1, [], 0, st1) = Ok (c, snr, t, st') ->
             (TK st' = TK st /\ t = 0 /\ snr = [])
             \/ TK st'
                = allocate_all clk
                    (integration_slots (nt_flux cfg) t (timeMultiplier mode))
                    (TK st)).
  { intros st1 c1 HTK E. injection E as _ <- <- <-. left. now repeat split. }
  destruct (negb (np.any_Z (char_pInds sInd (ld_det snap) st))).
  { now apply Hidle. }
  destruct (keepout env sInd (TimeKeeping.currentTimeAbs (TK st))
            && np.any_bool _); [|now apply Hidle].
  set (st1 := set_SU _ st).
  destruct (np.any_bool (map _ _)); [|now apply Hidle].
  match goal with
  | |- context [integrate_SNR cfg env clk sInd ?pl ?tc mode st1] =>
      pose proof (integrate_SNR_TK sInd pl tc mode st1 (timeMultiplier mode))
        as H2;
      destruct (integrate_SNR cfg env clk sInd pl tc mode st1) as [SNR0 st2];
      set (t_char := tc) in *
  end.
  simpl snd in H2.
  assert (Hdone : forall (c1 : list Z) (snr1 : list Q) (st3 : Sim),
             TK st3 = TK (allocate clk (t_char * (timeMultiplier mode - 1)) st2) ->
             Ok (c1, snr1, t_char, st3) = Ok (c, snr, t, st') ->
             (TK st' = TK st /\ t = 0 /\ snr = [])
             \/ TK st'
                = allocate_all clk
                    (integration_slots (nt_flux cfg) t (timeMultiplier mode))
                    (TK st)).
  { intros c1 snr1 st3 HTK E. injection E as _ _ <- <-. right.
    rewrite HTK. exact H2. }
  destruct (np.any_Q _); [|now apply Hdone].
  destruct (np.any_bool _); [|now apply Hdone].
  rewrite store_status_zeros, encode_spectra_zeros.
  now apply Hdone.
Qed.

(** The intervals that [next_target] asks for. *)
Lemma next_target_loop_TK (old_sInd : option nat) (mode : Mode) :
  forall fuel st st' r,
    next_target_loop cfg env clk fuel old_sInd mode st = Some (st', r) ->
    exists dts, TK st' = allocate_all clk dts (TK st).
Proof.
  induction fuel as [|fuel IH]; intros st st' r H; [discriminate|].
  simpl in H.
  destruct (TK_mission_is_over clk (TK st)).
  { injection H as <- _. now exists []. }
  destruct (next_target_pass cfg env clk old_sInd mode st)
    as [st1 s t sl | st1] eqn:Hpass.
  - injection H as <- _.
    apply pass_found_inv in Hpass. destruct Hpass as [_ [-> _]].
    now exists [].
  - unfold next_target_pass in Hpass.
    destruct (candidates cfg env old_sInd mode st) as [[a b] sInds].
    destruct (np.any_nat sInds); [discriminate|].
    injection Hpass as <-.
    apply IH in H. destruct H as [dts Hd].
    exists (TimeKeeping.dtAlloc (TK st) :: dts). exact Hd.
Qed.

Lemma next_target_TK (fuel : nat) (old_sInd : option nat) (mode : Mode)
  (st st' : Sim) r :
  next_target cfg env clk fuel old_sInd mode st = Some (st', r) ->
  exists dts, TK st' = allocate_all clk dts (TK st).
Proof.
  intros H. apply next_target_inv in H.
  destruct H as [[st1 [Hloop [-> _]]] | [st1 [s [t [sl [Hloop Hcase]]]]]].
  - apply next_target_loop_TK in Hloop. destruct Hloop as [dts Hd].
    exists ((settlingTime cfg + ohTime mode) :: dts). exact Hd.
  - apply next_target_loop_TK in Hloop. destruct Hloop as [dts Hd].
    destruct Hcase as [[_ [-> _]] | [_ [-> _]]].
    + exists ((settlingTime cfg + ohTime mode) :: dts). exact Hd.
    + exists (((settlingTime cfg + ohTime mode) :: dts) ++ [nth s sl 0]).
      rewrite allocate_all_app. unfold allocate at 1. simpl TK at 1.
      rewrite Hd. reflexivity.
Qed.

(** Every operation moves the clock by calls of [allocate_time] only. *)
Lemma sim_op_TK (st st' : Sim) :
  sim_op cfg env clk st st' ->
  exists dts, TK st' = allocate_all clk dts (TK st).
Proof.
  intros Hop. destruct Hop as [fuel old mode st st' r H
                              | sInd t_det mode st d snr fa st' H
                              | sInd mode st c snr t st' H].
  - eapply next_target_TK; eauto.
  - destruct (observation_detection_Ok_inv cfg env clk _ _ _ _ _ _ _ _ H)
      as [pInds [observable [MD [st1 [Hphase [Hstatus Hin]]]]]].
    pose proof (observation_detection_outcome cfg env clk sInd t_det mode st
                  _ _ _ _ _ _ _ Hphase Hstatus Hin) as Hout.
    apply detection_phase_TK in Hphase.
    destruct (fa && negb (np.any_bool (map (fun x => (x =? 1)%Z) d)));
      [congruence|].
    destruct Hout as [t_rev [st'' [Hret Hrest]]].
    rewrite H in Hret. injection Hret as <-.
    decompose [and] Hrest. eexists. etransitivity; [eassumption|].
    exact Hphase.
  - unfold observation_characterization in H.
    destruct (nth_error (lastDetected st) sInd) as [[snap|]|];
      try discriminate.
    unfold bind in H. revert H.
    assert (Hidle : forall (st1 : Sim) c1 snr1 t1,
               TK st1 = TK st ->
               Ok (c1, snr1, t1, st1) = Ok (c, snr, t, st') ->
               exists dts, TK st' = allocate_all clk dts (TK st)).
    { intros st1 c1 snr1 t1 HTK E. injection E as _ _ _ <-. now exists []. }
    destruct (negb (np.any_Z (char_pInds sInd (ld_det snap) st))).
    { now apply Hidle. }
    destruct (keepout env sInd (TimeKeeping.currentTimeAbs (TK st))
              && np.any_bool _); [|now apply Hidle].
    set (st1 := set_SU _ st).
    destruct (np.any_bool (map _ _)); [|now apply Hidle].
    match goal with
    | |- context [integrate_SNR cfg env clk sInd ?pl ?tc mode st1] =>
        pose proof (integrate_SNR_TK sInd pl tc mode st1 (timeMultiplier mode))
          as H2;
        destruct (integrate_SNR cfg env clk sInd pl tc mode st1) as [SNR0 st2];
        set (t_char := tc) in *
    end.
    simpl snd in H2.
    assert (Hdone : forall c1 snr1 t1 (st3 : Sim),
               TK st3 = TK (allocate clk (t_char * (timeMultiplier mode - 1)) st2) ->
               Ok (c1, snr1, t1, st3) = Ok (c, snr, t, st') ->
               exists dts, TK st' = allocate_all clk dts (TK st)).
    { intros c1 snr1 t1 st3 HTK E. injection E as _ _ _ <-.
      eexists. rewrite HTK. exact H2. }
    destruct (np.any_Q _); [|now apply Hdone].
    destruct (np.any_bool _); [|now apply Hdone].
    rewrite store_status_zeros, encode_spectra_zeros.
    now apply Hdone.
Qed.

(** X14.  The simulation moves the clock through [TK.allocate_time]
    only: a property of the clock that every call of [allocate_time]
    preserves holds in every state of a run in whose first state it
    holds. *)
Theorem clock_invariant_of_run (P : TimeKeeping.t -> Prop) (st0 st : Sim) :
  (forall dt tk, P tk -> P (snd (TK_allocate_time clk dt tk))) ->
  reachable cfg env clk st0 st ->
  P (TK st0) -> P (TK st).
Proof.
  intros HP Hreach H0.
  induction Hreach as [|st1 st2 _ IH Hop]; [exact H0|].
  apply sim_op_TK in Hop. destruct Hop as [dts ->].
  now apply allocate_all_invariant.
Qed.

End ClockThread.

Lemma detection_clock_witness :
  exists d snr fa st',
    observation_detection Fixture.cfg0 Fixture.env0 (spec_clock true) 1 5
      Fixture.detMode Fixture.st0 = Ok (d, snr, fa, st')
    /\ TK st'
       = allocate_all (spec_clock true)
           (integration_slots (nt_flux Fixture.cfg0) 5
              (timeMultiplier Fixture.detMode))
           (TK Fixture.st0).
Proof.
  destruct (observation_detection Fixture.cfg0 Fixture.env0 (spec_clock true)
              1 5 Fixture.detMode Fixture.st0) as [[[[d snr] fa] st']|e] eqn:H;
    [|vm_compute in H; discriminate].
  exists d, snr, fa, st'. split; [reflexivity|].
  exact (proj1 (detection_clock Fixture.cfg0 Fixture.env0 (spec_clock true)
                  1 5 Fixture.detMode Fixture.st0 d snr fa st' H)).
Defined.

Lemma characterization_clock_witness :
  exists c snr t st',
    observation_characterization Fixture.cfg0 Fixture.env0 (spec_clock true)
      1 Fixture.charMode Fixture.st_detected = Ok (c, snr, t, st')
    /\ ((TK st' = TK Fixture.st_detected /\ t = 0 /\ snr = [])
        \/ TK st'
           = allocate_all (spec_clock true)
               (integration_slots (nt_flux Fixture.cfg0) t
                  (timeMultiplier Fixture.charMode))
               (TK Fixture.st_detected)).
Proof.
  destruct (observation_characterization Fixture.cfg0 Fixture.env0
              (spec_clock true) 1 Fixture.charMode Fixture.st_detected)
    as [[[[c snr] t] st']|e] eqn:H; [|vm_compute in H; discriminate].
  exists c, snr, t, st'. split; [reflexivity|].
  exact (characterization_clock Fixture.cfg0 Fixture.env0 (spec_clock true)
           1 Fixture.charMode Fixture.st_detected c snr t st' H).
Defined.

(** The clock of the spec never changes [missionLife]; neither does a
    detection. *)
Lemma clock_invariant_of_run_witness :
  exists d snr fa st',
    observation_detection Fixture.cfg0 Fixture.env0 (spec_clock true) 1 5
      Fixture.detMode Fixture.st0 = Ok (d, snr, fa, st')
    /\ TimeKeeping.missionLife (TK st')
       = TimeKeeping.missionLife (TK Fixture.st0).
Proof.
  destruct (observation_detection Fixture.cfg0 Fixture.env0 (spec_clock true)
              1 5 Fixture.detMode Fixture.st0) as [[[[d snr] fa] st']|e] eqn:H;
    [|vm_compute in H; discriminate].
  exists d, snr, fa, st'. split; [reflexivity|].
  apply (clock_invariant_of_run Fixture.cfg0 Fixture.env0 (spec_clock true)
           (fun tk => TimeKeeping.missionLife tk
                      = TimeKeeping.missionLife (TK Fixture.st0))
           Fixture.st0 st').
  - intros dt tk Htk. simpl. unfold TimeKeeping.allocate_time.
    destruct (Qle_bool dt 0); [exact Htk|].
    destruct (Qltb _ _); [exact Htk|].
    destruct (TimeKeeping.past_current_OB _ tk); [exact Htk|].
    destruct (true && _); exact Htk.
  - eapply reach_op; [apply reach_init|].
    eapply op_detection. exact H.
  - reflexivity.
Defined.

(** ** The mission driver *)

Lemma list_sum_upd (a : list nat) : forall i v,
  (i < List.length a)%nat ->
  (list_sum (np.upd a i v) + nth i a O = list_sum a + v)%nat.
Proof.
  induction a as [|x a IH]; intros [|i] v Hi; simpl in *; try lia.
  specialize (IH i v). lia.
Qed.

Lemma list_sum_repeat_0 (n : nat) : list_sum (repeat O n) = O.
Proof. induction n; simpl; auto. Qed.

Section RunMore.
Variable cfg : Config.
Variable env : Collaborators.
Variable clk : Clock.

(** What a call of [next_target] does to the state. *)
Lemma next_target_step (fuel : nat) (old_sInd : option nat) (mode : Mode)
  (st st' : Sim) r :
  next_target cfg env clk fuel old_sInd mode st = Some (st', r) ->
  starRevisit st' = starRevisit st
  /\ lastDetected st' = lastDetected st
  /\ SU st' = SU st
  /\ fullSpectra st' = fullSpectra st
  /\ partialSpectra st' = partialSpectra st
  /\ scMass st' = scMass st
  /\ match r with
     | Some (s, t_det, _) =>
         (s < nStars cfg)%nat
         /\ starVisits st'
            = np.upd (starVisits st) s (nth s (starVisits st) O + 1)%nat
         /\ TK_mission_is_over clk (TK st') = false
         /\ 0 < t_det * timeMultiplier mode
         /\ t_det * timeMultiplier mode < intCutoff (OS cfg)
     | None =>
         TK_mission_is_over clk (TK st') = true
         /\ (haveOcculter (OS cfg) = false -> starVisits st' = starVisits st)
     end.
Proof.
  intros H. apply next_target_inv in H.
  destruct H as [[st1 [Hloop [-> ->]]] | [st1 [s [t [sl [Hloop Hcase]]]]]].
  - apply loop_inv in Hloop. destruct Hloop as [Hov [Hb Hsu]].
    unfold books_frame in Hb. decompose [and] Hb.
    repeat split; try assumption. intros _. assumption.
  - apply loop_inv in Hloop. destruct Hloop as [st_p [Hb [Hsu [Hov Hpass]]]].
    pose proof (pass_found cfg env clk _ _ _ _ _ _ _ Hpass) as [Hpos Hcut].
    apply pass_found_inv in Hpass.
    destruct Hpass as [_ [Hst1 [_ [_ [Hlt _]]]]].
    unfold books_frame in Hb. decompose [and] Hb. clear Hb.
    assert (Hvis : starVisits st1
                   = np.upd (starVisits st) s (nth s (starVisits st) O + 1)%nat).
    { rewrite Hst1. simpl.
      replace (starVisits st_p) with (starVisits st) by (symmetry; assumption).
      reflexivity. }
    assert (HTK : TK st1 = TK st_p) by (rewrite Hst1; reflexivity).
    assert (Hrest : starRevisit st1 = starRevisit st
                    /\ lastDetected st1 = lastDetected st
                    /\ SU st1 = SU st
                    /\ fullSpectra st1 = fullSpectra st
                    /\ partialSpectra st1 = partialSpectra st
                    /\ scMass st1 = scMass st).
    { rewrite Hst1. simpl. repeat split; assumption. }
    destruct Hcase as [[Hocc [-> ->]] | [Hocc [-> ->]]].
    + decompose [and] Hrest. rewrite HTK.
      repeat split; assumption.
    + decompose [and] Hrest.
      split; [assumption|]. split; [assumption|]. split; [assumption|].
      split; [assumption|]. split; [assumption|]. split; [assumption|].
      destruct (TK_mission_is_over clk (TK (allocate clk (nth s sl 0) st1)))
        eqn:E; cbv beta iota.
      * split; [reflexivity | intros Hf; congruence].
      * repeat split; try reflexivity; assumption.
Qed.

Lemma observe_Ok (occ : Occulter) (dryMass : Q) (detMode charMode : Mode)
  (s : nat) (t_det slew : Q) (st1 : Sim) (r r' : Run) (b : bool) :
  observe cfg env clk occ dryMass detMode charMode s t_det slew st1 r
    = Ok (r', b) ->
  haveOcculter (OS cfg) = false /\ b = false
  /\ exists d snr fa st2 c csnr t_char rec,
       observation_detection cfg env clk s t_det detMode st1
         = Ok (d, snr, fa, st2)
       /\ observation_characterization cfg env clk s charMode st2
          = Ok (c, csnr, t_char, sim r')
       /\ DRM r' = DRM r ++ [rec]
       /\ star_ind rec = s
       /\ arrival_time rec = TimeKeeping.currentTimeNorm (TK st1)
       /\ plan_inds rec = planets_of s (SU st1)
       /\ int_time_det rec = t_det
       /\ plan_detected rec = d
       /\ SNR_det rec = snr
       /\ int_time_char rec = t_char
       /\ plan_characterized rec = c
       /\ SNR_char rec = csnr
       /\ charModes rec = charMode
       /\ starTimes r'
          = np.upd (starTimes r) s (TimeKeeping.currentTimeNorm (TK (sim r')))
       /\ starExtended r'
          = build_extended (TK st1) (DRM r) (starExtended r).
Proof.
  unfold observe.
  destruct (observation_detection cfg env clk s t_det detMode st1)
    as [[[[d snr] fa] st2]|e] eqn:Hdet; [|discriminate].
  unfold bind at 1.
  match goal with
  | |- bind ?x _ = _ -> _ => destruct x as [fa'|e]; [|discriminate]
  end.
  unfold bind at 1.
  destruct (observation_characterization cfg env clk s charMode st2)
    as [[[[c csnr] t_char] st3]|e] eqn:Hchar; [|discriminate].
  unfold bind at 1.
  destruct (haveOcculter (OS cfg)) eqn:Hocc.
  - rewrite update_occulter_mass_NameError. discriminate.
  - unfold bind.
    destruct (s <? List.length (starTimes r))%nat; [|discriminate].
    intros H. injection H as <- <-.
    split; [reflexivity|]. split; [reflexivity|].
    do 7 eexists. eexists. simpl.
    split; [reflexivity|]. split; [exact Hchar|].
    repeat split.
Qed.

(** An invariant of the loop of [run_sim] holds when the loop ends, and
    it ends with the mission over. *)
Lemma run_sim_loop_inv (Inv : Run -> Prop) (fuel : nat) (occ : Occulter)
  (dryMass : Q) (detMode charMode : Mode) :
  (forall r sInd st1,
     Inv r -> TK_mission_is_over clk (TK (sim r)) = false ->
     next_target cfg env clk fuel sInd detMode (sim r) = Some (st1, None) ->
     Inv (mkRun st1 (DRM r) (starTimes r) (starExtended r))) ->
  (forall r sInd st1 s t_det slew r' b,
     Inv r -> TK_mission_is_over clk (TK (sim r)) = false ->
     next_target cfg env clk fuel sInd detMode (sim r)
       = Some (st1, Some (s, t_det, slew)) ->
     observe cfg env clk occ dryMass detMode charMode s t_det slew st1 r
       = Ok (r', b) ->
     Inv r') ->
  forall cycles sInd r r',
    Inv r ->
    run_sim_loop cfg env clk cycles fuel occ dryMass detMode charMode sInd r
      = Some (Ok r') ->
    Inv r' /\ TK_mission_is_over clk (TK (sim r')) = true.
Proof.
  intros Hnone Hobs.
  induction cycles as [|cycles IH]; intros sInd r r' HI H; [discriminate|].
  simpl in H.
  destruct (TK_mission_is_over clk (TK (sim r))) eqn:Hov.
  { injection H as <-. now split. }
  destruct (next_target cfg env clk fuel sInd detMode (sim r))
    as [[st1 [[[s t_det] slew]|]]|] eqn:Hnt; [| |discriminate].
  - destruct (observe cfg env clk occ dryMass detMode charMode s t_det slew
                st1 r) as [[r1 b]|e] eqn:Hob; [|discriminate].
    pose proof (Hobs _ _ _ _ _ _ _ _ HI Hov Hnt Hob) as HI1.
    destruct (observe_Ok _ _ _ _ _ _ _ _ _ _ _ Hob) as [_ [-> _]].
    eapply IH; eauto.
  - eapply IH; [|exact H]. eapply Hnone; eauto.
Qed.


(** What a detection leaves alone. *)
Lemma observation_detection_books (sInd : nat) (t_det : Q) (mode : Mode)
  (st : Sim) (d : list Z) (snr : list Q) (fa : bool) (st' : Sim) :
  observation_detection cfg env clk sInd t_det mode st = Ok (d, snr, fa, st') ->
  (exists t_rev, starRevisit st' = starRevisit st ++ [(sInd, t_rev)])
  /\ starVisits st' = starVisits st
  /\ map plan2star (SU st') = map plan2star (SU st).
Proof.
  intros H.
  pose proof (observation_detection_ledger cfg env clk _ _ _ _ _ _ _ _ H)
    as [_ [Hstars _]].
  destruct (observation_detection_Ok_inv cfg env clk _ _ _ _ _ _ _ _ H)
    as [pInds [observable [MD [st1 [Hphase [Hstatus Hin]]]]]].
  pose proof (observation_detection_outcome cfg env clk sInd t_det mode st
                _ _ _ _ _ _ _ Hphase Hstatus Hin) as Hout.
  destruct (fa && negb (np.any_bool (map (fun x => (x =? 1)%Z) d)));
    [congruence|].
  destruct Hout as [t_rev [st'' [Hret Hrest]]].
  rewrite H in Hret. injection Hret as <-.
  decompose [and] Hrest.
  split; [exists t_rev; assumption|]. split; assumption.
Qed.

(** X15.  With an occulter no observation of [run_sim] completes: the
    body of the loop raises for every target, at the latest when
    [update_occulter_mass] loads the unbound name [sInd].  A run that
    ends normally has therefore appended no record to the DRM and has
    set no star time, and it ended because the mission was over. *)
Theorem occulter_run_records_nothing (occ : Occulter) (dryMass : Q)
  (detMode charMode : Mode) :
  haveOcculter (OS cfg) = true ->
  (forall s t_det slew st1 r,
     exists e,
       observe cfg env clk occ dryMass detMode charMode s t_det slew st1 r
         = Raise e)
  /\ (forall cycles fuel sInd r r',
        run_sim_loop cfg env clk cycles fuel occ dryMass detMode charMode sInd r
          = Some (Ok r') ->
        DRM r' = DRM r /\ starTimes r' = starTimes r
        /\ TK_mission_is_over clk (TK (sim r')) = true).
Proof.
  intros Hocc. split.
  - intros s t_det slew st1 r.
    destruct (observe cfg env clk occ dryMass detMode charMode s t_det slew
                st1 r) as [[r' b]|e] eqn:H; [|now exists e].
    apply observe_Ok in H. destruct H as [Hf _]. congruence.
  - intros cycles fuel sInd r r' H.
    destruct (run_sim_loop_inv
                (fun r1 => DRM r1 = DRM r /\ starTimes r1 = starTimes r)
                fuel occ dryMass detMode charMode) with (4 := H)
      as [[HD HT] Hov].
    + intros r1 sInd1 st1 HI _ _. exact HI.
    + intros r1 sInd1 st1 s t_det slew r2 b _ _ _ Hob.
      apply observe_Ok in Hob. destruct Hob as [Hf _]. congruence.
    + now split.
    + repeat split; assumption.
Qed.

(** X16.  Without an occulter, a run of [run_sim] that ends has the
    mission over, one DRM record more than at its start for every visit
    counted in [starVisits], and one row of the revisit list for every
    visit. *)
Theorem run_sim_counts (cycles fuel : nat) (modes : list ObservingMode)
  (occ : Occulter) (dryMass : Q) (tk : TimeKeeping.t) (su : list Planet)
  (m : Q) (drm : list DRMrecord) (r' : Run) :
  haveOcculter (OS cfg) = false ->
  run_sim cfg env clk cycles fuel modes occ dryMass tk su m drm
    = Some (Ok r') ->
  TK_mission_is_over clk (TK (sim r')) = true
  /\ List.length (DRM r')
     = (List.length drm + list_sum (starVisits (sim r')))%nat
  /\ List.length (starRevisit (sim r')) = list_sum (starVisits (sim r')).
Proof.
  intros Hocc H. unfold run_sim in H.
  destruct (select_modes modes) as [[detMode charMode]|e]; [|discriminate].
  destruct (run_sim_loop_inv
              (fun r =>
                 List.length (starVisits (sim r)) = nStars cfg
                 /\ List.length (DRM r)
                    = (List.length drm + list_sum (starVisits (sim r)))%nat
                 /\ List.length (starRevisit (sim r))
                    = list_sum (starVisits (sim r)))
              fuel occ dryMass detMode charMode) with (4 := H)
    as [[_ [HD HR]] Hov].
  - intros r sInd st1 [Hlen [HD HR]] _ Hnt.
    apply next_target_step in Hnt.
    destruct Hnt as [Hrev [_ [_ [_ [_ [_ [_ Hvis]]]]]]].
    specialize (Hvis Hocc). simpl. rewrite Hvis, Hrev. now repeat split.
  - intros r sInd st1 s t_det slew r1 b [Hlen [HD HR]] _ Hnt Hob.
    apply next_target_step in Hnt.
    destruct Hnt as [Hrev [_ [_ [_ [_ [_ [Hlt [Hvis _]]]]]]]].
    apply observe_Ok in Hob.
    destruct Hob as (_ & _ & d & snr & fa & st2 & c & csnr & t_char & rec & Hdet & Hchar & HDRM
                     & Hs & Harr & Hpl & Ht & Hd' & Hsnr & Htc & Hc & Hcsnr & Hcm
                     & Hst & Hext).
    apply observation_detection_books in Hdet.
    destruct Hdet as [[t_rev Hrev2] [Hvis2 _]].
    apply observation_characterization_books in Hchar.
    destruct Hchar as [Hb _]. unfold books_frame in Hb.
    destruct Hb as [Hvis3 [Hrev3 _]].
    pose proof (list_sum_upd (starVisits (sim r)) s
                  (nth s (starVisits (sim r)) O + 1)%nat) as Hsum.
    rewrite Hlen in Hsum. specialize (Hsum Hlt).
    rewrite Hvis3, Hvis2, Hvis, Hrev3, Hrev2, Hrev, HDRM.
    rewrite length_upd, !length_app. simpl. repeat split; lia.
  - simpl. rewrite repeat_length, list_sum_repeat_0. repeat split; lia.
  - now repeat split.
Qed.


(** The record of a pass of the loop of [run_sim] that reaches the
    append of line 288. *)
Lemma pass_record (fuel : nat) (sInd0 : option nat) (occ : Occulter)
  (dryMass : Q) (detMode charMode : Mode) (r : Run) (st1 : Sim) (s : nat)
  (t_det slew : Q) (r' : Run) (b : bool) :
  next_target cfg env clk fuel sInd0 detMode (sim r)
    = Some (st1, Some (s, t_det, slew)) ->
  observe cfg env clk occ dryMass detMode charMode s t_det slew st1 r
    = Ok (r', b) ->
  map plan2star (SU (sim r')) = map plan2star (SU (sim r))
  /\ exists rec,
       DRM r' = DRM r ++ [rec]
       /\ (star_ind rec < nStars cfg)%nat
       /\ plan_inds rec = planets_of (star_ind rec) (SU (sim r))
       /\ List.length (plan_detected rec) = List.length (plan_inds rec)
       /\ List.length (SNR_det rec)
          = List.length (filter (fun x => (0 <=? x)%Z) (plan_detected rec))
       /\ 0 < int_time_det rec * timeMultiplier detMode
       /\ int_time_det rec * timeMultiplier detMode < intCutoff (OS cfg)
       /\ (forall x, In x (plan_characterized rec) -> x = 0%Z)
       /\ charModes rec = charMode.
Proof.
  intros Hnt Hob.
  apply next_target_step in Hnt.
  destruct Hnt as [_ [_ [HSU [_ [_ [_ [Hlt [_ [_ [Hpos Hcut]]]]]]]]]].
  apply observe_Ok in Hob.
  destruct Hob as (_ & _ & d & snr & fa & st2 & c & csnr & t_char & rec
                   & Hdet & Hchar & HDRM & Hs & Harr & Hpl & Ht & Hd' & Hsnr
                   & Htc & Hc & Hcsnr & Hcm & Hst & Hext).
  pose proof (observation_detection_shape cfg env clk _ _ _ _ _ _ _ _ Hdet)
    as [Hsh1 Hsh2].
  apply observation_detection_books in Hdet.
  destruct Hdet as [_ [_ Hstars2]].
  apply observation_characterization_books in Hchar.
  destruct Hchar as [Hb [snap [_ Hzero]]].
  unfold books_frame in Hb. decompose [and] Hb. clear Hb.
  split; [rewrite HSU in Hstars2; congruence|].
  exists rec. split; [exact HDRM|].
  rewrite Hs, Hpl, Ht, Hd', Hsnr, Hc, Hcm, HSU.
  split; [exact Hlt|]. split; [reflexivity|].
  split; [rewrite <- HSU; exact Hsh2|]. split; [exact Hsh1|].
  split; [exact Hpos|]. split; [exact Hcut|].
  split; [|reflexivity].
  intros x Hx. rewrite Hzero in Hx. now apply repeat_spec in Hx.
Qed.

(** X17.  Each pass of the loop of [run_sim] that reaches the append of
    line 288 appends one record to the DRM, whatever the run does
    afterwards.  The record is for a star of the target list and lists
    the planets of that star; it holds one detection status per planet,
    one detection signal-to-noise ratio per planet of status 0 or 1, a
    detection time whose product with the time multiplier of the
    detection mode lies strictly between 0 and [OS.intCutoff],
    characterization statuses that are all 0, and the characterization
    mode.  So do all the records that a run of [run_sim] that ends has
    added to the DRM it started with. *)
Theorem run_sim_records (occ : Occulter) (dryMass : Q) :
  (forall fuel sInd0 detMode charMode r st1 s t_det slew r' b,
     next_target cfg env clk fuel sInd0 detMode (sim r)
       = Some (st1, Some (s, t_det, slew)) ->
     observe cfg env clk occ dryMass detMode charMode s t_det slew st1 r
       = Ok (r', b) ->
     exists rec,
       DRM r' = DRM r ++ [rec]
       /\ (star_ind rec < nStars cfg)%nat
       /\ plan_inds rec = planets_of (star_ind rec) (SU (sim r))
       /\ List.length (plan_detected rec) = List.length (plan_inds rec)
       /\ List.length (SNR_det rec)
          = List.length (filter (fun x => (0 <=? x)%Z) (plan_detected rec))
       /\ 0 < int_time_det rec * timeMultiplier detMode
       /\ int_time_det rec * timeMultiplier detMode < intCutoff (OS cfg)
       /\ (forall x, In x (plan_characterized rec) -> x = 0%Z)
       /\ charModes rec = charMode)
  /\ (forall cycles fuel modes tk su m drm r',
        run_sim cfg env clk cycles fuel modes occ dryMass tk su m drm
          = Some (Ok r') ->
        exists detMode charMode news,
          select_modes modes = Ok (detMode, charMode)
          /\ DRM r' = drm ++ news
          /\ forall rec, In rec news ->
               (star_ind rec < nStars cfg)%nat
               /\ plan_inds rec = planets_of (star_ind rec) su
               /\ List.length (plan_detected rec) = List.length (plan_inds rec)
               /\ List.length (SNR_det rec)
                  = List.length
                      (filter (fun x => (0 <=? x)%Z) (plan_detected rec))
               /\ 0 < int_time_det rec * timeMultiplier detMode
               /\ int_time_det rec * timeMultiplier detMode < intCutoff (OS cfg)
               /\ (forall x, In x (plan_characterized rec) -> x = 0%Z)
               /\ charModes rec = charMode).
Proof.
  split.
  - intros fuel sInd0 detMode charMode r st1 s t_det slew r' b Hnt Hob.
    exact (proj2 (pass_record fuel sInd0 occ dryMass detMode charMode r st1 s
                    t_det slew r' b Hnt Hob)).
  - intros cycles fuel modes tk su m drm r' H. unfold run_sim in H.
    destruct (select_modes modes) as [[detMode charMode]|e]; [|discriminate].
    exists detMode, charMode.
    set (P := fun rec : DRMrecord =>
           (star_ind rec < nStars cfg)%nat
           /\ plan_inds rec = planets_of (star_ind rec) su
           /\ List.length (plan_detected rec) = List.length (plan_inds rec)
           /\ List.length (SNR_det rec)
              = List.length (filter (fun x => (0 <=? x)%Z) (plan_detected rec))
           /\ 0 < int_time_det rec * timeMultiplier detMode
           /\ int_time_det rec * timeMultiplier detMode < intCutoff (OS cfg)
           /\ (forall x, In x (plan_characterized rec) -> x = 0%Z)
           /\ charModes rec = charMode).
    destruct (run_sim_loop_inv
                (fun r =>
                   map plan2star (SU (sim r)) = map plan2star su
                   /\ exists news, DRM r = drm ++ news
                                   /\ forall rec, In rec news -> P rec)
                fuel occ dryMass detMode charMode) with (4 := H)
      as [[_ [news [HD HP]]] _].
    + intros r sInd st1 [Hsu Hnews] _ Hnt.
      apply next_target_step in Hnt.
      destruct Hnt as [_ [_ [HSU _]]]. simpl. rewrite HSU. now split.
    + intros r sInd st1 s t_det slew r1 b [Hsu [news [HD HP]]] _ Hnt Hob.
      destruct (pass_record fuel sInd occ dryMass detMode charMode r st1 s
                  t_det slew r1 b Hnt Hob) as [Hstars [rec [HDRM Hrec]]].
      split; [congruence|].
      exists (news ++ [rec]).
      split; [rewrite HDRM, HD; symmetry; apply app_assoc|].
      intros rec' Hin. apply in_app_or in Hin.
      destruct Hin as [Hin | [<- | []]]; [now apply HP|].
      unfold P.
      destruct Hrec as (H1 & H2 & H3 & H4 & H5 & H6 & H7 & H8).
      split; [exact H1|].
      split; [rewrite H2; now apply planets_of_frame|].
      repeat split; assumption.
    + split; [reflexivity|]. exists []. split; [now rewrite app_nil_r|].
      intros rec [].
    + exists news. split; [reflexivity|]. split; assumption.
Qed.

(** A clock that never moves back keeps the time through an
    operation. *)
Lemma sim_op_monotone (st st' : Sim) :
  (forall dt tk, TimeKeeping.currentTimeNorm tk
                 <= TimeKeeping.currentTimeNorm
                      (snd (TK_allocate_time clk dt tk))) ->
  sim_op cfg env clk st st' ->
  TimeKeeping.currentTimeNorm (TK st) <= TimeKeeping.currentTimeNorm (TK st').
Proof.
  intros Hmono Hop. apply sim_op_TK in Hop. destruct Hop as [dts ->].
  apply (allocate_all_invariant clk
           (fun tk => TimeKeeping.currentTimeNorm (TK st)
                      <= TimeKeeping.currentTimeNorm tk)).
  - intros dt tk Htk. eapply Qle_trans; [exact Htk | apply Hmono].
  - apply Qle_refl.
Qed.

(** X18.  Under a clock whose [allocate_time] never moves
    [currentTimeNorm] back, the records that [run_sim] appends to the
    DRM are in the order of their arrival times, and no arrival time is
    later than the time at which the run ends. *)
Theorem run_sim_arrival_order (cycles fuel : nat)
  (modes : list ObservingMode) (occ : Occulter) (dryMass : Q)
  (tk : TimeKeeping.t) (su : list Planet) (m : Q) (drm : list DRMrecord)
  (r' : Run) :
  (forall dt tk, TimeKeeping.currentTimeNorm tk
                 <= TimeKeeping.currentTimeNorm
                      (snd (TK_allocate_time clk dt tk))) ->
  run_sim cfg env clk cycles fuel modes occ dryMass tk su m drm
    = Some (Ok r') ->
  exists news,
    DRM r' = drm ++ news
    /\ (forall rec, In rec news ->
          TimeKeeping.currentTimeNorm tk <= arrival_time rec
          /\ arrival_time rec <= TimeKeeping.currentTimeNorm (TK (sim r')))
    /\ (forall i j rec1 rec2,
          (i < j)%nat -> nth_error news i = Some rec1 ->
          nth_error news j = Some rec2 ->
          arrival_time rec1 <= arrival_time rec2).
Proof.
  intros Hmono H. unfold run_sim in H.
  destruct (select_modes modes) as [[detMode charMode]|e]; [|discriminate].
  destruct (run_sim_loop_inv
              (fun r =>
                 TimeKeeping.currentTimeNorm tk
                 <= TimeKeeping.currentTimeNorm (TK (sim r))
                 /\ exists news,
                   DRM r = drm ++ news
                   /\ (forall rec, In rec news ->
                         TimeKeeping.currentTimeNorm tk <= arrival_time rec
                         /\ arrival_time rec
                            <= TimeKeeping.currentTimeNorm (TK (sim r)))
                   /\ (forall i j rec1 rec2,
                         (i < j)%nat -> nth_error news i = Some rec1 ->
                         nth_error news j = Some rec2 ->
                         arrival_time rec1 <= arrival_time rec2))
              fuel occ dryMass detMode charMode) with (4 := H)
    as [[_ Hnews] _].
  - intros r sInd st1 [H0 [news [HD [Hle Hsorted]]]] _ Hnt.
    assert (Hstep : TimeKeeping.currentTimeNorm (TK (sim r))
                    <= TimeKeeping.currentTimeNorm (TK st1)).
    { apply sim_op_monotone; [exact Hmono|].
      eapply op_next_target; exact Hnt. }
    simpl. split; [eapply Qle_trans; eauto|].
    exists news. split; [exact HD|]. split; [|exact Hsorted].
    intros rec Hin. destruct (Hle rec Hin) as [Ha Hb].
    split; [exact Ha | eapply Qle_trans; eauto].
  - intros r sInd st1 s t_det slew r1 b [H0 [news [HD [Hle Hsorted]]]] _
           Hnt Hob.
    assert (Hstep1 : TimeKeeping.currentTimeNorm (TK (sim r))
                     <= TimeKeeping.currentTimeNorm (TK st1)).
    { apply sim_op_monotone; [exact Hmono|].
      eapply op_next_target; exact Hnt. }
    apply observe_Ok in Hob.
    destruct Hob as (_ & _ & d & snr & fa & st2 & c & csnr & t_char & rec & Hdet & Hchar & HDRM
                     & Hs & Harr & Hpl & Ht & Hd' & Hsnr & Htc & Hc & Hcsnr & Hcm
                     & Hst & Hext).
    assert (Hstep2 : TimeKeeping.currentTimeNorm (TK st1)
                     <= TimeKeeping.currentTimeNorm (TK st2)).
    { apply sim_op_monotone; [exact Hmono|].
      eapply op_detection; exact Hdet. }
    assert (Hstep3 : TimeKeeping.currentTimeNorm (TK st2)
                     <= TimeKeeping.currentTimeNorm (TK (sim r1))).
    { apply sim_op_monotone; [exact Hmono|].
      eapply op_characterization; exact Hchar. }
    assert (Hend : TimeKeeping.currentTimeNorm (TK st1)
                   <= TimeKeeping.currentTimeNorm (TK (sim r1)))
      by (eapply Qle_trans; eauto).
    split; [eapply Qle_trans; [exact H0|]; eapply Qle_trans; eauto|].
    exists (news ++ [rec]).
    split; [rewrite HDRM, HD; symmetry; apply app_assoc|]. split.
    + intros rec' Hin. apply in_app_or in Hin.
      destruct Hin as [Hin | [<- | []]].
      * destruct (Hle rec' Hin) as [Ha Hb]. split; [exact Ha|].
        eapply Qle_trans; [exact Hb|]. eapply Qle_trans; eauto.
      * rewrite Harr. split; [eapply Qle_trans; eauto | exact Hend].
    + intros i j rec1 rec2 Hij H1 H2.
      destruct (Nat.lt_ge_cases j (List.length news)) as [Hj | Hj].
      * rewrite nth_error_app1 in H1, H2 by lia. eauto.
      * assert (Hi : (i < List.length news)%nat).
        { assert (Hjl : (j < List.length (news ++ [rec]))%nat)
            by (apply nth_error_Some; congruence).
          rewrite length_app in Hjl. simpl in Hjl. lia. }
        rewrite nth_error_app1 in H1 by exact Hi.
        rewrite nth_error_app2 in H2 by exact Hj.
        destruct (j - List.length news)%nat as [|k] eqn:E; simpl in H2;
          [|destruct k; discriminate].
        injection H2 as <-. rewrite Harr.
        apply nth_error_In in H1. destruct (Hle rec1 H1) as [_ Hb].
        eapply Qle_trans; eauto.
  - split; [apply Qle_refl|]. exists [].
    split; [now rewrite app_nil_r|]. split; [intros rec []|].
    intros i j rec1 rec2 _ H1. destruct i; discriminate.
  - exact Hnews.
Qed.

(** X19.  Under a clock that reports the mission over once
    [currentTimeNorm] exceeds [missionLife], [run_sim] never fills the
    extended list: a target is returned only while the mission is not
    over, so the test of line 233 fails every time. *)
Theorem run_sim_extended_empty (cycles fuel : nat)
  (modes : list ObservingMode) (occ : Occulter) (dryMass : Q)
  (tk : TimeKeeping.t) (su : list Planet) (m : Q) (drm : list DRMrecord)
  (r' : Run) :
  (forall tk, TimeKeeping.missionLife tk < TimeKeeping.currentTimeNorm tk ->
              TK_mission_is_over clk tk = true) ->
  run_sim cfg env clk cycles fuel modes occ dryMass tk su m drm
    = Some (Ok r') ->
  starExtended r' = [].
Proof.
  intros Hlife H. unfold run_sim in H.
  destruct (select_modes modes) as [[detMode charMode]|e]; [|discriminate].
  destruct (run_sim_loop_inv (fun r => starExtended r = [])
              fuel occ dryMass detMode charMode) with (4 := H) as [Hext _].
  - intros r sInd st1 HI _ _. exact HI.
  - intros r sInd st1 s t_det slew r1 b HI _ Hnt Hob.
    apply next_target_step in Hnt.
    destruct Hnt as [_ [_ [_ [_ [_ [_ [_ [_ [Hov _]]]]]]]]].
    apply observe_Ok in Hob.
    destruct Hob as (_ & _ & d & snr & fa & st2 & c & csnr & t_char & rec & Hdet & Hchar & HDRM
                     & Hs & Harr & Hpl & Ht & Hd' & Hsnr & Htc & Hc & Hcsnr & Hcm
                     & Hst & Hext).
    rewrite Hext.
    unfold build_extended.
    destruct (Qltb (TimeKeeping.missionLife (TK st1))
                   (TimeKeeping.currentTimeNorm (TK st1))) eqn:E;
      [|exact HI].
    apply Qltb_lt in E. apply Hlife in E. congruence.
  - reflexivity.
  - exact Hext.
Qed.

End RunMore.

Lemma spec_clock_monotone (flag : bool) (dt : Q) (tk : TimeKeeping.t) :
  TimeKeeping.currentTimeNorm tk
  <= TimeKeeping.currentTimeNorm (snd (TK_allocate_time (spec_clock flag) dt tk)).
Proof.
  simpl. unfold TimeKeeping.allocate_time.
  destruct (Qle_bool dt 0) eqn:E; [apply Qle_refl|].
  destruct (Qltb _ _); [apply Qle_refl|].
  destruct (TimeKeeping.past_current_OB _ tk); [apply Qle_refl|].
  destruct (flag && _); [apply Qle_refl|].
  simpl.
  assert (Hdt : 0 < dt).
  { apply Qnot_le_lt. intros Hle. apply Qle_bool_iff in Hle. congruence. }
  rewrite <- (Qplus_0_r (TimeKeeping.currentTimeNorm tk)) at 1.
  apply Qplus_le_r. now apply Qlt_le_weak.
Qed.

Lemma spec_clock_over_after_life (flag : bool) (tk : TimeKeeping.t) :
  TimeKeeping.missionLife tk < TimeKeeping.currentTimeNorm tk ->
  TK_mission_is_over (spec_clock flag) tk = true.
Proof.
  intros H. simpl. unfold TimeKeeping.mission_is_over.
  assert (E : Qle_bool (TimeKeeping.missionLife tk)
                       (TimeKeeping.currentTimeNorm tk) = true)
    by (apply Qle_bool_iff; now apply Qlt_le_weak).
  rewrite E. now rewrite orb_true_r.
Qed.

Lemma occulter_run_records_nothing_witness :
  exists e,
    observe Scenario.cfg_occulter Fixture.env0 (spec_clock true) Fixture.occ0
      10 Fixture.detMode Fixture.charMode 1 5 0 Fixture.st0
      (mkRun Fixture.st0 [] (np.zeros 3) [])
    = Raise e.
Proof.
  apply (proj1 (occulter_run_records_nothing Scenario.cfg_occulter
                  Fixture.env0 (spec_clock true) Fixture.occ0 10
                  Fixture.detMode Fixture.charMode eq_refl)).
Defined.

Lemma run_sim_counts_witness :
  exists r',
    run_sim Fixture.cfg0 Fixture.env0 (spec_clock true) 10 30 Scenario.modes0
      Fixture.occ0 10 Scenario.tk_short Fixture.su0 1000 [] = Some (Ok r')
    /\ List.length (DRM r') = (0 + list_sum (starVisits (sim r')))%nat.
Proof.
  destruct (run_sim Fixture.cfg0 Fixture.env0 (spec_clock true) 10 30
              Scenario.modes0 Fixture.occ0 10 Scenario.tk_short Fixture.su0
              1000 []) as [[r'|e]|] eqn:H;
    [|vm_compute in H; discriminate..].
  exists r'. split; [reflexivity|].
  exact (proj1 (proj2 (run_sim_counts Fixture.cfg0 Fixture.env0
                         (spec_clock true) 10 30 Scenario.modes0 Fixture.occ0
                         10 Scenario.tk_short Fixture.su0 1000 [] r'
                         eq_refl H))).
Defined.

Lemma run_sim_records_witness :
  exists r' news,
    run_sim Fixture.cfg0 Fixture.env0 (spec_clock true) 10 30 Scenario.modes0
      Fixture.occ0 10 Scenario.tk_short Fixture.su0 1000 [] = Some (Ok r')
    /\ DRM r' = [] ++ news
    /\ forall rec, In rec news ->
         forall x, In x (plan_characterized rec) -> x = 0%Z.
Proof.
  destruct (run_sim Fixture.cfg0 Fixture.env0 (spec_clock true) 10 30
              Scenario.modes0 Fixture.occ0 10 Scenario.tk_short Fixture.su0
              1000 []) as [[r'|e]|] eqn:H;
    [|vm_compute in H; discriminate..].
  destruct (proj2 (run_sim_records Fixture.cfg0 Fixture.env0 (spec_clock true)
                     Fixture.occ0 10)
              10%nat 30%nat Scenario.modes0 Scenario.tk_short Fixture.su0
              1000 [] r' H) as [detMode [charMode [news [_ [HD HP]]]]].
  exists r', news. split; [reflexivity|]. split; [exact HD|].
  intros rec Hin. apply (HP rec Hin).
Defined.

Lemma run_sim_arrival_order_witness :
  exists r' news,
    run_sim Fixture.cfg0 Fixture.env0 (spec_clock true) 10 30 Scenario.modes0
      Fixture.occ0 10 Scenario.tk_short Fixture.su0 1000 [] = Some (Ok r')
    /\ DRM r' = [] ++ news
    /\ forall i j rec1 rec2,
         (i < j)%nat -> nth_error news i = Some rec1 ->
         nth_error news j = Some rec2 ->
         arrival_time rec1 <= arrival_time rec2.
Proof.
  destruct (run_sim Fixture.cfg0 Fixture.env0 (spec_clock true) 10 30
              Scenario.modes0 Fixture.occ0 10 Scenario.tk_short Fixture.su0
              1000 []) as [[r'|e]|] eqn:H;
    [|vm_compute in H; discriminate..].
  destruct (run_sim_arrival_order Fixture.cfg0 Fixture.env0 (spec_clock true)
              10 30 Scenario.modes0 Fixture.occ0 10 Scenario.tk_short
              Fixture.su0 1000 [] r' (spec_clock_monotone true) H)
    as [news [HD [_ Hs]]].
  exists r', news. split; [reflexivity|]. split; [exact HD | exact Hs].
Defined.

Lemma run_sim_extended_empty_witness :
  exists r',
    run_sim Fixture.cfg0 Fixture.env0 (spec_clock true) 10 30 Scenario.modes0
      Fixture.occ0 10 Scenario.tk_short Fixture.su0 1000 [] = Some (Ok r')
    /\ starExtended r' = [].
Proof.
  destruct (run_sim Fixture.cfg0 Fixture.env0 (spec_clock true) 10 30
              Scenario.modes0 Fixture.occ0 10 Scenario.tk_short Fixture.su0
              1000 []) as [[r'|e]|] eqn:H;
    [|vm_compute in H; discriminate..].
  exists r'. split; [reflexivity|].
  exact (run_sim_extended_empty Fixture.cfg0 Fixture.env0 (spec_clock true)
           10 30 Scenario.modes0 Fixture.occ0 10 Scenario.tk_short Fixture.su0
           1000 [] r' (spec_clock_over_after_life true) H).
Defined.

(** ** Background sources *)

(** X20.  [dNbackground] returns exactly when [intDepths] is a tuple,
    list or ndarray, [coords] is a tuple, list or ndarray or a SkyCoord
    whose shape is not empty, and both have a length, the same for both;
    what it returns is then one zero per integration depth, whatever the
    coordinates and the depths are. *)
Theorem dNbackground_zeros (coords intDepths : BackgroundSources.arg)
  (dN : list Q) :
  BackgroundSources.dNbackground coords intDepths = inl dN
  <-> BackgroundSources.is_array_like intDepths = true
      /\ (BackgroundSources.is_array_like coords = true
          \/ exists n shape, coords = BackgroundSources.SkyCoord (n :: shape))
      /\ exists n, BackgroundSources.len coords = Some n
                   /\ BackgroundSources.len intDepths = Some n
                   /\ dN = repeat 0 n.
Proof.
  unfold BackgroundSources.dNbackground. split.
  - destruct (BackgroundSources.is_array_like intDepths); [|discriminate].
    simpl negb. cbv iota.
    assert (Hc : match coords with
                 | BackgroundSources.SkyCoord [] => true
                 | BackgroundSources.SkyCoord (_ :: _) => false
                 | _ => negb (BackgroundSources.is_array_like coords)
                 end = false ->
                 BackgroundSources.is_array_like coords = true
                 \/ exists n shape,
                      coords = BackgroundSources.SkyCoord (n :: shape)).
    { destruct coords as [k | sh | [|k sh] | k |]; simpl; intros H;
        try discriminate; try (now left).
      right. now exists k, sh. }
    destruct (match coords with
              | BackgroundSources.SkyCoord [] => true
              | BackgroundSources.SkyCoord (_ :: _) => false
              | _ => negb (BackgroundSources.is_array_like coords)
              end); [discriminate|].
    specialize (Hc eq_refl).
    destruct (BackgroundSources.len coords) as [nc|]; [|discriminate].
    destruct (BackgroundSources.len intDepths) as [nd|]; [|discriminate].
    destruct (nc =? nd)%nat eqn:E; [|discriminate].
    apply Nat.eqb_eq in E. subst nd. intros H. injection H as <-.
    split; [reflexivity|]. split; [exact Hc|]. exists nc. now repeat split.
  - intros [Harr [Hcoords [n [Hc [Hd ->]]]]]. rewrite Harr. simpl negb.
    cbv iota.
    assert (Hok : match coords with
                  | BackgroundSources.SkyCoord [] => true
                  | BackgroundSources.SkyCoord (_ :: _) => false
                  | _ => negb (BackgroundSources.is_array_like coords)
                  end = false).
    { destruct Hcoords as [H | [k [sh ->]]]; [|reflexivity].
      destruct coords as [k | sh | [|k sh] | k |]; simpl in *;
        try reflexivity; discriminate. }
    rewrite Hok, Hc, Hd, Nat.eqb_refl. reflexivity.
Qed.

(** X21.  The errors of [dNbackground]: an AssertionError for
    integration depths that are no tuple, list or ndarray; then for
    coordinates that are a SkyCoord without shape or neither a SkyCoord
    nor a tuple, list or ndarray (a str, dict or set as much as an object
    without length); then, for coordinates that pass, a TypeError when
    the coordinates or the depths are an ndarray of dimension zero, which
    has no length, and an AssertionError for inputs of different
    lengths. *)
Theorem dNbackground_errors (coords intDepths : BackgroundSources.arg) :
  (BackgroundSources.is_array_like intDepths = false ->
   BackgroundSources.dNbackground coords intDepths
   = inr (BackgroundSources.AssertionError "intDepths is not array-like."))
  /\ (BackgroundSources.is_array_like intDepths = true ->
      coords = BackgroundSources.SkyCoord []
      \/ coords = BackgroundSources.Other
      \/ (exists n, coords = BackgroundSources.Sized n) ->
      BackgroundSources.dNbackground coords intDepths
      = inr (BackgroundSources.AssertionError "coords is not array-like."))
  /\ (BackgroundSources.is_array_like intDepths = true ->
      coords = BackgroundSources.NdArray []
      \/ ((BackgroundSources.is_array_like coords = true
           \/ exists k shape, coords = BackgroundSources.SkyCoord (k :: shape))
          /\ (exists n, BackgroundSources.len coords = Some n)
          /\ intDepths = BackgroundSources.NdArray []) ->
      BackgroundSources.dNbackground coords intDepths
      = inr BackgroundSources.TypeError)
  /\ (forall n m,
        BackgroundSources.is_array_like intDepths = true ->
        BackgroundSources.is_array_like coords = true
        \/ (exists k shape, coords = BackgroundSources.SkyCoord (k :: shape)) ->
        BackgroundSources.len coords = Some n ->
        BackgroundSources.len intDepths = Some m ->
        n <> m ->
        BackgroundSources.dNbackground coords intDepths
        = inr (BackgroundSources.AssertionError "Input size mismatch.")).
Proof.
  unfold BackgroundSources.dNbackground.
  assert (Hok : BackgroundSources.is_array_like coords = true
                \/ (exists k shape,
                      coords = BackgroundSources.SkyCoord (k :: shape)) ->
                match coords with
                | BackgroundSources.SkyCoord [] => true
                | BackgroundSources.SkyCoord (_ :: _) => false
                | _ => negb (BackgroundSources.is_array_like coords)
                end = false).
  { intros [H | [k [sh ->]]]; [|reflexivity].
    destruct coords as [k | sh | [|k sh] | k |]; simpl in *;
      try reflexivity; discriminate. }
  split; [|split; [|split]].
  - intros ->. reflexivity.
  - intros -> [-> | [-> | [n ->]]]; reflexivity.
  - intros -> [-> | [Hacc [[n Hn] ->]]]; [reflexivity|].
    simpl negb. cbv iota. rewrite (Hok Hacc), Hn. reflexivity.
  - intros n m -> Hacc Hc Hd Hnm. simpl negb. cbv iota.
    rewrite (Hok Hacc), Hc, Hd.
    apply Nat.eqb_neq in Hnm. now rewrite Hnm.
Qed.

Lemma dNbackground_errors_witness :
  BackgroundSources.dNbackground (BackgroundSources.SkyCoord [3%nat])
    (BackgroundSources.Sequence 2)
  = inr (BackgroundSources.AssertionError "Input size mismatch.")
  /\ BackgroundSources.dNbackground (BackgroundSources.Sized 2)
       (BackgroundSources.Sequence 2)
     = inr (BackgroundSources.AssertionError "coords is not array-like.").
Proof.
  split.
  - apply (proj2 (proj2 (proj2 (dNbackground_errors
                                  (BackgroundSources.SkyCoord [3%nat])
                                  (BackgroundSources.Sequence 2))))
             3%nat 2%nat);
      [reflexivity | right; now exists 3%nat, [] | reflexivity
       | reflexivity | lia].
  - apply (proj1 (proj2 (dNbackground_errors (BackgroundSources.Sized 2)
                           (BackgroundSources.Sequence 2))));
      [reflexivity | right; right; now exists 2%nat].
Defined.

(** The first entry that a filter keeps. *)
Lemma filter_head {A} (f : A -> bool) (l : list A) (x : A) (rest : list A) :
  filter f l = x :: rest ->
  exists pre post,
    l = pre ++ x :: post /\ (forall y, In y pre -> f y = false) /\ f x = true.
Proof.
  induction l as [|a l IH]; simpl; [discriminate|].
  destruct (f a) eqn:E.
  - intros H. injection H as -> _. exists [], l.
    split; [reflexivity|]. split; [intros y []|exact E].
  - intros H. destruct (IH H) as [pre [post [-> [Hpre Hx]]]].
    exists (a :: pre), post. split; [reflexivity|]. split; [|exact Hx].
    intros y [<- | Hy]; [exact E | now apply Hpre].
Qed.

Lemma filter_nil {A} (f : A -> bool) (l : list A) :
  filter f l = [] -> forall y, In y l -> f y = false.
Proof.
  intros H y Hy. destruct (f y) eqn:E; [|reflexivity].
  assert (Hx : In y (filter f l)) by (apply filter_In; now split).
  rewrite H in Hx. destruct Hx.
Qed.

(** X22.  [run_sim] takes as detection mode the first observing mode
    flagged [detectionMode] and as characterization mode the first mode
    whose instrument name contains "spec", or the first mode of all when
    none does; without a mode flagged for detection it raises
    IndexError before the loop, whatever the rest of the mission. *)
Theorem run_sim_modes (modes : list ObservingMode) :
  ((forall m, In m modes -> detectionMode m = false) ->
   forall cfg env clk cycles fuel occ dryMass tk su m drm,
     run_sim cfg env clk cycles fuel modes occ dryMass tk su m drm
     = Some (Raise IndexError))
  /\ (forall detMode charMode,
        select_modes modes = Ok (detMode, charMode) ->
        (exists pre md post,
           modes = pre ++ md :: post
           /\ (forall m, In m pre -> detectionMode m = false)
           /\ detectionMode md = true /\ detMode = om_mode md)
        /\ ((exists pre mc post,
               modes = pre ++ mc :: post
               /\ (forall m, In m pre -> is_spectro m = false)
               /\ is_spectro mc = true /\ charMode = om_mode mc)
            \/ ((forall m, In m modes -> is_spectro m = false)
                /\ exists mc rest,
                     modes = mc :: rest /\ charMode = om_mode mc))).
Proof.
  split.
  - intros Hnone.
    assert (E : filter detectionMode modes = []).
    { induction modes as [|x l IH]; [reflexivity|]. simpl.
      rewrite (Hnone x (or_introl eq_refl)). apply IH.
      intros m Hm. apply Hnone. now right. }
    intros. unfold run_sim, select_modes. now rewrite E.
  - intros detMode charMode. unfold select_modes.
    destruct (filter detectionMode modes) as [|md l] eqn:E; [discriminate|].
    apply filter_head in E. destruct E as [pre [post [Hm [Hpre Hmd]]]].
    destruct (filter is_spectro modes) as [|mc l'] eqn:E'.
    + destruct modes as [|mc rest] eqn:Em; [discriminate|].
      intros H. injection H as <- <-.
      split; [exists pre, md, post; now repeat split|].
      right. split; [now apply filter_nil|]. now exists mc, rest.
    + intros H. injection H as <- <-.
      split; [exists pre, md, post; now repeat split|].
      left. apply filter_head in E'.
      destruct E' as [pre' [post' [Hm' [Hpre' Hmc]]]].
      exists pre', mc, post'. now repeat split.
Qed.

Lemma run_sim_modes_witness :
  select_modes Scenario.modes0 = Ok (Fixture.detMode, Fixture.charMode)
  /\ exists pre md post,
       Scenario.modes0 = pre ++ md :: post
       /\ (forall m, In m pre -> detectionMode m = false)
       /\ detectionMode md = true /\ Fixture.detMode = om_mode md.
Proof.
  split; [reflexivity|].
  exact (proj1 (proj2 (run_sim_modes Scenario.modes0)
                  Fixture.detMode Fixture.charMode eq_refl)).
Defined.

(** ** calc_signal_noise *)

(** X23.  [calc_signal_noise] returns one signal count and one noise
    count for each planet asked for, asks the clock for the interval in
    two halves, and leaves the visit counts, the revisit list,
    [lastDetected], the spectra counters, the wet mass and the star of
    every planet as they were. *)
Theorem calc_signal_noise_effect (env : Collaborators) (clk : Clock)
  (sInd : nat) (pInds : list nat) (t_int : Q) (mode : Mode) (st : Sim) :
  Forall (fun p => (p < List.length (SU st))%nat) pInds ->
  let r := calc_signal_noise env clk sInd pInds t_int mode st in
  List.length (fst (fst r)) = List.length pInds
  /\ List.length (snd (fst r)) = List.length pInds
  /\ TK (snd r) = allocate_all clk [t_int / 2; t_int / 2] (TK st)
  /\ books_frame st (snd r).
Proof.
  intros Hrange r.
  destruct (calc_signal_noise_lengths env clk sInd pInds t_int mode st Hrange)
    as [H1 [H2 _]].
  split; [exact H1|]. split; [exact H2|].
  split; [apply calc_signal_noise_TK | apply calc_signal_noise_books].
Qed.

Lemma calc_signal_noise_effect_witness :
  let r := calc_signal_noise Fixture.env0 (spec_clock true) 1 [0; 1]%nat 4
             Fixture.detMode Fixture.st0 in
  List.length (fst (fst r)) = 2%nat
  /\ TK (snd r) = allocate_all (spec_clock true) [4 / 2; 4 / 2] (TK Fixture.st0).
Proof.
  destruct (calc_signal_noise_effect Fixture.env0 (spec_clock true) 1
              [0; 1]%nat 4 Fixture.detMode Fixture.st0)
    as [H1 [_ [H3 _]]].
  - repeat constructor.
  - split; [exact H1 | exact H3].
Defined.

Lemma dNbackground_zeros_witness :
  BackgroundSources.dNbackground (BackgroundSources.SkyCoord [3%nat])
    (BackgroundSources.NdArray [3%nat])
  = inl [0; 0; 0].
Proof.
  apply (proj2 (dNbackground_zeros (BackgroundSources.SkyCoord [3%nat])
                  (BackgroundSources.NdArray [3%nat]) [0; 0; 0])).
  split; [reflexivity|]. split; [right; now exists 3%nat, []|].
  exists 3%nat. repeat split.
Defined.

(** ** The times that next_target returns *)

Section IntegrationTime.
Variable cfg : Config.
Variable env : Collaborators.
Variable clk : Clock.

(** The integration time and the slew time of a pass that finds a
    target. *)
Lemma pass_found_times (old_sInd : option nat) (mode : Mode) (st st' : Sim)
  (sInd : nat) (t_det : Q) (slewTime : list Q) :
  next_target_pass cfg env clk old_sInd mode st = Found st' sInd t_det slewTime ->
  t_det = calc_maxintTime env mode sInd
            (TimeKeeping.currentTimeAbs (TK st) + nth sInd slewTime 0)
  /\ nth sInd slewTime 0
     = if haveOcculter (OS cfg) then
         match old_sInd with
         | None => 0
         | Some o => slew_time env o sInd
                       (TimeKeeping.currentTimeAbs (TK st)) (scMass st)
         end
       else 0.
Proof.
  intros Hpass.
  pose proof (pass_found_inv cfg env clk _ _ _ _ _ _ _ Hpass)
    as [Hslew [_ [_ [_ [Hlt _]]]]].
  split.
  - revert Hpass. unfold next_target_pass, candidates.
    set (slew := slewTimes cfg env old_sInd st).
    set (startTime := startTimes slew st).
    set (sInds1 := filter_start cfg env startTime).
    destruct (filter_cutoff cfg env mode startTime sInds1)
      as [t_dets sInds2] eqn:H2.
    set (sInds3 := filter_end env startTime t_dets sInds2).
    set (sInds4 := filter_visits cfg st sInds3).
    simpl snd.
    destruct (np.any_nat sInds4) eqn:Hany4; [|discriminate].
    intros H. injection H as _ Hs Ht _.
    assert (Hany3 : np.any_nat sInds3 = true).
    { destruct (np.any_nat sInds3) eqn:E; [reflexivity|].
      unfold sInds4, filter_visits in Hany4. rewrite E in Hany4. congruence. }
    assert (Hany2 : np.any_nat sInds2 = true).
    { destruct (np.any_nat sInds2) eqn:E; [reflexivity|].
      unfold sInds3, filter_end in Hany3. rewrite E in Hany3. congruence. }
    assert (Hany1 : np.any_nat sInds1 = true).
    { destruct (np.any_nat sInds1) eqn:E; [reflexivity|].
      unfold filter_cutoff in H2. rewrite E in H2. injection H2 as _ H2.
      congruence. }
    assert (Hrange : Forall (fun i => (i < nStars cfg)%nat) sInds4).
    { apply Forall_forall. intros i Hi.
      unfold sInds4, filter_visits in Hi. rewrite Hany3 in Hi.
      apply where_lt in Hi. now rewrite length_tovisit in Hi. }
    assert (Hin4 : In sInd sInds4).
    { rewrite <- Hs. apply choose_best_In; [|exact Hrange].
      now apply any_nat_nonempty. }
    assert (Hin3 : In sInd sInds3) by (now apply (filter_visits_incl cfg st)).
    unfold sInds3, filter_end in Hin3. rewrite Hany2 in Hin3.
    apply end_body_spec in Hin3. destruct Hin3 as [Hin2 _].
    unfold filter_cutoff in H2. rewrite Hany1 in H2.
    unfold cutoff_body in H2. injection H2 as Ht2 H2. rewrite <- H2 in Hin2.
    apply In_where in Hin2. rewrite !nth_error_map in Hin2.
    rewrite nth_error_scatter_map in Hin2.
    assert (Hnth : nth sInd startTime 0
                   = TimeKeeping.currentTimeAbs (TK st) + nth sInd slew 0).
    { apply startTimes_nth. unfold slew. now rewrite slewTimes_length. }
    assert (Hval : nth_error t_dets sInd
                   = Some (calc_maxintTime env mode sInd (nth sInd startTime 0))).
    { rewrite <- Ht2, nth_error_scatter_map.
      destruct (np.mem sInd sInds1 && (sInd <? List.length (np.zeros (nStars cfg)))%nat)
        eqn:E; [reflexivity|].
      destruct (nth_error (np.zeros (nStars cfg)) sInd) as [t|] eqn:Ez;
        [|discriminate].
      apply nth_error_In, repeat_spec in Ez. subst t.
      simpl in Hin2. discriminate Hin2. }
    rewrite Hs in Ht. rewrite <- Ht, (nth_error_nth _ _ 0 Hval), Hnth, Hslew.
    reflexivity.
  - rewrite Hslew. unfold slewTimes.
    assert (Hz : nth sInd (np.zeros (nStars cfg)) 0 = 0).
    { unfold np.zeros. destruct (nth_in_or_default sInd (repeat 0 (nStars cfg)) 0)
        as [Hin | ->]; [|reflexivity].
      now apply repeat_spec in Hin. }
    destruct (haveOcculter (OS cfg)); [|exact Hz].
    destruct old_sInd as [o|]; [|exact Hz].
    apply nth_error_nth. rewrite nth_error_map. unfold all_stars.
    rewrite nth_error_seq. apply Nat.ltb_lt in Hlt. rewrite Hlt. reflexivity.
Qed.

(** X24.  The integration time that [next_target] returns for a target
    is [OS.calc_maxintTime] of that star at its start time, the absolute
    time of the selection plus the slew time; the slew time returned is
    zero without an occulter and for a first target, and otherwise the
    slew time from the previous target computed at the time and with the
    wet mass of the selection. *)
Theorem next_target_times (fuel : nat) (old_sInd : option nat)
  (mode : Mode) (st st' : Sim) (sInd : nat) (t_det slew : Q) :
  next_target cfg env clk fuel old_sInd mode st
    = Some (st', Some (sInd, t_det, slew)) ->
  exists tk,
    TK st' = (if haveOcculter (OS cfg)
              then snd (TK_allocate_time clk slew tk) else tk)
    /\ t_det = calc_maxintTime env mode sInd
                 (TimeKeeping.currentTimeAbs tk + slew)
    /\ slew = if haveOcculter (OS cfg) then
                match old_sInd with
                | None => 0
                | Some o => slew_time env o sInd
                              (TimeKeeping.currentTimeAbs tk) (scMass st)
                end
              else 0.
Proof.
  intros H. apply next_target_inv in H.
  destruct H as [[st1 [_ [_ Hr]]] | [st1 [s [t [sl [Hloop Hcase]]]]]];
    [discriminate|].
  apply loop_inv in Hloop. destruct Hloop as [st_p [Hb [_ [_ Hpass]]]].
  pose proof (pass_found_times _ _ _ _ _ _ _ Hpass) as [Ht Hsl].
  apply pass_found_inv in Hpass. destruct Hpass as [_ [Hst1 _]].
  assert (HTK : TK st1 = TK st_p) by (rewrite Hst1; reflexivity).
  assert (Hmass : scMass st_p = scMass st).
  { unfold books_frame in Hb. decompose [and] Hb. assumption. }
  rewrite Hmass in Hsl.
  exists (TK st_p).
  destruct Hcase as [[Hocc [-> Hr]] | [Hocc [-> Hr]]]; rewrite Hocc in *.
  - injection Hr as -> -> ->. rewrite HTK. repeat split; assumption.
  - revert Hr.
    destruct (TK_mission_is_over clk (TK (allocate clk (nth s sl 0) st1)));
      intros Hr; [discriminate|].
    injection Hr as -> -> ->. unfold allocate. simpl TK. rewrite HTK.
    repeat split; assumption.
Qed.

End IntegrationTime.

Lemma next_target_times_witness :
  exists st' tk,
    next_target Fixture.cfg0 Fixture.env0 (spec_clock true) 5 None
      Fixture.detMode Fixture.st0 = Some (st', Some (2%nat, 5, 0))
    /\ TK st' = tk
    /\ 5 = calc_maxintTime Fixture.env0 Fixture.detMode 2
             (TimeKeeping.currentTimeAbs tk + 0).
Proof.
  destruct (next_target Fixture.cfg0 Fixture.env0 (spec_clock true) 5 None
              Fixture.detMode Fixture.st0) as [[st' r]|] eqn:H;
    [|vm_compute in H; discriminate].
  assert (Hr : r = Some (2%nat, 5, 0)).
  { vm_compute in H. injection H as _ <-. reflexivity. }
  subst r.
  destruct (next_target_times Fixture.cfg0 Fixture.env0 (spec_clock true)
              5 None Fixture.detMode Fixture.st0 st' 2 5 0 H)
    as [tk [Htk [Ht _]]].
  exists st', tk. repeat split; assumption.
Defined.
